(** * The session store of only-context: a shallow embedding

    This development models [plugin/src/shared/session-store.ts]: the
    file-based session store (metadata files, observation logs, the pending
    job counter and the stale session sweep) and proves the properties its
    specification states about it, and further properties that its users
    rely on. The hooks [plugin/hooks/scripts/user-prompt-submit.ts] and
    [plugin/hooks/scripts/pre-compact.ts] are modelled as far as they call
    the store.

    Conventions of the model:
    - a JavaScript string that comes from outside (a session identifier) is a
      list of UTF-16 code units ([jsstring]); text the store itself produces
      or keeps in files is a [string];
    - JavaScript numbers that hold counters and clock readings are integers
      of [Z] (the code only adds and subtracts small integers, on which
      doubles are exact);
    - the sessions directory is a finite map from file names to files; a
      metadata file is kept as the record it holds, any other file as its text
      (characters up to U+00FF);
    - a call reads the clock once: [now] is that reading, used for the time
      stamps the call writes and for the modification time of the files it
      writes; times are whole milliseconds and ages whole hours;
    - what a call meets of other processes is given to it: whether it gets a
      lock, and what the wait loop observes at each poll. Failures of the file
      system other than a file that cannot be read are not modelled. *)

From Stdlib Require Import ZArith Ascii String List Lia DecimalString DecimalPos.
From stdpp Require Import gmap strings list.

Local Open Scope Z_scope.
Set Warnings "-register-all,-clear-no-such-hyp".

(** ** JavaScript strings as UTF-16 code units *)

Module JsString.

Definition jsstring := list Z.

(** An ASCII literal as a JavaScript string. *)
Definition of_string (s : string) : jsstring :=
  map (fun a => Z.of_N (N_of_ascii a)) (list_ascii_of_string s).

Definition is_high_surrogate (c : Z) : bool := (0xD800 <=? c) && (c <=? 0xDBFF).
Definition is_low_surrogate (c : Z) : bool := (0xDC00 <=? c) && (c <=? 0xDFFF).

(** UTF-8 bytes of one code point. *)
Definition utf8_of_code_point (cp : Z) : list Z :=
  if cp <? 0x80 then [cp]
  else if cp <? 0x800 then
    [Z.lor 0xC0 (Z.shiftr cp 6); Z.lor 0x80 (Z.land cp 0x3F)]
  else if cp <? 0x10000 then
    [Z.lor 0xE0 (Z.shiftr cp 12);
     Z.lor 0x80 (Z.land (Z.shiftr cp 6) 0x3F);
     Z.lor 0x80 (Z.land cp 0x3F)]
  else
    [Z.lor 0xF0 (Z.shiftr cp 18);
     Z.lor 0x80 (Z.land (Z.shiftr cp 12) 0x3F);
     Z.lor 0x80 (Z.land (Z.shiftr cp 6) 0x3F);
     Z.lor 0x80 (Z.land cp 0x3F)].

(** U+FFFD, what an unpaired surrogate is encoded as. *)
Definition replacement_character : Z := 0xFFFD.

(** The bytes [hash.update(str)] feeds to the digest: the UTF-8 encoding
    of the string, a surrogate pair as one code point and an unpaired
    surrogate as U+FFFD. *)
Fixpoint utf8_encode (s : jsstring) : list Z :=
  match s with
  | [] => []
  | c :: rest =>
      if is_high_surrogate c then
        match rest with
        | d :: rest' =>
            if is_low_surrogate d then
              utf8_of_code_point
                (0x10000 + (c - 0xD800) * 0x400 + (d - 0xDC00))
                ++ utf8_encode rest'
            else utf8_of_code_point replacement_character ++ utf8_encode rest
        | [] => utf8_of_code_point replacement_character
        end
      else if is_low_surrogate c then
        utf8_of_code_point replacement_character ++ utf8_encode rest
      else utf8_of_code_point c ++ utf8_encode rest
  end.

End JsString.

(** ** SHA-256 (FIPS 180-4), as [crypto.createHash('sha256')] computes it *)

Module Sha256.

Definition mask32 (x : Z) : Z := Z.land x 0xFFFFFFFF.
Definition add32 (x y : Z) : Z := mask32 (x + y).
Definition rotr (n x : Z) : Z :=
  mask32 (Z.lor (Z.shiftr x n) (Z.shiftl x (32 - n))).
Definition not32 (x : Z) : Z := Z.lxor x 0xFFFFFFFF.

Definition Ch (x y z : Z) : Z := Z.lxor (Z.land x y) (Z.land (not32 x) z).
Definition Maj (x y z : Z) : Z :=
  Z.lxor (Z.lxor (Z.land x y) (Z.land x z)) (Z.land y z).
Definition Sigma0 (x : Z) : Z := Z.lxor (Z.lxor (rotr 2 x) (rotr 13 x)) (rotr 22 x).
Definition Sigma1 (x : Z) : Z := Z.lxor (Z.lxor (rotr 6 x) (rotr 11 x)) (rotr 25 x).
Definition sigma0 (x : Z) : Z := Z.lxor (Z.lxor (rotr 7 x) (rotr 18 x)) (Z.shiftr x 3).
Definition sigma1 (x : Z) : Z := Z.lxor (Z.lxor (rotr 17 x) (rotr 19 x)) (Z.shiftr x 10).

(** The largest [r] between [lo] and [hi] with [r ^ k <= n], by bisection. *)
Fixpoint root_search (fuel : nat) (k n lo hi : Z) : Z :=
  match fuel with
  | O => lo
  | S fuel =>
      if hi - lo <=? 1 then lo
      else
        let mid := (lo + hi) / 2 in
        if mid ^ k <=? n then root_search fuel k n mid hi
        else root_search fuel k n lo mid
  end.

(** The first 32 bits of the fractional part of the [k]-th root of [p]. *)
Definition root_fraction (k p : Z) : Z :=
  Z.land (root_search 64 k (p * 2 ^ (32 * k)) 0 (2 ^ 36)) 0xFFFFFFFF.

Definition primes : list Z :=
  [2; 3; 5; 7; 11; 13; 17; 19; 23; 29; 31; 37; 41; 43; 47; 53; 59; 61; 67; 71; 73; 79;
   83; 89; 97; 101; 103; 107; 109; 113; 127; 131; 137; 139; 149; 151; 157; 163; 167;
   173; 179; 181; 191; 193; 197; 199; 211; 223; 227; 229; 233; 239; 241; 251; 257; 263;
   269; 271; 277; 281; 283; 293; 307; 311].

(** The round constants: from the cube roots of the first 64 primes. *)
Definition K : list Z := Eval vm_compute in map (root_fraction 3) primes.

(** The eight working variables, also the chaining value. *)
Record state := State { sa : Z; sb : Z; sc : Z; sd : Z; se : Z; sf : Z; sg : Z; sh : Z }.

(** The initial hash value: from the square roots of the first 8 primes. *)
Definition H0 : state :=
  Eval vm_compute in
    match map (root_fraction 2) (firstn 8 primes) with
    | [a; b; c; d; e; f; g; h] => State a b c d e f g h
    | _ => State 0 0 0 0 0 0 0 0
    end.

(** Big-endian bytes of [x], [n] of them. *)
Fixpoint be_bytes (n : nat) (x : Z) : list Z :=
  match n with
  | O => []
  | S n' => Z.land (Z.shiftr x (8 * Z.of_nat n')) 0xFF :: be_bytes n' x
  end.

(** Padding: a 1 bit, zeros up to 56 mod 64, the bit length on 64 bits. *)
Definition pad (msg : list Z) : list Z :=
  let len := Z.of_nat (length msg) in
  let zeros := Z.to_nat ((55 - len) mod 64) in
  msg ++ [0x80] ++ repeat 0 zeros ++ be_bytes 8 (8 * len).

Fixpoint words_of_bytes (bs : list Z) : list Z :=
  match bs with
  | b0 :: b1 :: b2 :: b3 :: rest =>
      Z.lor (Z.shiftl b0 24) (Z.lor (Z.shiftl b1 16) (Z.lor (Z.shiftl b2 8) b3))
        :: words_of_bytes rest
  | _ => []
  end.

(** The message schedule: [n] more words after the ones of [w]. *)
Fixpoint schedule (n : nat) (w : list Z) : list Z :=
  match n with
  | O => w
  | S n' =>
      let t := length w in
      let at_ (k : nat) := List.nth (t - k)%nat w 0 in
      schedule n'
        (w ++ [add32 (add32 (sigma1 (at_ 2%nat)) (at_ 7%nat))
                     (add32 (sigma0 (at_ 15%nat)) (at_ 16%nat))])
  end.

Definition round (s : state) (kw : Z * Z) : state :=
  let '(k, w) := kw in
  let t1 := add32 (add32 (add32 (sh s) (Sigma1 (se s))) (Ch (se s) (sf s) (sg s)))
                  (add32 k w) in
  let t2 := add32 (Sigma0 (sa s)) (Maj (sa s) (sb s) (sc s)) in
  State (add32 t1 t2) (sa s) (sb s) (sc s) (add32 (sd s) t1) (se s) (sf s) (sg s).

Definition compress (h : state) (block : list Z) : state :=
  let w := schedule 48 (words_of_bytes block) in
  let s := fold_left round (combine K w) h in
  State (add32 (sa h) (sa s)) (add32 (sb h) (sb s)) (add32 (sc h) (sc s))
        (add32 (sd h) (sd s)) (add32 (se h) (se s)) (add32 (sf h) (sf s))
        (add32 (sg h) (sg s)) (add32 (sh h) (sh s)).

(** [n] blocks of 64 bytes, one after the other. *)
Fixpoint blocks (n : nat) (h : state) (bs : list Z) : state :=
  match n with
  | O => h
  | S n' => blocks n' (compress h (firstn 64 bs)) (skipn 64 bs)
  end.

Definition sha256 (msg : list Z) : state :=
  let p := pad msg in
  blocks (length p / 64) H0 p.

Definition hex_digit (d : Z) : ascii :=
  match d with
  | 0 => "0" | 1 => "1" | 2 => "2" | 3 => "3" | 4 => "4" | 5 => "5"
  | 6 => "6" | 7 => "7" | 8 => "8" | 9 => "9" | 10 => "a" | 11 => "b"
  | 12 => "c" | 13 => "d" | 14 => "e" | _ => "f"
  end%char.

Definition nibble (x : Z) (i : Z) : ascii :=
  hex_digit (Z.land (Z.shiftr x (4 * i)) 0xF).

Definition hex_of_word (x : Z) : list ascii :=
  [nibble x 7; nibble x 6; nibble x 5; nibble x 4;
   nibble x 3; nibble x 2; nibble x 1; nibble x 0].

(** [digest('hex')]. *)
Definition hex_of_state (s : state) : list ascii :=
  hex_of_word (sa s) ++ hex_of_word (sb s) ++ hex_of_word (sc s) ++
  hex_of_word (sd s) ++ hex_of_word (se s) ++ hex_of_word (sf s) ++
  hex_of_word (sg s) ++ hex_of_word (sh s).

Definition sha256_hex (msg : list Z) : list ascii := hex_of_state (sha256 msg).

End Sha256.

(** ** Derived file names *)

Import JsString.

Definition is_alnum (c : Z) : bool :=
  ((48 <=? c) && (c <=? 57)) || ((65 <=? c) && (c <=? 90)) || ((97 <=? c) && (c <=? 122)).

(** [toLowerCase] on a code unit that the replace left in place. *)
Definition toLowerCase (c : Z) : Z :=
  if (65 <=? c) && (c <=? 90) then c + 32 else c.

Definition ascii_of_unit (c : Z) : ascii := ascii_of_N (Z.to_N c).

(** [sessionId.substring(0, 8).replace(/[^a-zA-Z0-9]/g, '').toLowerCase()] *)
Definition readable_prefix (sessionId : jsstring) : list ascii :=
  map (fun c => ascii_of_unit (toLowerCase c)) (filter (fun c => is_alnum c = true) (take 8 sessionId)).

(** [createHash('sha256').update(sessionId).digest('hex').substring(0, 16)] *)
Definition hash16 (sessionId : jsstring) : list ascii :=
  take 16 (Sha256.sha256_hex (utf8_encode sessionId)).

Definition safeSessionFilename (sessionId : jsstring) : string :=
  let hash := hash16 sessionId in
  let prefix :=
    match readable_prefix sessionId with
    | [] => list_ascii_of_string "session"
    | p => p
    end in
  string_of_list_ascii (prefix ++ "_"%char :: hash).

Definition getSessionFilePath (sessionId : jsstring) : string :=
  safeSessionFilename sessionId +:+ ".json".

Definition getObservationsFilePath (sessionId : jsstring) : string :=
  safeSessionFilename sessionId +:+ ".observations.jsonl".

Definition getLockFilePath (sessionId : jsstring) : string :=
  safeSessionFilename sessionId +:+ ".lock".

Definition getPendingFilePath (sessionId : jsstring) : string :=
  safeSessionFilename sessionId +:+ ".pending".

Definition getPendingLockPath (sessionId : jsstring) : string :=
  safeSessionFilename sessionId +:+ ".pending.lock".

(** ** Text: the string operations the store uses *)

Module Text.

Local Open Scope char_scope.

(** White space and line terminators of ECMAScript, among the characters
    a [string] holds. *)
Definition is_whitespace (a : ascii) : bool :=
  match N_of_ascii a with
  | 9%N | 10%N | 11%N | 12%N | 13%N | 32%N | 160%N => true
  | _ => false
  end.

Fixpoint trimStart (s : string) : string :=
  match s with
  | EmptyString => EmptyString
  | String a r => if is_whitespace a then trimStart r else s
  end.

Fixpoint trimEnd (s : string) : string :=
  match s with
  | EmptyString => EmptyString
  | String a r =>
      match trimEnd r with
      | EmptyString => if is_whitespace a then EmptyString else String a EmptyString
      | r' => String a r'
      end
  end.

(** [s.trim()] *)
Definition trim (s : string) : string := trimEnd (trimStart s).

Definition newline : ascii := "010".

(** [s.split('\n')] *)
Fixpoint split_lines (s : string) : list string :=
  match s with
  | EmptyString => [EmptyString]
  | String a r =>
      if Ascii.eqb a newline then EmptyString :: split_lines r
      else match split_lines r with
           | l :: ls => String a l :: ls
           | [] => [String a EmptyString]
           end
  end.

(** [s.endsWith(suffix)] *)
Fixpoint endsWith (s suffix : string) : bool :=
  String.eqb s suffix ||
  match s with
  | EmptyString => false
  | String _ r => endsWith r suffix
  end.

(** The longest prefix of decimal digits. *)
Fixpoint digits_prefix (s : string) : Decimal.uint :=
  match s with
  | EmptyString => Decimal.Nil
  | String a r =>
      match a with
      | "0" => Decimal.D0 (digits_prefix r)
      | "1" => Decimal.D1 (digits_prefix r)
      | "2" => Decimal.D2 (digits_prefix r)
      | "3" => Decimal.D3 (digits_prefix r)
      | "4" => Decimal.D4 (digits_prefix r)
      | "5" => Decimal.D5 (digits_prefix r)
      | "6" => Decimal.D6 (digits_prefix r)
      | "7" => Decimal.D7 (digits_prefix r)
      | "8" => Decimal.D8 (digits_prefix r)
      | "9" => Decimal.D9 (digits_prefix r)
      | _ => Decimal.Nil
      end
  end.

Definition digits_value (s : string) : option Z :=
  match digits_prefix s with
  | Decimal.Nil => None
  | d => Some (Z.of_uint d)
  end.

(** [parseInt(s, 10)]; [None] is NaN. Leading white space is skipped, a
    sign is read, then the longest run of digits; what follows the digits
    is ignored. *)
Definition parseInt (s : string) : option Z :=
  match trimStart s with
  | String "-" r => Z.opp <$> digits_value r
  | String "+" r => digits_value r
  | s' => digits_value s'
  end.

(** [`${n}`] for an integer [n]. *)
Definition number_to_string (n : Z) : string :=
  NilZero.string_of_int (Z.to_int n).

End Text.

(** ** JSON values, as [JSON.parse] returns them *)

Inductive json :=
| JNull
| JBool (b : bool)
| JNum (mantissa exponent : Z)
    (* mantissa * 10 ^ exponent, the mantissa no multiple of ten (zero is
       0 * 10 ^ 0): equal numbers are equal values *)
| JStr (s : string)
| JArr (items : list json)
| JObj (fields : list (string * json)).

(** What an expression evaluates to: a value, or an exception is thrown. *)
Inductive result (A : Type) :=
| Ok (a : A)
| Throw.
Arguments Ok {A} a.
Arguments Throw {A}.

Module Js.

(** Own property of an object; [None] is [undefined]. *)
Fixpoint lookup_field (k : string) (fields : list (string * json)) : option json :=
  match fields with
  | [] => None
  | (k', v) :: rest => if String.eqb k k' then Some v else lookup_field k rest
  end.

(** [v.k] for a value that [JSON.parse] returned: reading a property of
    [null] throws a TypeError, a primitive or an array has none of the
    properties the store reads. *)
Definition get (v : json) (k : string) : result (option json) :=
  match v with
  | JNull => Throw
  | JObj fields => Ok (lookup_field k fields)
  | _ => Ok None
  end.

(** [v.k] where [v] may be [undefined]. *)
Definition get_opt (v : option json) (k : string) : result (option json) :=
  match v with
  | None => Throw
  | Some v => get v k
  end.

(** ToBoolean. *)
Definition truthy (v : option json) : bool :=
  match v with
  | None | Some JNull => false
  | Some (JBool b) => b
  | Some (JNum m _) => negb (m =? 0)
  | Some (JStr s) => negb (String.eqb s "")
  | Some (JArr _) | Some (JObj _) => true
  end.

(** [v === 'literal'] *)
Definition is_string (v : option json) (literal : string) : bool :=
  match v with
  | Some (JStr s) => String.eqb s literal
  | _ => false
  end.

(** SameValueZero, the equality of [Set]. Two objects (or arrays) that
    [JSON.parse] built are never the same object. *)
Definition same_value_zero (v w : json) : bool :=
  match v, w with
  | JNull, JNull => true
  | JBool a, JBool b => Bool.eqb a b
  | JNum m e, JNum m' e' => (m =? m') && (e =? e')
  | JStr s, JStr t => String.eqb s t
  | _, _ => false
  end.

(** [set.add(v)], the set as the list of its elements in insertion order. *)
Definition set_add (set : list json) (v : json) : list json :=
  if existsb (same_value_zero v) set then set else set ++ [v].

End Js.

#[export] Instance result_ret : MRet result := fun _ a => Ok a.
#[export] Instance result_bind : MBind result := fun _ _ f r =>
  match r with
  | Ok a => f a
  | Throw => Throw
  end.

(** ** The data model *)

Inductive Status := active | completed | stopped.

#[export] Instance Status_eq_dec : EqDecision Status.
Proof. solve_decision. Defined.

Module SessionMetadata.
(** [interface SessionMetadata]. Time stamps (ISO strings in the code)
    are the milliseconds they denote; an optional field is an [option]. *)
Record t := mk {
  id : jsstring;
  project : string;
  projectPath : string;
  startTime : Z;
  endTime : option Z;
  durationMinutes : option Z;
  status : Status;
  summary : option string;
  lastUpdated : Z;
  preCompactKnowledge : option (list string);
}.
End SessionMetadata.

Module Session.
(** [interface Session]; an observation is the value [JSON.parse] gave. *)
Record t := mk {
  id : jsstring;
  project : string;
  projectPath : string;
  startTime : Z;
  endTime : option Z;
  durationMinutes : option Z;
  status : Status;
  observations : list json;
  summary : option string;
  filesModified : list json;
  commandsRun : Z;
  errorsEncountered : Z;
}.
End Session.

(** What a file holds. [Meta m] is the JSON document that
    [JSON.stringify(m, null, 2)] writes (reading it back gives [m]), [Text]
    is any other text, and reading an [Unreadable] file fails. *)
Inductive content :=
| Meta (m : SessionMetadata.t)
| Text (s : string)
| Unreadable.

Record file := File { data : content; mtimeMs : Z }.

(** The sessions directory: file name to file. Every path of the store is
    [path.join(getSessionsDir(), name)], kept here as [name]. *)
Abbreviation store := (gmap string file).

(** The parts of the JavaScript runtime the store calls and that the model
    leaves open. *)
Class Runtime := {
  (** [JSON.parse(text)]; [None] when it throws a SyntaxError *)
  JSON_parse : string -> option json;
  (** [JSON.stringify(value)] *)
  JSON_stringify : json -> string;
  (** [JSON.parse(text) as SessionMetadata], for text that is not a [Meta]
      document *)
  JSON_parse_metadata : string -> option SessionMetadata.t;
  (** [JSON.stringify(metadata, null, 2)] *)
  JSON_stringify_metadata : SessionMetadata.t -> string;
  (** [process.pid] *)
  pid : Z;
}.

(** ** The store's operations *)

Section Operations.

Context {rt : Runtime}.

Definition LOCK_TIMEOUT_MS : Z := 5000.
Definition LOCK_RETRY_MS : Z := 50.

(** *** The file system calls *)

Definition existsSync (path : string) (fs : store) : bool :=
  bool_decide (is_Some (fs !! path)).

(** [fs.readFileSync(path, 'utf-8')] *)
Definition readFileSync (path : string) (fs : store) : result string :=
  match fs !! path with
  | None => Throw
  | Some f =>
      match data f with
      | Meta m => Ok (JSON_stringify_metadata m)
      | Text s => Ok s
      | Unreadable => Throw
      end
  end.

(** [JSON.parse(fs.readFileSync(path, 'utf-8')) as SessionMetadata] *)
Definition readMetadataFile (path : string) (fs : store) : result SessionMetadata.t :=
  match fs !! path with
  | None => Throw
  | Some f =>
      match data f with
      | Meta m => Ok m
      | Text s =>
          match JSON_parse_metadata s with
          | Some m => Ok m
          | None => Throw
          end
      | Unreadable => Throw
      end
  end.

Definition writeFileSync (path : string) (text : string) (now : Z) (fs : store) : store :=
  <[path := File (Text text) now]> fs.

Definition appendFileSync (path : string) (text : string) (now : Z) (fs : store) : store :=
  match fs !! path with
  | None => <[path := File (Text text) now]> fs
  | Some f =>
      match data f with
      | Meta m => <[path := File (Text (JSON_stringify_metadata m +:+ text)) now]> fs
      | Text s => <[path := File (Text (s +:+ text)) now]> fs
      | Unreadable => <[path := File Unreadable now]> fs
      end
  end.

Definition unlinkSync (path : string) (fs : store) : store := delete path fs.

(** *** Locks

    Whether the bounded wait of [acquireLock] ends with the marker created
    depends on the other processes; the outcome [gotLock] is given. A lock
    that was got is a marker file holding the process and the time. *)

Definition lock_marker (now : Z) : file :=
  File (Text (Text.number_to_string pid +:+ String Text.newline (Text.number_to_string now))) now.

Definition acquireLock (gotLock : bool) (sessionId : jsstring) (now : Z) (fs : store) : store :=
  if gotLock then <[getLockFilePath sessionId := lock_marker now]> fs else fs.

Definition releaseLock (sessionId : jsstring) (fs : store) : store :=
  unlinkSync (getLockFilePath sessionId) fs.

Definition acquirePendingLock (gotLock : bool) (sessionId : jsstring) (now : Z) (fs : store) : store :=
  if gotLock then <[getPendingLockPath sessionId := lock_marker now]> fs else fs.

Definition releasePendingLock (sessionId : jsstring) (fs : store) : store :=
  unlinkSync (getPendingLockPath sessionId) fs.

(** *** Session metadata *)

Definition readSessionMetadata (sessionId : jsstring) (fs : store) : option SessionMetadata.t :=
  let metaPath := getSessionFilePath sessionId in
  if negb (existsSync metaPath fs) then None
  else match readMetadataFile metaPath fs with
       | Ok m => Some m
       | Throw => None
       end.

Definition set_lastUpdated (m : SessionMetadata.t) (now : Z) : SessionMetadata.t :=
  SessionMetadata.mk (SessionMetadata.id m) (SessionMetadata.project m)
    (SessionMetadata.projectPath m) (SessionMetadata.startTime m)
    (SessionMetadata.endTime m) (SessionMetadata.durationMinutes m)
    (SessionMetadata.status m) (SessionMetadata.summary m) now
    (SessionMetadata.preCompactKnowledge m).

(** The record is written under the name derived from its own [id]
    field; the temporary file of [atomicWriteSync] is gone when it
    returns. *)
Definition writeSessionMetadata (metadata : SessionMetadata.t) (now : Z) (fs : store) : store :=
  let metaPath := getSessionFilePath (SessionMetadata.id metadata) in
  <[metaPath := File (Meta (set_lastUpdated metadata now)) now]> fs.

(** *** The observation log *)

(** The check of [readObservations]:
    [obs.id && obs.timestamp && obs.type && obs.tool !== undefined] *)
Definition has_required_fields (obs : json) : result bool :=
  i ← Js.get obs "id";
  if negb (Js.truthy i) then mret false else
  ts ← Js.get obs "timestamp";
  if negb (Js.truthy ts) then mret false else
  ty ← Js.get obs "type";
  if negb (Js.truthy ty) then mret false else
  tool ← Js.get obs "tool";
  mret (bool_decide (is_Some tool)).

(** One turn of the loop over the lines: what the line adds. *)
Definition parse_line (line : string) : list json :=
  let trimmed := Text.trim line in
  if String.eqb trimmed "" then []
  else match JSON_parse trimmed with
       | None => []
       | Some obs =>
           match has_required_fields obs with
           | Ok true => [obs]
           | Ok false => []
           | Throw => []
           end
       end.

Definition readObservations (sessionId : jsstring) (fs : store) : list json :=
  let obsPath := getObservationsFilePath sessionId in
  if negb (existsSync obsPath fs) then []
  else match readFileSync obsPath fs with
       | Ok content => flat_map parse_line (Text.split_lines content)
       | Throw => []
       end.

Definition appendObservation (gotLock : bool) (sessionId : jsstring) (observation : json)
    (now : Z) (fs : store) : bool * store :=
  if negb gotLock then (false, fs)
  else
    let fs := acquireLock gotLock sessionId now fs in
    let obsPath := getObservationsFilePath sessionId in
    let line := JSON_stringify observation +:+ String Text.newline "" in
    let fs := appendFileSync obsPath line now fs in
    (true, releaseLock sessionId fs).

Definition getSessionLastActivity (sessionId : jsstring) (fs : store) : Z :=
  let lastActivity := 0 in
  let metaPath := getSessionFilePath sessionId in
  let obsPath := getObservationsFilePath sessionId in
  let lastActivity :=
    match fs !! metaPath with
    | Some stat => Z.max lastActivity (mtimeMs stat)
    | None => lastActivity
    end in
  let lastActivity :=
    match fs !! obsPath with
    | Some stat => Z.max lastActivity (mtimeMs stat)
    | None => lastActivity
    end in
  lastActivity.

(** *** Sessions *)

(** The counters while the loop of [readSession] runs. *)
Record counters := Counters {
  c_filesModified : list json;
  c_commandsRun : Z;
  c_errorsEncountered : Z;
}.

(** One turn of the loop of [readSession]. Reading [path] of a [data]
    that is [undefined] or [null] throws. *)
Definition count_observation (c : counters) (obs : json) : result counters :=
  ty ← Js.get obs "type";
  c1 ← (if Js.is_string ty "file_edit" then
          d ← Js.get obs "data";
          filePath ← Js.get_opt d "path";
          match filePath with
          | Some v =>
              if Js.truthy filePath
              then mret (Counters (Js.set_add (c_filesModified c) v)
                                  (c_commandsRun c) (c_errorsEncountered c))
              else mret c
          | None => mret c
          end
        else if Js.is_string ty "command" then
          mret (Counters (c_filesModified c) (c_commandsRun c + 1) (c_errorsEncountered c))
        else mret c);
  isError ← Js.get obs "isError";
  if Js.is_string ty "error" || Js.truthy isError
  then mret (Counters (c_filesModified c1) (c_commandsRun c1) (c_errorsEncountered c1 + 1))
  else mret c1.

Fixpoint count_observations (c : counters) (observations : list json) : result counters :=
  match observations with
  | [] => Ok c
  | obs :: rest => c' ← count_observation c obs; count_observations c' rest
  end.

(** [null] is [Ok None]; a TypeError in the loop is [Throw]. *)
Definition readSession (sessionId : jsstring) (fs : store) : result (option Session.t) :=
  match readSessionMetadata sessionId fs with
  | None => Ok None
  | Some metadata =>
      let observations := readObservations sessionId fs in
      c ← count_observations (Counters [] 0 0) observations;
      mret (Some (Session.mk
        (SessionMetadata.id metadata)
        (SessionMetadata.project metadata)
        (SessionMetadata.projectPath metadata)
        (SessionMetadata.startTime metadata)
        (SessionMetadata.endTime metadata)
        (SessionMetadata.durationMinutes metadata)
        (SessionMetadata.status metadata)
        observations
        (SessionMetadata.summary metadata)
        (c_filesModified c)
        (c_commandsRun c)
        (c_errorsEncountered c)))
  end.

Definition startSession (sessionId : jsstring) (project projectPath : string)
    (now : Z) (fs : store) : Session.t * store :=
  let metadata :=
    SessionMetadata.mk sessionId project projectPath now None None active None now None in
  let fs := writeSessionMetadata metadata now fs in
  (Session.mk sessionId project projectPath (SessionMetadata.startTime metadata)
     None None active [] None [] 0 0, fs).

Definition addObservation (gotLock : bool) (sessionId : jsstring) (observation : json)
    (now : Z) (fs : store) : bool * store :=
  match readSessionMetadata sessionId fs with
  | None => (false, fs)
  | Some metadata =>
      if bool_decide (SessionMetadata.status metadata <> active) then (false, fs)
      else appendObservation gotLock sessionId observation now fs
  end.

Inductive EndType := stop | end_.

(** [Math.round(ms / 60000)]: to the nearest minute, a half upwards. *)
Definition round_minutes (ms : Z) : Z := (ms + 30000) / 60000.

Definition endSession (sessionId : jsstring) (endType : EndType) (now : Z) (fs : store)
    : result (option Session.t) * store :=
  match readSessionMetadata sessionId fs with
  | None => (Ok None, fs)
  | Some metadata =>
      if bool_decide (SessionMetadata.status metadata <> active)
      then (readSession sessionId fs, fs)
      else
        let endTime := now in
        let status := match endType with stop => stopped | end_ => completed end in
        let durationMinutes := round_minutes (endTime - SessionMetadata.startTime metadata) in
        let metadata :=
          SessionMetadata.mk (SessionMetadata.id metadata) (SessionMetadata.project metadata)
            (SessionMetadata.projectPath metadata) (SessionMetadata.startTime metadata)
            (Some endTime) (Some durationMinutes) status
            (SessionMetadata.summary metadata) (SessionMetadata.lastUpdated metadata)
            (SessionMetadata.preCompactKnowledge metadata) in
        let fs := writeSessionMetadata metadata now fs in
        (readSession sessionId fs, fs)
  end.

Definition updateSessionSummary (sessionId : jsstring) (summary : string) (now : Z)
    (fs : store) : bool * store :=
  match readSessionMetadata sessionId fs with
  | None => (false, fs)
  | Some metadata =>
      let metadata :=
        SessionMetadata.mk (SessionMetadata.id metadata) (SessionMetadata.project metadata)
          (SessionMetadata.projectPath metadata) (SessionMetadata.startTime metadata)
          (SessionMetadata.endTime metadata) (SessionMetadata.durationMinutes metadata)
          (SessionMetadata.status metadata) (Some summary)
          (SessionMetadata.lastUpdated metadata)
          (SessionMetadata.preCompactKnowledge metadata) in
      (true, writeSessionMetadata metadata now fs)
  end.

Definition updatePreCompactKnowledge (sessionId : jsstring) (paths : list string) (now : Z)
    (fs : store) : bool * store :=
  match readSessionMetadata sessionId fs with
  | None => (false, fs)
  | Some metadata =>
      let metadata :=
        SessionMetadata.mk (SessionMetadata.id metadata) (SessionMetadata.project metadata)
          (SessionMetadata.projectPath metadata) (SessionMetadata.startTime metadata)
          (SessionMetadata.endTime metadata) (SessionMetadata.durationMinutes metadata)
          (SessionMetadata.status metadata) (SessionMetadata.summary metadata)
          (SessionMetadata.lastUpdated metadata)
          (Some (default [] (SessionMetadata.preCompactKnowledge metadata) ++ paths)) in
      (true, writeSessionMetadata metadata now fs)
  end.

(** *** The pending job counter *)

(** [conservative] makes a failed or malformed read count as one pending
    job instead of none. The count is the integer that the text denotes; the
    [parseInt] of the code gives the double nearest to it, which is that
    integer as long as it is a safe one (at most 2^53 - 1 in absolute
    value). *)
Definition getPendingJobCount (pendingPath : string) (conservative : bool) (fs : store) : Z :=
  if negb (existsSync pendingPath fs) then 0
  else match readFileSync pendingPath fs with
       | Ok content =>
           match Text.parseInt (Text.trim content) with
           | None => if conservative then 1 else 0
           | Some count => count
           end
       | Throw => if conservative then 1 else 0
       end.

Definition markBackgroundJobStarted (gotLock : bool) (sessionId : jsstring) (now : Z)
    (fs : store) : store :=
  let pendingPath := getPendingFilePath sessionId in
  if negb gotLock then fs
  else
    let fs := acquirePendingLock gotLock sessionId now fs in
    let currentCount := getPendingJobCount pendingPath false fs in
    let fs := writeFileSync pendingPath (Text.number_to_string (currentCount + 1)) now fs in
    releasePendingLock sessionId fs.

Definition markBackgroundJobCompleted (gotLock : bool) (sessionId : jsstring) (now : Z)
    (fs : store) : store :=
  let pendingPath := getPendingFilePath sessionId in
  if negb gotLock then fs
  else
    let fs := acquirePendingLock gotLock sessionId now fs in
    let currentCount := getPendingJobCount pendingPath false fs in
    let fs :=
      if currentCount <=? 1 then
        if existsSync pendingPath fs then unlinkSync pendingPath fs else fs
      else writeFileSync pendingPath (Text.number_to_string (currentCount - 1)) now fs in
    releasePendingLock sessionId fs.

(** How the wait loop of [getPreCompactKnowledge] and [clearSessionFile]
    was left. *)
Inductive wait_exit :=
| Drained     (* [break]: the count read was <= 0 *)
| TimedOut    (* the loop condition failed: [maxWaitMs] elapsed *)
| Waiting.    (* still in the loop when the observed run ends *)

(** The wait loop. Other processes change the counter file while the loop
    polls, so the loop runs against what it observes: one element of
    [polls] per evaluation of the loop condition, the clock reading of
    that evaluation and the directory as the read that follows sees it.
    The busy wait between two polls only lets time pass. *)
Fixpoint waitForPendingJobs (pendingPath : string) (startTime maxWaitMs : Z)
    (polls : list (Z * store)) : wait_exit :=
  match polls with
  | [] => Waiting
  | (now, fs) :: rest =>
      if now - startTime <? maxWaitMs then
        let count := getPendingJobCount pendingPath true fs in
        if count <=? 0 then Drained
        else waitForPendingJobs pendingPath startTime maxWaitMs rest
      else TimedOut
  end.

(** [getPreCompactKnowledge]: the wait, then the read of the metadata in
    the directory [fs] as it is by then. *)
Definition getPreCompactKnowledge (sessionId : jsstring) (maxWaitMs : Z) (startTime : Z)
    (polls : list (Z * store)) (fs : store) : wait_exit * list string :=
  let pendingPath := getPendingFilePath sessionId in
  let waited := waitForPendingJobs pendingPath startTime maxWaitMs polls in
  (waited,
   match readSessionMetadata sessionId fs with
   | Some metadata => default [] (SessionMetadata.preCompactKnowledge metadata)
   | None => []
   end).

Definition unlink_if_exists (path : string) (fs : store) : store :=
  if existsSync path fs then unlinkSync path fs else fs.

(** [clearSessionFile]: the wait, then the removal of the session's files
    from the directory [fs] as it is by then. *)
Definition clearSessionFile (gotLock : bool) (sessionId : jsstring) (maxWaitMs : Z)
    (startTime : Z) (polls : list (Z * store)) (now : Z) (fs : store) : wait_exit * store :=
  let pendingPath := getPendingFilePath sessionId in
  let waited := waitForPendingJobs pendingPath startTime maxWaitMs polls in
  let fs := acquireLock gotLock sessionId now fs in
  let metaPath := getSessionFilePath sessionId in
  let obsPath := getObservationsFilePath sessionId in
  let pendingLockPath := getPendingLockPath sessionId in
  let fs := fold_left (fun fs filePath => unlink_if_exists filePath fs)
              [metaPath; obsPath; pendingPath; pendingLockPath] fs in
  (waited,
   if gotLock then releaseLock sessionId fs
   else unlink_if_exists (getLockFilePath sessionId) fs).

(** *** The sweep of stale sessions *)

Definition is_metadata_file_name (f : string) : bool :=
  Text.endsWith f ".json" && negb (Text.endsWith f ".tmp").

(** What the sweep meets outside the directory while it runs: whether each
    [clearSessionFile] gets the lock, and what its wait loop observes. *)
Record sweep_env := {
  sweep_gotLock : jsstring -> bool;
  sweep_polls : jsstring -> store -> list (Z * store);
}.

(** One turn of the loop of [cleanupStaleSessions]; an exception in the
    turn (the file is gone or does not parse, [readSession] throws) skips
    the file. *)
Definition sweep_file (env : sweep_env) (now maxAge : Z)
    (acc : list Session.t * store) (file : string) : list Session.t * store :=
  let '(staleSessions, fs) := acc in
  match readMetadataFile file fs with
  | Throw => acc
  | Ok metadata =>
      let sid := SessionMetadata.id metadata in
      let lastActivity := getSessionLastActivity sid fs in
      if now - lastActivity >? maxAge then
        match readSession sid fs with
        | Throw => acc
        | Ok session =>
            let staleSessions :=
              match session with
              | Some session =>
                  let session :=
                    if bool_decide (Session.status session = active) then
                      Session.mk (Session.id session) (Session.project session)
                        (Session.projectPath session) (Session.startTime session)
                        (Some now) (Session.durationMinutes session) stopped
                        (Session.observations session) (Session.summary session)
                        (Session.filesModified session) (Session.commandsRun session)
                        (Session.errorsEncountered session)
                    else session in
                  staleSessions ++ [session]
              | None => staleSessions
              end in
            (staleSessions,
             (clearSessionFile (sweep_gotLock env sid) sid 5000 now
                (sweep_polls env sid fs) now fs).2)
        end
      else acc
  end.

(** [fs.readdirSync(dir)]: the names in the directory. *)
Definition readdirSync (fs : store) : list string := (map_to_list fs).*1.

Definition cleanupStaleSessions (env : sweep_env) (maxAgeHours : Z) (now : Z) (fs : store)
    : list Session.t * store :=
  let maxAge := maxAgeHours * 60 * 60 * 1000 in
  let files := List.filter is_metadata_file_name (readdirSync fs) in
  fold_left (sweep_file env now maxAge) files ([], fs).

End Operations.

(** ** A reference runtime

    The theorems below hold for every [Runtime]. This one makes the model
    run: a recursive descent parser for JSON text and a printer. Strings hold
    the characters up to U+00FF; an escape beyond that is refused. *)

Module ReferenceRuntime.

Local Open Scope char_scope.
Local Open Scope Z_scope.

Definition is_json_space (a : ascii) : bool :=
  match N_of_ascii a with
  | 9%N | 10%N | 13%N | 32%N => true
  | _ => false
  end.

Fixpoint skip_space (s : string) : string :=
  match s with
  | String a r => if is_json_space a then skip_space r else s
  | EmptyString => EmptyString
  end.

Definition digit_value (a : ascii) : option Z :=
  let n := Z.of_N (N_of_ascii a) in
  if (48 <=? n) && (n <=? 57) then Some (n - 48) else None.

Definition hex_value (a : ascii) : option Z :=
  let n := Z.of_N (N_of_ascii a) in
  if (48 <=? n) && (n <=? 57) then Some (n - 48)
  else if (97 <=? n) && (n <=? 102) then Some (n - 87)
  else if (65 <=? n) && (n <=? 70) then Some (n - 55)
  else None.

(** A run of digits: its value after [acc], how many, and the rest. *)
Fixpoint read_digits (s : string) (acc : Z) (count : Z) : Z * Z * string :=
  match s with
  | String a r =>
      match digit_value a with
      | Some d => read_digits r (10 * acc + d) (count + 1)
      | None => (acc, count, s)
      end
  | EmptyString => (acc, count, s)
  end.

(** The characters of a string literal after its opening quote. *)
Fixpoint read_string (s : string) : option (string * string) :=
  match s with
  | EmptyString => None
  | String "034" r => Some (EmptyString, r)
  | String "\" (String e r) =>
      match e with
      | "u" =>
          match r with
          | String h1 (String h2 (String h3 (String h4 r'))) =>
              match hex_value h1, hex_value h2, hex_value h3, hex_value h4 with
              | Some 0, Some 0, Some c, Some d =>
                  '(t, rest) ← read_string r';
                  Some (String (ascii_of_N (Z.to_N (16 * c + d))) t, rest)
              | _, _, _, _ => None
              end
          | _ => None
          end
      | _ =>
          c ← match e with
              | "034" => Some "034" | "\" => Some "\" | "/" => Some "/"
              | "b" => Some "008" | "f" => Some "012" | "n" => Some "010"
              | "r" => Some "013" | "t" => Some "009"
              | _ => None
              end;
          '(t, rest) ← read_string r;
          Some (String c t, rest)
      end
  | String a r =>
      if (N_of_ascii a <? 32)%N then None
      else '(t, rest) ← read_string r; Some (String a t, rest)
  end.

(** The number [m * 10 ^ e] with a mantissa that is no multiple of ten. *)
Fixpoint normal_number (fuel : nat) (m e : Z) : json :=
  match fuel with
  | O => JNum m e
  | S fuel =>
      if m =? 0 then JNum 0 0
      else if m mod 10 =? 0 then normal_number fuel (m / 10) (e + 1)
      else JNum m e
  end.

(** A number literal. *)
Definition read_number (s : string) : option (json * string) :=
  let '(sign, s) := match s with String "-" r => (-1, r) | _ => (1, s) end in
  let '(int, n, s1) := read_digits s 0 0 in
  if n =? 0 then None
  else if (1 <? n) && (match s with String "0" _ => true | _ => false end) then None
  else
    '(mant, scale, s2) ←
      match s1 with
      | String "." r =>
          let '(m, k, r') := read_digits r int 0 in
          if k =? 0 then None else Some (m, k, r')
      | _ => Some (int, 0, s1)
      end;
    '(exp, s3) ←
      match s2 with
      | String e r =>
          if Ascii.eqb e "e" || Ascii.eqb e "E" then
            let '(esign, r) :=
              match r with
              | String "-" r' => (-1, r')
              | String "+" r' => (1, r')
              | _ => (1, r)
              end in
            let '(x, k, r') := read_digits r 0 0 in
            if k =? 0 then None else Some (esign * x, r')
          else Some (0, s2)
      | EmptyString => Some (0, s2)
      end;
    Some (normal_number (Z.to_nat (Z.log2 mant) + 1) (sign * mant) (exp - scale), s3).

Fixpoint starts_with (p s : string) : option string :=
  match p, s with
  | EmptyString, _ => Some s
  | String a p', String b s' => if Ascii.eqb a b then starts_with p' s' else None
  | _, _ => None
  end.

(** A later member of the same name replaces the earlier value. *)
Fixpoint set_field (k : string) (v : json) (fields : list (string * json))
    : list (string * json) :=
  match fields with
  | [] => [(k, v)]
  | (k', v') :: rest =>
      if String.eqb k k' then (k, v) :: rest else (k', v') :: set_field k v rest
  end.

Fixpoint read_value (fuel : nat) (s : string) : option (json * string) :=
  match fuel with
  | O => None
  | S fuel =>
      let s := skip_space s in
      match s with
      | String "{" r =>
          match skip_space r with
          | String "}" r' => Some (JObj [], r')
          | r => read_members fuel r []
          end
      | String "[" r =>
          match skip_space r with
          | String "]" r' => Some (JArr [], r')
          | r => read_items fuel r []
          end
      | String "034" r => '(t, rest) ← read_string r; Some (JStr t, rest)
      | String "t" _ => rest ← starts_with "true"%string s; Some (JBool true, rest)
      | String "f" _ => rest ← starts_with "false"%string s; Some (JBool false, rest)
      | String "n" _ => rest ← starts_with "null"%string s; Some (JNull, rest)
      | _ => read_number s
      end
  end
with read_members (fuel : nat) (s : string) (acc : list (string * json))
    : option (json * string) :=
  match fuel with
  | O => None
  | S fuel =>
      match skip_space s with
      | String "034" r =>
          '(k, r) ← read_string r;
          match skip_space r with
          | String ":" r =>
              '(v, r) ← read_value fuel r;
              let acc := set_field k v acc in
              match skip_space r with
              | String "," r => read_members fuel r acc
              | String "}" r => Some (JObj acc, r)
              | _ => None
              end
          | _ => None
          end
      | _ => None
      end
  end
with read_items (fuel : nat) (s : string) (acc : list json) : option (json * string) :=
  match fuel with
  | O => None
  | S fuel =>
      '(v, r) ← read_value fuel s;
      match skip_space r with
      | String "," r => read_items fuel r (acc ++ [v])
      | String "]" r => Some (JArr (acc ++ [v]), r)
      | _ => None
      end
  end.

Definition parse (s : string) : option json :=
  '(v, rest) ← read_value (S (String.length s)) s;
  match skip_space rest with
  | EmptyString => Some v
  | _ => None
  end.

Definition hex_char (d : Z) : ascii := Sha256.hex_digit d.

Fixpoint quote_chars (s : string) : string :=
  match s with
  | EmptyString => EmptyString
  | String a r =>
      let n := Z.of_N (N_of_ascii a) in
      (if Ascii.eqb a "034" then String "\" (String "034" EmptyString)
       else if Ascii.eqb a "\" then String "\" (String "\" EmptyString)
       else if (n <? 32) || (126 <? n) then
         String "\" (String "u" (String "0" (String "0"
           (String (hex_char (n / 16)) (String (hex_char (n mod 16)) EmptyString)))))
       else String a EmptyString) +:+ quote_chars r
  end.

Definition quote (s : string) : string :=
  String "034" (quote_chars s +:+ String "034" EmptyString).

Fixpoint join (sep : string) (parts : list string) : string :=
  match parts with
  | [] => EmptyString
  | [p] => p
  | p :: rest => p +:+ sep +:+ join sep rest
  end.

Fixpoint stringify (v : json) : string :=
  match v with
  | JNull => "null"
  | JBool true => "true"
  | JBool false => "false"
  | JNum m e =>
      if (e =? 0)%Z then Text.number_to_string m
      else Text.number_to_string m +:+ "e" +:+ Text.number_to_string e
  | JStr s => quote s
  | JArr items => "[" +:+ join "," (map stringify items) +:+ "]"
  | JObj fields =>
      "{" +:+ join "," (map (fun kv => quote kv.1 +:+ ":" +:+ stringify kv.2) fields) +:+ "}"
  end%string.

(** A code unit of an identifier, escaped when it is not printable ASCII. *)
Definition quote_unit (c : Z) : string :=
  if (32 <=? c) && (c <=? 126) && negb (c =? 34) && negb (c =? 92)
  then String (ascii_of_unit c) EmptyString
  else String "\" (String "u" (string_of_list_ascii (drop 4 (Sha256.hex_of_word c)))).

Definition status_name (s : Status) : string :=
  match s with
  | active => "active"
  | completed => "completed"
  | stopped => "stopped"
  end.

(** The metadata document; its time stamps are printed as the milliseconds
    the model keeps. *)
Definition stringify_metadata (m : SessionMetadata.t) : string :=
  let member (k v : string) := quote k +:+ ": " +:+ v in
  let optional {A} (k : string) (f : A -> string) (o : option A) :=
    match o with Some a => [member k (f a)] | None => [] end in
  ("{" +:+ join ","
    ([member "id" (String "034" (String.concat "" (map quote_unit (SessionMetadata.id m))
                                +:+ String "034" EmptyString));
      member "project" (quote (SessionMetadata.project m));
      member "projectPath" (quote (SessionMetadata.projectPath m));
      member "startTime" (Text.number_to_string (SessionMetadata.startTime m))]
     ++ optional "endTime" Text.number_to_string (SessionMetadata.endTime m)
     ++ optional "durationMinutes" Text.number_to_string (SessionMetadata.durationMinutes m)
     ++ [member "status" (quote (status_name (SessionMetadata.status m)))]
     ++ optional "summary" quote (SessionMetadata.summary m)
     ++ [member "lastUpdated" (Text.number_to_string (SessionMetadata.lastUpdated m))]
     ++ optional "preCompactKnowledge"
          (fun ps => "[" +:+ join "," (map quote ps) +:+ "]")
          (SessionMetadata.preCompactKnowledge m))
    +:+ "}")%string.

(** JSON text written with ['] for the double quote. *)
Fixpoint json_text (s : string) : string :=
  match s with
  | EmptyString => EmptyString
  | String a r => String (if Ascii.eqb a "'" then "034" else a) (json_text r)
  end.

#[export] Instance runtime : Runtime := {
  JSON_parse := parse;
  JSON_stringify := stringify;
  JSON_parse_metadata := fun _ => None;
  JSON_stringify_metadata := stringify_metadata;
  pid := 4242;
}.

End ReferenceRuntime.

(** ** Vocabulary of the specification *)

Section Vocabulary.

Context {rt : Runtime}.

(** The operations that change the metadata of an existing session. *)
Inductive operation :=
| EndSession (endType : EndType)
| UpdateSessionSummary (summary : string)
| UpdatePreCompactKnowledge (paths : list string).

(** The directory after [op] on the session [sessionId]. *)
Definition perform (op : operation) (sessionId : jsstring) (now : Z) (fs : store) : store :=
  match op with
  | EndSession endType => (endSession sessionId endType now fs).2
  | UpdateSessionSummary summary => (updateSessionSummary sessionId summary now fs).2
  | UpdatePreCompactKnowledge paths => (updatePreCompactKnowledge sessionId paths now fs).2
  end.

(** A sequence of operations, each on a session of its own and at a time
    of its own. *)
Definition perform_all (ops : list (operation * jsstring * Z)) (fs : store) : store :=
  fold_left (fun fs '(op, sessionId, now) => perform op sessionId now fs) ops fs.

(** The stored status of a session. *)
Definition stored_status (sessionId : jsstring) (fs : store) : option Status :=
  SessionMetadata.status <$> readSessionMetadata sessionId fs.

(** Every metadata file sits under the name derived from the [id] it
    holds: what [writeSessionMetadata], the only writer of metadata,
    establishes. *)
Definition store_consistent (fs : store) : Prop :=
  forall sessionId metadata,
    readSessionMetadata sessionId fs = Some metadata ->
    getSessionFilePath (SessionMetadata.id metadata) = getSessionFilePath sessionId.

(** The status changes the specification allows. *)
Definition allowed_transition (before after : Status) : Prop :=
  after = before \/ (before = active /\ (after = completed \/ after = stopped)).

End Vocabulary.

(** What the log says of one observation. *)
Section ObservationVocabulary.

(** [obs.type === t] *)
Definition observation_type_is (t : string) (obs : json) : bool :=
  match Js.get obs "type" with
  | Ok ty => Js.is_string ty t
  | Throw => false
  end.

(** The path value of a [file_edit] observation, when it is one that
    counts: present and truthy (not empty). *)
Definition edited_path (obs : json) : option json :=
  if observation_type_is "file_edit" obs then
    match Js.get obs "data" with
    | Ok (Some d) =>
        match Js.get d "path" with
        | Ok (Some v) => if Js.truthy (Some v) then Some v else None
        | _ => None
        end
    | _ => None
    end
  else None.

(** [obs.type === 'error' || obs.isError] *)
Definition counts_as_error (obs : json) : bool :=
  observation_type_is "error" obs ||
  match Js.get obs "isError" with
  | Ok e => Js.truthy e
  | Throw => false
  end.

(** No two elements are the same value for [Set]. *)
Definition distinct_values (l : list json) : Prop :=
  forall i j v w,
    l !! i = Some v -> l !! j = Some w -> Js.same_value_zero v w = true -> i = j.

End ObservationVocabulary.

(** What the specification says of the lines of a log. *)
Section LogVocabulary.

Context {rt : Runtime}.

Fixpoint no_newline (s : string) : bool :=
  match s with
  | EmptyString => true
  | String a r => negb (Ascii.eqb a Text.newline) && no_newline r
  end.

(** The text of these lines, a line feed between two of them:
    [lines.join('\n')]. A log that ends in a line feed has an empty last
    line. *)
Fixpoint join_lines (lines : list string) : string :=
  match lines with
  | [] => EmptyString
  | l :: rest =>
      match rest with
      | [] => l
      | _ => l +:+ String Text.newline (join_lines rest)
      end
  end.

(** A line with nothing on it but white space. *)
Definition blank (line : string) : Prop := Text.trim line = EmptyString.

(** The names of the required fields. *)
Definition required_fields : list string := ["id"; "timestamp"; "type"; "tool"]%string.

(** A value with all that an observation needs: an object whose [id],
    [timestamp] and [type] are set (truthy) and that has a [tool]. *)
Definition is_observation_record (obs : json) : Prop :=
  exists fields,
    obs = JObj fields
    /\ Js.truthy (Js.lookup_field "id" fields) = true
    /\ Js.truthy (Js.lookup_field "timestamp" fields) = true
    /\ Js.truthy (Js.lookup_field "type" fields) = true
    /\ is_Some (Js.lookup_field "tool" fields).

(** The line holds the valid record [obs]. *)
Definition valid_record (line : string) (obs : json) : Prop :=
  Text.trim line <> EmptyString
  /\ JSON_parse (Text.trim line) = Some obs
  /\ is_observation_record obs.

(** The value has no field of some required name. *)
Definition lacks_required_field (obs : json) : Prop :=
  exists k, k ∈ required_fields /\ forall v, Js.get obs k <> Ok (Some v).

(** The line does not parse as JSON, or what it parses to lacks a
    required field. *)
Definition malformed (line : string) : Prop :=
  JSON_parse (Text.trim line) = None
  \/ exists obs, JSON_parse (Text.trim line) = Some obs /\ lacks_required_field obs.

End LogVocabulary.

(** What the specification says of the pending counter. *)
Section CounterVocabulary.

Context {rt : Runtime}.

(** [increment] called at each of the times of [times], the lock got. *)
Definition started_all (sessionId : jsstring) (times : list Z) (fs : store) : store :=
  fold_left (fun fs now => markBackgroundJobStarted true sessionId now fs) times fs.

(** [decrementOrClear] called at each of the times of [times], the lock
    got. *)
Definition completed_all (sessionId : jsstring) (times : list Z) (fs : store) : store :=
  fold_left (fun fs now => markBackgroundJobCompleted true sessionId now fs) times fs.

(** The counter file holds [n]: it is absent for zero and holds the
    decimal text of [n] otherwise. *)
Definition counter_holds (sessionId : jsstring) (n : Z) (fs : store) : Prop :=
  if decide (n = 0) then fs !! getPendingFilePath sessionId = None
  else exists mtime,
      fs !! getPendingFilePath sessionId
      = Some (File (Text (Text.number_to_string n)) mtime).

(** The counter file is there but reading it fails or gives no number. *)
Definition counter_unreadable (pendingPath : string) (fs : store) : Prop :=
  is_Some (fs !! pendingPath)
  /\ (readFileSync pendingPath fs = Throw
      \/ exists content,
          readFileSync pendingPath fs = Ok content
          /\ Text.parseInt (Text.trim content) = None).

(** The counter file is absent or holds a number that is zero or less. *)
Definition counter_drained (pendingPath : string) (fs : store) : Prop :=
  fs !! pendingPath = None
  \/ exists content count,
      readFileSync pendingPath fs = Ok content
      /\ Text.parseInt (Text.trim content) = Some count
      /\ count <= 0.

End CounterVocabulary.

(** What the specification says of the sweep. *)
Section SweepVocabulary.

Context {rt : Runtime}.

(** The files of a session. *)
Definition session_files (sessionId : jsstring) : list string :=
  [getSessionFilePath sessionId; getObservationsFilePath sessionId;
   getPendingFilePath sessionId; getPendingLockPath sessionId;
   getLockFilePath sessionId].

(** The last activity of the session is older than [maxAge]. *)
Definition stale (now maxAge : Z) (sessionId : jsstring) (fs : store) : Prop :=
  now - getSessionLastActivity sessionId fs > maxAge.

(** A stale session as the sweep reports it: stopped at the time of the
    sweep when it was still active. *)
Definition finalized (now : Z) (session : Session.t) : Session.t :=
  if bool_decide (Session.status session = active) then
    Session.mk (Session.id session) (Session.project session)
      (Session.projectPath session) (Session.startTime session)
      (Some now) (Session.durationMinutes session) stopped
      (Session.observations session) (Session.summary session)
      (Session.filesModified session) (Session.commandsRun session)
      (Session.errorsEncountered session)
  else session.

End SweepVocabulary.

(** What the specification says of a derived name. *)
Section NameVocabulary.

(** A path separator: [/] or the backslash. *)
Definition is_separator (a : ascii) : bool :=
  match N_of_ascii a with
  | 47%N | 92%N => true
  | _ => false
  end.

Fixpoint has_separator (s : string) : bool :=
  match s with
  | EmptyString => false
  | String a r => is_separator a || has_separator r
  end.

(** Two dots in a row: what a parent-directory segment needs. *)
Fixpoint has_parent_segment (s : string) : bool :=
  match s with
  | EmptyString => false
  | String a r =>
      (Ascii.eqb a "."%char
       && match r with String b _ => Ascii.eqb b "."%char | EmptyString => false end)
      || has_parent_segment r
  end.

(** The identifiers differ, and only by code units that are not letters or
    digits: with those left out they are the same. *)
Definition differ_only_by_unsafe (a b : jsstring) : Prop :=
  a <> b /\ filter (fun c => is_alnum c = true) a = filter (fun c => is_alnum c = true) b.

End NameVocabulary.

(** ** A sample directory

    One session, run on the reference runtime: started, three observations
    appended, then ended. The theorems are instantiated on it below. *)

Section Sample.

#[local] Existing Instance ReferenceRuntime.runtime.

Definition sample_id : jsstring := of_string "sample-session".

Definition sample_command : json :=
  JObj [("id", JStr "obs-1"); ("timestamp", JStr "2026-01-01T00:00:01.000Z");
        ("type", JStr "command"); ("tool", JStr "Bash"); ("isError", JBool false);
        ("data", JObj [("command", JStr "echo 1"); ("exitCode", JNum 0 0)])]%string.

Definition sample_edit : json :=
  JObj [("id", JStr "obs-2"); ("timestamp", JStr "2026-01-01T00:00:02.000Z");
        ("type", JStr "file_edit"); ("tool", JStr "Edit"); ("isError", JBool false);
        ("data", JObj [("path", JStr "/work/a.ts"); ("changeType", JStr "modify")])]%string.

Definition sample_error : json :=
  JObj [("id", JStr "obs-3"); ("timestamp", JStr "2026-01-01T00:00:03.000Z");
        ("type", JStr "error"); ("tool", JStr "Bash"); ("isError", JBool true);
        ("data", JObj [("type", JStr "TypeError"); ("message", JStr "boom")])]%string.

(** The directory after [startSession]. *)
Definition sample_started : store :=
  (startSession sample_id "only-context" "/work/only-context" 1000 ∅).2.

(** The directory after the three observations. *)
Definition sample_active : store :=
  let fs := (addObservation true sample_id sample_command 2000 sample_started).2 in
  let fs := (addObservation true sample_id sample_edit 3000 fs).2 in
  (addObservation true sample_id sample_error 4000 fs).2.

(** The directory after [endSession]. *)
Definition sample_ended : store := (endSession sample_id end_ 125000 sample_active).2.

(** The record of the ended session. *)
Definition sample_ended_metadata : SessionMetadata.t :=
  SessionMetadata.mk sample_id "only-context" "/work/only-context" 1000
    (Some 125000) (Some 2) completed None 125000 None.

(** The session as [readSession] returns it once the observations are in. *)
Definition sample_session : Session.t :=
  Session.mk sample_id "only-context" "/work/only-context" 1000 None None active
    [sample_command; sample_edit; sample_error] None [JStr "/work/a.ts"] 1 1.

(** A log of a record, a line that is not JSON, and a record. *)
Definition sample_bad_line : string := "this is not valid JSON".

Definition sample_torn_log : store :=
  <[getObservationsFilePath sample_id :=
      File (Text (join_lines [JSON_stringify sample_command; sample_bad_line;
                              JSON_stringify sample_edit; EmptyString])) 5000]> sample_started.

End Sample.

(** More of the sample: a session whose metadata is old and whose log is
    recent, and a sweep that meets no other process. *)
Section SampleSweep.

#[local] Existing Instance ReferenceRuntime.runtime.

Definition sample_recent_log : store :=
  (addObservation true sample_id sample_command 10000000 sample_started).2.

Definition quiet_env : sweep_env :=
  {| sweep_gotLock := fun _ => true; sweep_polls := fun _ _ => [] |}.

(** The session with a summary, then ended a second time. *)
Definition sample_operations : list (operation * jsstring * Z) :=
  [(UpdateSessionSummary "all done", sample_id, 130000);
   (EndSession stop, sample_id, 140000);
   (UpdatePreCompactKnowledge ["knowledge/a.md"%string], sample_id, 150000)].

(** The started session, ended. *)
Definition sample_closed : store := perform (EndSession end_) sample_id 125000 sample_started.

End SampleSweep.

(** The directories the store can be in. *)
Section Reachability.

Context {rt : Runtime}.

(** One call of an operation of the store, whatever its arguments and
    whatever it meets (the lock got or not, what the wait loop observes). *)
Inductive store_step : store -> store -> Prop :=
| step_startSession sessionId project projectPath now fs :
    store_step fs (startSession sessionId project projectPath now fs).2
| step_addObservation gotLock sessionId observation now fs :
    store_step fs (addObservation gotLock sessionId observation now fs).2
| step_perform op sessionId now fs :
    store_step fs (perform op sessionId now fs)
| step_markBackgroundJobStarted gotLock sessionId now fs :
    store_step fs (markBackgroundJobStarted gotLock sessionId now fs)
| step_markBackgroundJobCompleted gotLock sessionId now fs :
    store_step fs (markBackgroundJobCompleted gotLock sessionId now fs)
| step_clearSessionFile gotLock sessionId maxWaitMs startTime polls now fs :
    store_step fs (clearSessionFile gotLock sessionId maxWaitMs startTime polls now fs).2
| step_cleanupStaleSessions env maxAgeHours now fs :
    store_step fs (cleanupStaleSessions env maxAgeHours now fs).2.

(** What the store makes of an empty directory. *)
Definition reachable (fs : store) : Prop := rtc store_step ∅ fs.

End Reachability.

(** ** Vocabulary of the proofs *)

Section ProofVocabulary.

Context {rt : Runtime}.

(** The characters a derived name is made of: [a-z0-9_]. *)
Definition is_name_char (a : ascii) : bool :=
  let n := Z.of_N (N_of_ascii a) in
  ((48 <=? n) && (n <=? 57)) || ((97 <=? n) && (n <=? 122)) || (n =? 95).

Definition dot : ascii := "."%char.

(** A file name of the store: a derived name, a dot, an extension. *)
Definition derived (sessionId : jsstring) (ext : string) : string :=
  safeSessionFilename sessionId +:+ String dot ext.

(** A decimal digit. *)
Definition is_digit (a : ascii) : bool :=
  let n := N_of_ascii a in (48 <=? n)%N && (n <=? 57)%N.

(** What holds of the directory [cur] and of the sessions reported so far
    while the sweep over the directory [fs] runs: a file is as it was, or
    it is gone along with every file of a session that was stale in [fs];
    and every session reported was read from [fs] and was stale there. *)
Definition sweep_invariant (now maxAge : Z) (fs : store)
    (acc : list Session.t * store) : Prop :=
  (forall p, acc.2 !! p = fs !! p
             \/ exists sid, p ∈ session_files sid /\ stale now maxAge sid fs
                            /\ forall q, q ∈ session_files sid -> acc.2 !! q = None)
  /\ (forall s, s ∈ acc.1 ->
        exists sid s0, readSession sid fs = Ok (Some s0)
                       /\ s = finalized now s0 /\ stale now maxAge sid fs).

End ProofVocabulary.

(** ** More of the store: the list of active sessions and the lock loop *)

Section ActiveSessions.

Context {rt : Runtime}.

(** One turn of the loop of [listActiveSessions]; an exception in the turn
    skips the file. The session is read again by the [id] the file holds. *)
Definition list_file (fs : store) (sessions : list Session.t) (file : string)
    : list Session.t :=
  match readMetadataFile file fs with
  | Throw => sessions
  | Ok metadata =>
      if bool_decide (SessionMetadata.status metadata = active) then
        match readSession (SessionMetadata.id metadata) fs with
        | Ok (Some session) => sessions ++ [session]
        | Ok None => sessions
        | Throw => sessions
        end
      else sessions
  end.

Definition listActiveSessions (fs : store) : list Session.t :=
  let files := List.filter is_metadata_file_name (readdirSync fs) in
  fold_left (list_file fs) files [].

(** [readCurrentSession]: the first active session, or [null]. *)
Definition readCurrentSession (fs : store) : option Session.t :=
  match listActiveSessions fs with
  | session :: _ => Some session
  | [] => None
  end.

End ActiveSessions.

Section LockLoop.

(** What one turn of the loop of [acquireLock] (and of [acquirePendingLock],
    the same loop without the random part of the wait) finds of the marker
    file, which other processes create and remove meanwhile. *)
Inductive marker_view :=
| Free                  (* no marker: the exclusive creation succeeds *)
| Held (mtime : Z)      (* EEXIST, and [statSync] gives this modification time *)
| Vanished.             (* EEXIST, but the marker is gone when [statSync] runs *)

(** One turn: the clock at the loop condition, the marker as found, the
    clock at the staleness check, and what is at the path when
    [unlinkSync] runs, if it runs: the modification time of the marker that
    is removed, or [None] when the path is gone by then (the call throws and
    the loop goes on). Another process can replace the marker between the
    [statSync] and the [unlinkSync]. *)
Record attempt := Attempt {
  clock_at_condition : Z;
  marker : marker_view;
  clock_at_check : Z;
  at_unlink : option Z;
}.

(** How the loop ends. *)
Inductive lock_exit :=
| Acquired        (* [return true] *)
| GaveUp          (* [return false]: the loop condition failed *)
| Retrying.       (* still in the loop when the observed run ends *)

(** The loop of [acquireLock], run against what its turns find: how it
    ends, and the modification times of the markers it removed. The marker
    is judged by the [statSync] and removed by path: what is removed is the
    marker that is there at the [unlinkSync]. The busy wait after a fresh
    marker only lets time pass; an error of [openSync] other than EEXIST
    leaves the loop by an exception and is not among the views. *)
Fixpoint lock_loop (startTime : Z) (attempts : list attempt) : lock_exit * list Z :=
  match attempts with
  | [] => (Retrying, [])
  | a :: rest =>
      if clock_at_condition a - startTime <? LOCK_TIMEOUT_MS then
        match marker a with
        | Free => (Acquired, [])
        | Held mtime =>
            if clock_at_check a - mtime >? LOCK_TIMEOUT_MS then
              let '(exit, removed) := lock_loop startTime rest in
              (exit, match at_unlink a with
                     | Some found => found :: removed
                     | None => removed
                     end)
            else lock_loop startTime rest
        | Vanished => lock_loop startTime rest
        end
      else (GaveUp, [])
  end.

End LockLoop.

(** What the users of the store rely on. *)
Section UseVocabulary.

Context {rt : Runtime}.

(** The log is absent, or it is text whose every line is ended by a line
    feed, as appends that ran to their end leave it. *)
Definition log_intact (sessionId : jsstring) (fs : store) : Prop :=
  fs !! getObservationsFilePath sessionId = None
  \/ exists lines mtime,
      fs !! getObservationsFilePath sessionId
        = Some (File (Text (join_lines (lines ++ [EmptyString]))) mtime)
      /\ Forall (fun l => no_newline l = true) lines.

(** The observation is one that the runtime prints on one line and reads
    back from it, and that has the fields [readObservations] asks for. *)
Definition printable (observation : json) : Prop :=
  no_newline (JSON_stringify observation) = true
  /\ valid_record (JSON_stringify observation) observation.

(** [addObservation] for each observation of the list, at its time, the
    lock got each time: whether all calls returned [true], and the
    directory. *)
Definition addObservations (sessionId : jsstring) (items : list (json * Z)) (fs : store)
    : bool * store :=
  fold_left (fun acc '(observation, now) =>
               let r := addObservation true sessionId observation now acc.2 in
               (acc.1 && r.1, r.2))
            items (true, fs).

(** The session has a readable record with status [active]. *)
Definition is_active (sessionId : jsstring) (fs : store) : Prop :=
  stored_status sessionId fs = Some active.

(** Every readable metadata file of the directory sits under the name
    derived from the [id] it holds. *)
Definition store_named (fs : store) : Prop :=
  forall file metadata,
    is_metadata_file_name file = true ->
    readMetadataFile file fs = Ok metadata ->
    file = getSessionFilePath (SessionMetadata.id metadata).

(** The observation is a [file_edit] whose [data] is missing or [null]:
    reading its path throws. *)
Definition breaks_readSession (obs : json) : bool :=
  observation_type_is "file_edit" obs &&
  match Js.get obs "data" with
  | Ok (Some JNull) | Ok None => true
  | _ => false
  end.

(** The content of a file after [text] was appended to it. *)
Definition appended (old : option file) (text : string) : content :=
  match old with
  | None => Text text
  | Some f =>
      match data f with
      | Meta m => Text (JSON_stringify_metadata m +:+ text)
      | Text s => Text (s +:+ text)
      | Unreadable => Unreadable
      end
  end.

(** One call of the store on the session [sessionId]. *)
Inductive session_step (sessionId : jsstring) : store -> store -> Prop :=
| on_startSession project projectPath now fs :
    session_step sessionId fs (startSession sessionId project projectPath now fs).2
| on_addObservation gotLock observation now fs :
    session_step sessionId fs (addObservation gotLock sessionId observation now fs).2
| on_perform op now fs :
    session_step sessionId fs (perform op sessionId now fs)
| on_markBackgroundJobStarted gotLock now fs :
    session_step sessionId fs (markBackgroundJobStarted gotLock sessionId now fs)
| on_markBackgroundJobCompleted gotLock now fs :
    session_step sessionId fs (markBackgroundJobCompleted gotLock sessionId now fs)
| on_clearSessionFile gotLock maxWaitMs startTime polls now fs :
    session_step sessionId fs
      (clearSessionFile gotLock sessionId maxWaitMs startTime polls now fs).2.

(** The session as [readSession] gives it after its summary was set. *)
Definition with_summary (session : Session.t) (summary : string) : Session.t :=
  Session.mk (Session.id session) (Session.project session) (Session.projectPath session)
    (Session.startTime session) (Session.endTime session) (Session.durationMinutes session)
    (Session.status session) (Session.observations session) (Some summary)
    (Session.filesModified session) (Session.commandsRun session)
    (Session.errorsEncountered session).

(** The paths an operation adds to the knowledge recorded for a session
    of the derived name [name]. *)
Definition knowledge_added (op : operation) (sessionId : jsstring) (name : string)
    : list string :=
  match op with
  | UpdatePreCompactKnowledge paths =>
      if decide (safeSessionFilename sessionId = name) then paths else []
  | _ => []
  end.

(** The sweep over the directory [fs] removed the session [sessionId] in
    a turn for one of the files [processed]: the file held readable
    metadata whose [id] has the derived name of the session, the session was
    stale and reading it did not throw. *)
Definition swept_by (now maxAge : Z) (fs : store) (processed : list string)
    (sessionId : jsstring) : Prop :=
  stale now maxAge sessionId fs
  /\ (exists session, readSession sessionId fs = Ok session)
  /\ exists file metadata,
      file ∈ processed
      /\ readMetadataFile file fs = Ok metadata
      /\ safeSessionFilename (SessionMetadata.id metadata) = safeSessionFilename sessionId.

(** What holds of the directory [cur] once the sweep over [fs] has taken
    the turns for the files [processed]: a file is as it was, or it is gone
    along with every file of a session removed in one of these turns. *)
Definition sweep_removals (now maxAge : Z) (fs : store) (processed : list string)
    (cur : store) : Prop :=
  forall p, cur !! p = fs !! p
            \/ exists sid, p ∈ session_files sid
                           /\ swept_by now maxAge fs processed sid
                           /\ forall q, q ∈ session_files sid -> cur !! q = None.

(** [Number.MAX_SAFE_INTEGER], 2^53 - 1: up to it the doubles of the code
    hold every integer, and adding or subtracting one is exact. *)
Definition MAX_SAFE_INTEGER : Z := 9007199254740991.

(** [Number.isSafeInteger(n)] for an integer [n]. *)
Definition is_safe_integer (n : Z) : Prop := - MAX_SAFE_INTEGER <= n <= MAX_SAFE_INTEGER.

(** No lock marker is in the directory. *)
Definition no_marker_left (fs : store) : Prop :=
  forall sessionId,
    fs !! getLockFilePath sessionId = None /\ fs !! getPendingLockPath sessionId = None.

(** The session as [readSession] gives it once [observation] is at the end
    of its log, when the observation moves no counter. *)
Definition with_observation (session : Session.t) (observation : json) : Session.t :=
  Session.mk (Session.id session) (Session.project session) (Session.projectPath session)
    (Session.startTime session) (Session.endTime session) (Session.durationMinutes session)
    (Session.status session) (Session.observations session ++ [observation])
    (Session.summary session)
    (Session.filesModified session) (Session.commandsRun session)
    (Session.errorsEncountered session).

(** A JavaScript string that is well-formed UTF-16: code units of 16
    bits, every high surrogate followed by a low one and no low surrogate
    without its high one before it. *)
Fixpoint well_formed (s : jsstring) : bool :=
  match s with
  | [] => true
  | c :: rest =>
      (0 <=? c) && (c <=? 0xFFFF) &&
      if is_high_surrogate c then
        match rest with
        | d :: rest' => is_low_surrogate d && well_formed rest'
        | [] => false
        end
      else negb (is_low_surrogate c) && well_formed rest
  end.

(** The record is closed exactly when it is not active: an end time and a
    duration are there together, and only on a session that has ended. *)
Definition record_closed (metadata : SessionMetadata.t) : Prop :=
  (SessionMetadata.status metadata = active <-> SessionMetadata.endTime metadata = None)
  /\ (SessionMetadata.endTime metadata = None
      <-> SessionMetadata.durationMinutes metadata = None).

Definition records_closed (fs : store) : Prop :=
  forall sessionId metadata,
    readSessionMetadata sessionId fs = Some metadata -> record_closed metadata.

(** Every counter file holds the decimal text of a positive number. *)
Definition counters_sound (fs : store) : Prop :=
  forall sessionId, exists n, 0 <= n /\ counter_holds sessionId n fs.

End UseVocabulary.

(** ** The hook for a submitted prompt

    [hooks/scripts/user-prompt-submit.ts], as far as the store goes. The
    configuration and the input come from outside; so do the identifier
    that [generateObservationId] makes and the time stamp of the record. A
    prompt is held as a [string], as the strings of a {!json} value are. *)

Section UserPromptSubmit.

Context {rt : Runtime}.

(** [interface UserPromptSubmitInput]; [None] is a field that is not
    there. *)
Record UserPromptSubmitInput := {
  ups_session_id : option jsstring;
  ups_prompt : option string;
}.

(** An integer as a {!json} number. *)
Definition json_integer (n : Z) : json :=
  ReferenceRuntime.normal_number (Z.to_nat (Z.log2 (Z.abs n)) + 1) n 0.

(** The observation the hook makes of a prompt. *)
Definition prompt_observation (id timestamp prompt : string) : json :=
  JObj [("id", JStr id);
        ("timestamp", JStr timestamp);
        ("tool", JStr "UserPrompt");
        ("type", JStr "other");
        ("isError", JBool false);
        ("data", JObj [("prompt", JStr (String.substring 0 5000 prompt));
                       ("promptLength", json_integer (Z.of_nat (String.length prompt)))])
       ]%string.

(** [main]: the directory when the hook has run. [disabled] is
    [config.enabled === false]; an exception ([readSession] throws) is
    caught and ends the hook. *)
Definition userPromptSubmit (disabled : bool) (input : UserPromptSubmitInput)
    (gotLock : bool) (id timestamp : string) (now : Z) (fs : store) : store :=
  if disabled then fs
  else
    match ups_session_id input, ups_prompt input with
    | Some sessionId, Some prompt =>
        if bool_decide (sessionId = []) || String.eqb prompt "" then fs
        else
          match readSession sessionId fs with
          | Throw => fs
          | Ok None => fs
          | Ok (Some session) =>
              if bool_decide (Session.status session <> active) then fs
              else if Z.of_nat (String.length (Text.trim prompt)) <? 20 then fs
              else (addObservation gotLock sessionId
                      (prompt_observation id timestamp prompt) now fs).2
          end
    | _, _ => fs
    end.

End UserPromptSubmit.

(** ** The hook before a compaction

    [hooks/scripts/pre-compact.ts], as far as the store goes: the checks,
    the count of the job and whether the job is spawned. The job itself
    ([hooks/scripts/background-summarize.ts]) calls
    [markBackgroundJobCompleted] once on each of its ways out, once it has
    read its input. *)

Section PreCompact.

Context {rt : Runtime}.

(** [interface PreCompactInput]; [None] is a field that is not there. *)
Record PreCompactInput := {
  pc_session_id : option jsstring;
  pc_transcript_path : option string;
}.

(** [main]: whether the background job was spawned, and the directory.
    [disabled] is [config.enabled === false], [summarization] is
    [config.summarization.enabled]; an exception ([readSession] throws) is
    caught and ends the hook. *)
Definition preCompact (disabled summarization : bool) (input : PreCompactInput)
    (gotLock : bool) (now : Z) (fs : store) : bool * store :=
  if disabled then (false, fs)
  else if negb summarization then (false, fs)
  else
    match pc_session_id input with
    | None => (false, fs)
    | Some sessionId =>
        if bool_decide (sessionId = []) then (false, fs)
        else
          match readSession sessionId fs with
          | Throw => (false, fs)
          | Ok None => (false, fs)
          | Ok (Some session) =>
              match pc_transcript_path input with
              | None => (false, fs)
              | Some transcript_path =>
                  if String.eqb transcript_path "" then (false, fs)
                  else (true, markBackgroundJobStarted gotLock sessionId now fs)
              end
          end
    end.

End PreCompact.

(** More of the sample: a second session beside the first, and a log
    whose last line was cut short. *)
Section SampleUse.

#[local] Existing Instance ReferenceRuntime.runtime.

Definition sample_other_id : jsstring := of_string "other-session".

Definition sample_two : store :=
  (startSession sample_other_id "other" "/work/other" 1500 sample_active).2.

Definition sample_fragment : string := ReferenceRuntime.json_text "{'id':'obs-4','timest".

Definition sample_cut_log : store :=
  <[getObservationsFilePath sample_id :=
      File (Text (join_lines [JSON_stringify sample_command; sample_fragment])) 5000]>
    sample_started.

Definition sample_active_metadata : SessionMetadata.t :=
  SessionMetadata.mk sample_id "only-context" "/work/only-context" 1000
    None None active None 1000 None.

Definition sample_prompt : string := "please add a test for the session store".

Definition sample_prompt_input : UserPromptSubmitInput :=
  {| ups_session_id := Some sample_id; ups_prompt := Some sample_prompt |}.

(** A [file_edit] record without [data], and the log that holds it. *)
Definition sample_broken_edit : json :=
  JObj [("id", JStr "obs-6"); ("timestamp", JStr "2026-01-01T00:00:06.000Z");
        ("type", JStr "file_edit"); ("tool", JStr "Edit"); ("isError", JBool false)]%string.

Definition sample_broken : store :=
  (addObservation true sample_id sample_broken_edit 2000 sample_started).2.

(** A marker that is stale, then a fresh one, then a free turn. *)
Definition sample_attempts : list attempt :=
  [Attempt 0 (Held (-6000)) 10 (Some (-6000)); Attempt 70 (Held 20) 75 None;
   Attempt 140 Free 140 None].

(** A stale marker that another process replaces by its own, at time 5,
    before the loop removes it at time 10. *)
Definition sample_race : list attempt :=
  [Attempt 0 (Held (-6000)) 10 (Some 5); Attempt 70 Free 70 None].

(** The session with the record without [data] in its log, ended. *)
Definition sample_broken_ended : store :=
  (endSession sample_id end_ 125000 sample_broken).2.

Definition sample_compact_input : PreCompactInput :=
  {| pc_session_id := Some sample_id; pc_transcript_path := Some "/tmp/transcript.jsonl" |}.

End SampleUse.

(** * Properties *)

(** ** The model on small inputs *)

Section SmallInputs.

Example sha256_constants :
  List.nth 0 Sha256.K 0 = 0x428a2f98 /\ List.nth 63 Sha256.K 0 = 0xc67178f2
  /\ Sha256.sa Sha256.H0 = 0x6a09e667 /\ Sha256.sh Sha256.H0 = 0x5be0cd19.
Proof. repeat split. Qed.

Example sha256_abc :
  string_of_list_ascii (Sha256.sha256_hex (JsString.utf8_encode (JsString.of_string "abc")))
  = "ba7816bf8f01cfea414140de5dae2223b00361a396177a9cb410ff61f20015ad"%string.
Proof. vm_compute. reflexivity. Qed.

Example sha256_long :
  string_of_list_ascii (Sha256.sha256_hex (repeat 120 200))
  = "aa20c23e3201834050679e1d88941b9a6fed0557c9a705cb2c315e2e63fd486d"%string.
Proof. vm_compute. reflexivity. Qed.

Example utf8_encode_examples :
  utf8_encode (of_string "a/b") = [0x61; 0x2F; 0x62]
  /\ utf8_encode [0xE9] = [0xC3; 0xA9]
  /\ utf8_encode [0x20AC] = [0xE2; 0x82; 0xAC]
  /\ utf8_encode [0xD83D; 0xDE00] = [0xF0; 0x9F; 0x98; 0x80]
  /\ utf8_encode [0xD83D] = [0xEF; 0xBF; 0xBD]
  /\ utf8_encode [0xDE00; 0x41] = [0xEF; 0xBF; 0xBD; 0x41].
Proof. repeat split. Qed.

(** The identifiers of the test of the store: they differ only by unsafe
    characters and get different names. *)
Example safeSessionFilename_test_ids :
  safeSessionFilename (of_string "a/b") = "ab_c14cddc033f64b9d"%string
  /\ safeSessionFilename (of_string "a_b") = "ab_648fa9b31bc7ff7e"%string.
Proof. split; vm_compute; reflexivity. Qed.

Example safeSessionFilename_traversal :
  safeSessionFilename (of_string "../../../etc/passwd") = "session_56bfa7338a2dfd1d"%string.
Proof. vm_compute. reflexivity. Qed.

Example parseInt_garbage : Text.parseInt " 12abc" = Some 12 /\ Text.parseInt "abc" = None
  /\ Text.parseInt "" = None /\ Text.parseInt "-7" = Some (-7) /\ Text.parseInt "0x10" = Some 0.
Proof. repeat split. Qed.

Example split_lines_trailing : Text.split_lines "a
b
" = ["a"; "b"; ""]%string.
Proof. reflexivity. Qed.

Example number_to_string_ex : Text.number_to_string 0 = "0"%string
  /\ Text.number_to_string 120 = "120"%string /\ Text.number_to_string (-3) = "-3"%string.
Proof. repeat split. Qed.

Example parse_observation :
  ReferenceRuntime.parse (ReferenceRuntime.json_text
    "{'id':'obs-1','timestamp':'2026-01-01T00:00:00.000Z','type':'command','tool':'Bash','isError':false,'data':{'command':'echo 1','exitCode':0}}")
  = Some (JObj [("id", JStr "obs-1"); ("timestamp", JStr "2026-01-01T00:00:00.000Z");
                ("type", JStr "command"); ("tool", JStr "Bash"); ("isError", JBool false);
                ("data", JObj [("command", JStr "echo 1"); ("exitCode", JNum 0 0)])])%string.
Proof. vm_compute. reflexivity. Qed.

Example parse_rejects :
  ReferenceRuntime.parse "this is not valid JSON" = None
  /\ ReferenceRuntime.parse (ReferenceRuntime.json_text "{'partial': true") = None
  /\ ReferenceRuntime.parse "[1, 2.50, -3e2, 100, 0.0] "
     = Some (JArr [JNum 1 0; JNum 25 (-1); JNum (-3) 2; JNum 1 2; JNum 0 0]).
Proof. vm_compute. repeat split. Qed.

End SmallInputs.

(** ** Derived file names *)

Section FileNames.

Lemma hex_digit_name_char d : is_name_char (Sha256.hex_digit d) = true.
Proof.
  unfold Sha256.hex_digit.
  destruct d as [|p|p]; try reflexivity.
  do 4 (destruct p as [p|p|]; try reflexivity).
Qed.

Lemma hex_of_word_name_chars x : Forall (fun a => is_name_char a = true) (Sha256.hex_of_word x).
Proof.
  unfold Sha256.hex_of_word, Sha256.nibble.
  repeat constructor; apply hex_digit_name_char.
Qed.

Lemma sha256_hex_name_chars msg :
  Forall (fun a => is_name_char a = true) (Sha256.sha256_hex msg).
Proof.
  unfold Sha256.sha256_hex, Sha256.hex_of_state.
  repeat (apply Forall_app; split); apply hex_of_word_name_chars.
Qed.

Lemma sha256_hex_length msg : length (Sha256.sha256_hex msg) = 64%nat.
Proof. reflexivity. Qed.

Lemma hash16_length sessionId : length (hash16 sessionId) = 16%nat.
Proof. unfold hash16. rewrite length_take, sha256_hex_length. reflexivity. Qed.

Lemma hash16_name_chars sessionId :
  Forall (fun a => is_name_char a = true) (hash16 sessionId).
Proof. unfold hash16. apply Forall_take, sha256_hex_name_chars. Qed.

Lemma alnum_lower_name_char c :
  is_alnum c = true -> is_name_char (ascii_of_unit (toLowerCase c)) = true.
Proof.
  unfold is_alnum, toLowerCase, ascii_of_unit, is_name_char. intros H.
  assert (Hc : 48 <= c <= 122) by lia.
  assert (Hl : 0 <= (if (65 <=? c) && (c <=? 90) then c + 32 else c) < 256)
    by (destruct ((65 <=? c) && (c <=? 90)); lia).
  rewrite N_ascii_embedding by lia.
  rewrite Z2N.id by lia.
  destruct ((65 <=? c) && (c <=? 90)) eqn:E; lia.
Qed.

Lemma readable_prefix_name_chars sessionId :
  Forall (fun a => is_name_char a = true) (readable_prefix sessionId).
Proof.
  unfold readable_prefix. apply Forall_map, Forall_forall.
  intros c Hc. apply list_elem_of_filter in Hc as [Hc _].
  simpl. now apply alnum_lower_name_char.
Qed.

Lemma safeSessionFilename_chars sessionId :
  Forall (fun a => is_name_char a = true)
         (list_ascii_of_string (safeSessionFilename sessionId)).
Proof.
  unfold safeSessionFilename. rewrite list_ascii_of_string_of_list_ascii.
  apply Forall_app; split.
  - pose proof (readable_prefix_name_chars sessionId) as H.
    destruct (readable_prefix sessionId); [|exact H].
    repeat constructor.
  - constructor; [reflexivity | apply hash16_name_chars].
Qed.

End FileNames.

Section Paths.

Lemma name_char_not_dot a : is_name_char a = true -> a <> dot.
Proof. intros H ->. discriminate H. Qed.

Lemma app_dot_inj (n1 n2 e1 e2 : string) :
  Forall (fun a => is_name_char a = true) (list_ascii_of_string n1) ->
  Forall (fun a => is_name_char a = true) (list_ascii_of_string n2) ->
  n1 +:+ String dot e1 = n2 +:+ String dot e2 ->
  n1 = n2 /\ e1 = e2.
Proof.
  revert n2. induction n1 as [|a n1 IH]; intros [|b n2] H1 H2 E; simpl in *.
  - injection E as ->. done.
  - injection E as <- _. inversion H2 as [|? ? Hb _]; subst.
    now apply name_char_not_dot in Hb.
  - injection E as -> _. inversion H1 as [|? ? Ha _]; subst.
    now apply name_char_not_dot in Ha.
  - injection E as -> E. inversion H1; inversion H2; subst.
    destruct (IH n2) as [-> ->]; auto.
Qed.

Lemma derived_inj a b e1 e2 :
  derived a e1 = derived b e2 -> safeSessionFilename a = safeSessionFilename b /\ e1 = e2.
Proof. apply app_dot_inj; apply safeSessionFilename_chars. Qed.

Lemma derived_ext_ne a b e1 e2 : e1 <> e2 -> derived a e1 <> derived b e2.
Proof. intros Hne E. apply derived_inj in E as [_ E]. contradiction. Qed.

Lemma getSessionFilePath_derived s : getSessionFilePath s = derived s "json".
Proof. reflexivity. Qed.
Lemma getObservationsFilePath_derived s : getObservationsFilePath s = derived s "observations.jsonl".
Proof. reflexivity. Qed.
Lemma getLockFilePath_derived s : getLockFilePath s = derived s "lock".
Proof. reflexivity. Qed.
Lemma getPendingFilePath_derived s : getPendingFilePath s = derived s "pending".
Proof. reflexivity. Qed.
Lemma getPendingLockPath_derived s : getPendingLockPath s = derived s "pending.lock".
Proof. reflexivity. Qed.

End Paths.

Ltac to_derived :=
  rewrite ?getSessionFilePath_derived, ?getObservationsFilePath_derived,
    ?getLockFilePath_derived, ?getPendingFilePath_derived, ?getPendingLockPath_derived.

(** Two file names of the store with different extensions differ. *)
Ltac path_ne := to_derived; apply derived_ext_ne; discriminate.

Section MetadataProperties.

Context {rt : Runtime}.

Lemma existsSync_true path fs : existsSync path fs = true <-> is_Some (fs !! path).
Proof. unfold existsSync. apply bool_decide_eq_true. Qed.

Lemma existsSync_false path fs : existsSync path fs = false <-> fs !! path = None.
Proof.
  unfold existsSync. rewrite bool_decide_eq_false, eq_None_not_Some. done.
Qed.

Lemma readSessionMetadata_lookup sessionId fs :
  readSessionMetadata sessionId fs =
  match fs !! getSessionFilePath sessionId with
  | Some (File (Meta m) _) => Some m
  | Some (File (Text s) _) => JSON_parse_metadata s
  | _ => None
  end.
Proof.
  unfold readSessionMetadata, readMetadataFile, existsSync.
  destruct (fs !! getSessionFilePath sessionId) as [[d t]|] eqn:E;
    case_bool_decide as H; simpl.
  - destruct d as [m|s|]; try done. by destruct (JSON_parse_metadata s).
  - exfalso. apply H. eauto.
  - by destruct H.
  - done.
Qed.

(** Reading a session only looks at its metadata file and its log. *)
Lemma readObservations_agree sessionId fs fs' :
  fs' !! getObservationsFilePath sessionId = fs !! getObservationsFilePath sessionId ->
  readObservations sessionId fs' = readObservations sessionId fs.
Proof.
  intros E. unfold readObservations, existsSync, readFileSync. by rewrite E.
Qed.

Lemma readSessionMetadata_agree sessionId fs fs' :
  fs' !! getSessionFilePath sessionId = fs !! getSessionFilePath sessionId ->
  readSessionMetadata sessionId fs' = readSessionMetadata sessionId fs.
Proof. intros E. by rewrite !readSessionMetadata_lookup, E. Qed.

Lemma readSession_agree sessionId fs fs' :
  fs' !! getSessionFilePath sessionId = fs !! getSessionFilePath sessionId ->
  fs' !! getObservationsFilePath sessionId = fs !! getObservationsFilePath sessionId ->
  readSession sessionId fs' = readSession sessionId fs.
Proof.
  intros E1 E2. unfold readSession.
  by rewrite (readSessionMetadata_agree _ _ _ E1), (readObservations_agree _ _ _ E2).
Qed.

Lemma readSessionMetadata_agree_path a b fs :
  getSessionFilePath a = getSessionFilePath b ->
  readSessionMetadata a fs = readSessionMetadata b fs.
Proof. intros E. by rewrite !readSessionMetadata_lookup, E. Qed.

(** What a write of a record does to what a session reads. *)
Lemma readSessionMetadata_write sessionId metadata now fs :
  readSessionMetadata sessionId (writeSessionMetadata metadata now fs) =
  if decide (getSessionFilePath (SessionMetadata.id metadata) = getSessionFilePath sessionId)
  then Some (set_lastUpdated metadata now)
  else readSessionMetadata sessionId fs.
Proof.
  rewrite !readSessionMetadata_lookup. unfold writeSessionMetadata.
  rewrite lookup_insert. destruct (decide _); done.
Qed.

(** C9. [addObservation] refuses a session that is not active: when the
    metadata file is absent, cannot be read or parsed, or holds a status
    other than [active], the call returns [false] and the directory, the
    observation log with it, is unchanged. *)
Theorem addObservation_refuses_inactive gotLock sessionId observation now fs :
  fs !! getSessionFilePath sessionId = None
  \/ readMetadataFile (getSessionFilePath sessionId) fs = Throw
  \/ (exists metadata, readSessionMetadata sessionId fs = Some metadata
                       /\ SessionMetadata.status metadata <> active) ->
  addObservation gotLock sessionId observation now fs = (false, fs)
  /\ (addObservation gotLock sessionId observation now fs).2
       !! getObservationsFilePath sessionId
     = fs !! getObservationsFilePath sessionId.
Proof.
  intros H.
  assert (E : addObservation gotLock sessionId observation now fs = (false, fs)).
  { unfold addObservation. destruct H as [H | [H | (m & Hm & Hs)]].
    - unfold readSessionMetadata. apply existsSync_false in H. by rewrite H.
    - unfold readSessionMetadata. rewrite H. by destruct (existsSync _ _).
    - rewrite Hm. by rewrite bool_decide_eq_true_2. }
  by rewrite E.
Qed.

End MetadataProperties.

Section StatusProperties.

Context {rt : Runtime}.

(** An operation either leaves the directory alone or replaces the record
    it read by one with the same identity and an allowed status. *)
Lemma perform_cases op sessionId now fs :
  perform op sessionId now fs = fs
  \/ exists m m',
      readSessionMetadata sessionId fs = Some m
      /\ perform op sessionId now fs = writeSessionMetadata m' now fs
      /\ SessionMetadata.id m' = SessionMetadata.id m
      /\ SessionMetadata.project m' = SessionMetadata.project m
      /\ SessionMetadata.projectPath m' = SessionMetadata.projectPath m
      /\ allowed_transition (SessionMetadata.status m) (SessionMetadata.status m').
Proof.
  unfold perform, endSession, updateSessionSummary, updatePreCompactKnowledge,
    allowed_transition.
  destruct op as [k|s|ps];
    destruct (readSessionMetadata sessionId fs) as [m|] eqn:E; simpl; auto.
  - case_bool_decide as Hs; simpl; [auto|].
    right. eexists m, _. repeat split; simpl.
    right. split; [by destruct (decide (SessionMetadata.status m = active)) |].
    destruct k; auto.
  - right. eexists m, _. repeat split; simpl. auto.
  - right. eexists m, _. repeat split; simpl. auto.
Qed.

(** C8. [id], [project] and [projectPath] are immutable: after
    [endSession], [updateSessionSummary] or [updatePreCompactKnowledge] on
    an existing session, the stored record of the session holds the same
    three values as before. *)
Theorem identity_fields_immutable op sessionId now fs before :
  readSessionMetadata sessionId fs = Some before ->
  exists after,
    readSessionMetadata sessionId (perform op sessionId now fs) = Some after
    /\ SessionMetadata.id after = SessionMetadata.id before
    /\ SessionMetadata.project after = SessionMetadata.project before
    /\ SessionMetadata.projectPath after = SessionMetadata.projectPath before.
Proof.
  intros Hread.
  destruct (perform_cases op sessionId now fs) as [-> | (m & m' & Hm & -> & Hi & Hp & Hpp & _)].
  - eauto.
  - rewrite Hread in Hm. injection Hm as <-.
    rewrite readSessionMetadata_write. destruct (decide _); eauto.
Qed.

Lemma store_consistent_empty : store_consistent ∅.
Proof.
  intros s m. rewrite readSessionMetadata_lookup, lookup_empty. discriminate.
Qed.

Lemma store_consistent_write metadata now fs :
  store_consistent fs -> store_consistent (writeSessionMetadata metadata now fs).
Proof.
  intros Hc s m. rewrite readSessionMetadata_write.
  destruct (decide _) as [E|E]; [|apply Hc].
  intros [= <-]. exact E.
Qed.

Lemma store_consistent_startSession sessionId project projectPath now fs :
  store_consistent fs ->
  store_consistent (startSession sessionId project projectPath now fs).2.
Proof. apply store_consistent_write. Qed.

Lemma store_consistent_perform op sessionId now fs :
  store_consistent fs -> store_consistent (perform op sessionId now fs).
Proof.
  intros Hc.
  destruct (perform_cases op sessionId now fs) as [-> | (m & m' & _ & -> & _)]; [done|].
  by apply store_consistent_write.
Qed.

(** One operation on any session moves the stored status of a session
    along an allowed transition only. *)
Lemma perform_status op sessionId now fs observed before :
  store_consistent fs ->
  stored_status observed fs = Some before ->
  exists after,
    stored_status observed (perform op sessionId now fs) = Some after
    /\ allowed_transition before after.
Proof.
  unfold stored_status. intros Hc Hb.
  destruct (readSessionMetadata observed fs) as [m0|] eqn:E0; [|discriminate].
  injection Hb as <-.
  destruct (perform_cases op sessionId now fs) as [-> | (m & m' & Hm & -> & Hi & _ & _ & Ht)].
  - rewrite E0. eexists; split; [reflexivity | by left].
  - rewrite readSessionMetadata_write. destruct (decide _) as [E|E].
    + simpl. eexists; split; [reflexivity|].
      assert (readSessionMetadata observed fs = readSessionMetadata sessionId fs) as Hsame.
      { apply readSessionMetadata_agree_path. rewrite <- E, Hi. by apply Hc. }
      rewrite Hsame, Hm in E0. by injection E0 as <-.
    + rewrite E0. eexists; split; [reflexivity | by left].
Qed.

End StatusProperties.

Section StatusMachine.

Context {rt : Runtime}.

Lemma startSession_status sessionId project projectPath now fs :
  stored_status sessionId (startSession sessionId project projectPath now fs).2 = Some active
  /\ Session.status (startSession sessionId project projectPath now fs).1 = active.
Proof.
  split; [|reflexivity].
  unfold stored_status, startSession. simpl.
  rewrite readSessionMetadata_write. simpl. by rewrite decide_True.
Qed.

Lemma store_consistent_perform_all ops fs :
  store_consistent fs -> store_consistent (perform_all ops fs).
Proof.
  revert fs. induction ops as [|[[op s] t] ops IH]; intros fs Hc; [done|].
  simpl. apply IH. by apply store_consistent_perform.
Qed.

Lemma perform_all_terminal ops fs observed s :
  store_consistent fs ->
  stored_status observed fs = Some s ->
  s = completed \/ s = stopped ->
  stored_status observed (perform_all ops fs) = Some s.
Proof.
  revert fs. induction ops as [|[[op sid] t] ops IH]; intros fs Hc Hs Hterm; [done|].
  simpl. apply IH; [by apply store_consistent_perform | | done].
  destruct (perform_status op sid t fs observed s Hc Hs) as (after & -> & [-> | [-> _]]).
  - done.
  - destruct Hterm; discriminate.
Qed.

(** C7. The status of a session only moves forward. [startSession]
    creates the record with status [active]; in a directory whose metadata
    files sit under the names derived from their identifiers (as the store
    writes them), one operation among [endSession], [updateSessionSummary]
    and [updatePreCompactKnowledge], on any session, leaves the stored
    status of a session as it is or moves it from [active] to [completed]
    or [stopped]; and after any sequence of such operations a status that
    was [completed] or [stopped] is still the same. *)
Theorem status_irreversible fs :
  store_consistent fs ->
  (forall sessionId project projectPath now,
      stored_status sessionId (startSession sessionId project projectPath now fs).2
      = Some active)
  /\ (forall op sessionId now observed before,
         stored_status observed fs = Some before ->
         exists after,
           stored_status observed (perform op sessionId now fs) = Some after
           /\ allowed_transition before after)
  /\ (forall ops observed s,
         stored_status observed fs = Some s ->
         s = completed \/ s = stopped ->
         stored_status observed (perform_all ops fs) = Some s).
Proof.
  intros Hc. split; [|split].
  - intros. apply startSession_status.
  - intros. by apply perform_status.
  - intros. by apply perform_all_terminal.
Qed.

End StatusMachine.

Section Counters.

Context {rt : Runtime}.

Arguments Js.truthy : simpl never.
Arguments Js.is_string : simpl never.

Lemma same_value_zero_eq v w : Js.same_value_zero v w = true -> v = w.
Proof.
  destruct v, w; simpl; try discriminate; intros H.
  - done.
  - by apply Bool.eqb_prop in H as ->.
  - apply andb_true_iff in H as [H1 H2]. f_equal; lia.
  - by apply String.eqb_eq in H as ->.
Qed.

Lemma set_add_elem set v x : x ∈ Js.set_add set v <-> x ∈ set \/ x = v.
Proof.
  unfold Js.set_add. destruct (existsb _ set) eqn:E.
  - split; [auto|]. intros [H | ->]; [done|].
    apply existsb_exists in E as (w & Hw & Heq).
    apply same_value_zero_eq in Heq as ->. by apply list_elem_of_In.
  - rewrite elem_of_app, list_elem_of_singleton. done.
Qed.

Lemma set_add_distinct set v :
  distinct_values set -> distinct_values (Js.set_add set v).
Proof.
  unfold Js.set_add. destruct (existsb _ set) eqn:E; [done|].
  intros Hd i j x y Hi Hj Hxy.
  assert (Hnew : forall k z, set !! k = Some z -> Js.same_value_zero v z = false).
  { intros k z Hk. destruct (Js.same_value_zero v z) eqn:Ez; [|done].
    assert (existsb (Js.same_value_zero v) set = true) as Habs; [|congruence].
    apply existsb_exists. exists z. split; [|done].
    apply list_elem_of_In. by eapply list_elem_of_lookup_2. }
  pose proof (same_value_zero_eq _ _ Hxy) as ->.
  apply lookup_app_Some in Hi as [Hi | [Hil Hi]];
    apply lookup_app_Some in Hj as [Hj | [Hjl Hj]].
  - by eapply Hd.
  - apply list_lookup_singleton_Some in Hj as [_ <-].
    rewrite (Hnew _ _ Hi) in Hxy. discriminate.
  - apply list_lookup_singleton_Some in Hi as [_ <-].
    rewrite (Hnew _ _ Hj) in Hxy. discriminate.
  - apply list_lookup_singleton_Some in Hi as [Hi _].
    apply list_lookup_singleton_Some in Hj as [Hj _]. lia.
Qed.

Lemma is_string_exclusive ty a b : a <> b -> Js.is_string ty a = true -> Js.is_string ty b = false.
Proof.
  destruct ty as [[| | |s| |]|]; simpl; try discriminate.
  intros Hne Ha. apply String.eqb_eq in Ha as ->. by apply String.eqb_neq.
Qed.

(** What one turn of the loop of [readSession] does to the counters. *)
Lemma count_observation_spec c obs c' :
  count_observation c obs = Ok c' ->
  c_commandsRun c' = c_commandsRun c + (if observation_type_is "command" obs then 1 else 0)
  /\ c_errorsEncountered c' =
     c_errorsEncountered c + (if counts_as_error obs then 1 else 0)
  /\ c_filesModified c' =
     match edited_path obs with
     | Some v => Js.set_add (c_filesModified c) v
     | None => c_filesModified c
     end.
Proof.
  unfold count_observation, counts_as_error, edited_path, observation_type_is.
  destruct (Js.get obs "type") as [ty|] eqn:Ety; [|discriminate]. simpl.
  assert (exists e, Js.get obs "isError" = Ok e) as [e Ee]
    by (destruct obs; simpl in *; try discriminate; eauto).
  assert (exists d, Js.get obs "data" = Ok d) as [d Ed]
    by (destruct obs; simpl in *; try discriminate; eauto).
  rewrite Ee, Ed. simpl.
  destruct (Js.is_string ty "file_edit") eqn:Efe.
  - rewrite (is_string_exclusive ty "file_edit" "command") by done.
    destruct d as [d|]; simpl; [|discriminate].
    destruct (Js.get d "path") as [[v|]|] eqn:Ep; simpl; try discriminate.
    + destruct (Js.truthy (Some v)) eqn:Etr; simpl;
        destruct (Js.is_string ty "error" || Js.truthy e); simpl;
        intros [= <-]; simpl; repeat split; lia.
    + destruct (Js.is_string ty "error" || Js.truthy e); simpl;
        intros [= <-]; simpl; repeat split; lia.
  - destruct (Js.is_string ty "command"); simpl;
      destruct (Js.is_string ty "error" || Js.truthy e); simpl;
      intros [= <-]; simpl; repeat split; lia.
Qed.

Lemma count_observations_spec observations : forall c c',
  count_observations c observations = Ok c' ->
  c_commandsRun c' =
    c_commandsRun c
    + Z.of_nat (length (List.filter (observation_type_is "command") observations))
  /\ c_errorsEncountered c' =
    c_errorsEncountered c + Z.of_nat (length (List.filter counts_as_error observations))
  /\ (forall v, v ∈ c_filesModified c' <->
        v ∈ c_filesModified c \/ exists obs, obs ∈ observations /\ edited_path obs = Some v)
  /\ (distinct_values (c_filesModified c) -> distinct_values (c_filesModified c')).
Proof.
  induction observations as [|obs rest IH]; intros c c'; simpl.
  - intros [= <-]. repeat split; try lia; try tauto.
    + intros [H | (o & Ho & _)]; [done|]. by apply elem_of_nil in Ho.
  - destruct (count_observation c obs) as [c1|] eqn:E1; [|discriminate]. simpl.
    intros Hrest. apply count_observation_spec in E1 as (Hc & He & Hf).
    apply IH in Hrest as (Hc' & He' & Hf' & Hd').
    repeat split.
    + rewrite Hc', Hc. destruct (observation_type_is "command" obs); simpl length; lia.
    + rewrite He', He. destruct (counts_as_error obs); simpl length; lia.
    + rewrite Hf', Hf. intros [H | (o & Ho & Hv)].
      * destruct (edited_path obs) as [w|] eqn:Ew; [|by left].
        apply set_add_elem in H as [H | ->]; [by left|].
        right. exists obs. split; [left | done].
      * right. exists o. split; [by right | done].
    + rewrite Hf', Hf. intros [H | (o & Ho & Hv)].
      * left. destruct (edited_path obs); [apply set_add_elem|]; auto.
      * apply elem_of_cons in Ho as [-> | Ho].
        -- left. rewrite Hv. apply set_add_elem. auto.
        -- right. eauto.
    + intros Hd. apply Hd'. rewrite Hf.
      destruct (edited_path obs); [by apply set_add_distinct | done].
Qed.

(** C10. The counters of the session that [readSession] returns come from
    the observation log alone: [commandsRun] is the number of parsed
    observations of type [command], [errorsEncountered] the number of those
    of type [error] or with a set [isError] flag, and [filesModified] holds
    exactly the non-empty path values of the [file_edit] observations, each
    once. *)
Theorem readSession_counters sessionId fs session :
  readSession sessionId fs = Ok (Some session) ->
  let observations := readObservations sessionId fs in
  Session.observations session = observations
  /\ Session.commandsRun session =
     Z.of_nat (length (List.filter (observation_type_is "command") observations))
  /\ Session.errorsEncountered session =
     Z.of_nat (length (List.filter counts_as_error observations))
  /\ (forall v, v ∈ Session.filesModified session <->
        exists obs, obs ∈ observations /\ edited_path obs = Some v)
  /\ distinct_values (Session.filesModified session).
Proof.
  unfold readSession.
  destruct (readSessionMetadata sessionId fs) as [m|]; [|discriminate].
  destruct (count_observations _ _) as [c|] eqn:E; [|discriminate].
  simpl. intros [= <-]. simpl.
  apply count_observations_spec in E as (Hc & He & Hf & Hd). simpl in *.
  repeat split; try done.
  - intros H. apply Hf in H as [H | H]; [by apply elem_of_nil in H | done].
  - intros H. apply Hf. by right.
  - apply Hd. intros i j v w Hi. by rewrite lookup_nil in Hi.
Qed.

End Counters.

Section ObservationLog.

Context {rt : Runtime}.

Lemma split_lines_line l rest :
  no_newline l = true ->
  Text.split_lines (l +:+ String Text.newline rest) = l :: Text.split_lines rest.
Proof.
  induction l as [|a l IH]; simpl; intros H.
  - reflexivity.
  - apply andb_true_iff in H as [Ha Hl].
    destruct (Ascii.eqb a Text.newline); [discriminate|].
    by rewrite IH.
Qed.

Lemma split_lines_join_lines lines :
  Forall (fun l => no_newline l = true) lines ->
  lines <> [] ->
  Text.split_lines (join_lines lines) = lines.
Proof.
  induction 1 as [|l rest Hl Hrest IH]; [done|]. intros _.
  destruct rest as [|l' rest].
  - simpl. clear IH Hrest. induction l as [|a l IHl]; [done|].
    simpl in *. apply andb_true_iff in Hl as [Ha Hl].
    destruct (Ascii.eqb a Text.newline); [discriminate|].
    by rewrite (IHl Hl).
  - change (join_lines (l :: l' :: rest))
      with (l +:+ String Text.newline (join_lines (l' :: rest))).
    rewrite split_lines_line by done. by rewrite IH.
Qed.

Lemma has_required_fields_record obs :
  is_observation_record obs -> has_required_fields obs = Ok true.
Proof.
  intros (fields & -> & Hi & Ht & Hy & Hl).
  unfold has_required_fields. simpl. rewrite Hi. simpl. rewrite Ht. simpl.
  rewrite Hy. simpl. by rewrite bool_decide_eq_true_2.
Qed.

Lemma has_required_fields_lacking obs :
  lacks_required_field obs -> has_required_fields obs <> Ok true.
Proof.
  intros (k & Hk & Hlack). unfold has_required_fields.
  destruct obs as [| | | | |fields]; simpl; try discriminate.
  assert (Js.lookup_field k fields = None) as Hnone.
  { destruct (Js.lookup_field k fields) as [v|] eqn:E; [|done].
    exfalso. apply (Hlack v). simpl. by rewrite E. }
  unfold required_fields in Hk.
  destruct (Js.truthy (Js.lookup_field "id" fields)) eqn:Ei; simpl; [|discriminate].
  destruct (Js.truthy (Js.lookup_field "timestamp" fields)) eqn:Et; simpl; [|discriminate].
  destruct (Js.truthy (Js.lookup_field "type" fields)) eqn:Ey; simpl; [|discriminate].
  repeat (apply elem_of_cons in Hk as [-> | Hk]);
    try (rewrite Hnone in *; discriminate).
  by apply elem_of_nil in Hk.
Qed.

Lemma parse_line_valid line obs : valid_record line obs -> parse_line line = [obs].
Proof.
  intros (Hne & Hp & Hr). unfold parse_line.
  apply String.eqb_neq in Hne. rewrite Hne, Hp.
  by rewrite has_required_fields_record.
Qed.

Lemma parse_line_malformed line : malformed line -> parse_line line = [].
Proof.
  unfold parse_line. intros [Hp | (obs & Hp & Hl)]; rewrite Hp.
  - by destruct (String.eqb _ _).
  - destruct (String.eqb _ _); [done|].
    apply has_required_fields_lacking in Hl.
    by destruct (has_required_fields obs) as [[|]|].
Qed.

Lemma parse_line_blank line : blank line -> parse_line line = [].
Proof. unfold blank, parse_line. by intros ->. Qed.

(** Reading a log whose text is given: every line is judged alone. *)
Lemma readObservations_join_lines sessionId fs mtime lines :
  fs !! getObservationsFilePath sessionId = Some (File (Text (join_lines lines)) mtime) ->
  Forall (fun l => no_newline l = true) lines ->
  readObservations sessionId fs = flat_map parse_line lines.
Proof.
  intros Hf Hl. unfold readObservations, existsSync, readFileSync. rewrite Hf.
  rewrite bool_decide_eq_true_2 by eauto. simpl.
  destruct lines as [|l rest]; [done|].
  by rewrite split_lines_join_lines.
Qed.

(** C4. A log of one valid record, one line that is not JSON and one more
    valid record (ended by a line feed or not, blank lines after it or not)
    reads as exactly the two records, in their order. In general a line that
    does not parse, or that parses to a value lacking a required field, is
    skipped and changes nothing for the other lines: the log reads as it
    would without that line. *)
Theorem readObservations_skips_malformed sessionId fs mtime l1 bad l2 o1 o2 rest :
  fs !! getObservationsFilePath sessionId
    = Some (File (Text (join_lines (l1 :: bad :: l2 :: rest))) mtime) ->
  Forall (fun l => no_newline l = true) (l1 :: bad :: l2 :: rest) ->
  Forall blank rest ->
  valid_record l1 o1 ->
  JSON_parse (Text.trim bad) = None ->
  valid_record l2 o2 ->
  readObservations sessionId fs = [o1; o2]
  /\ (forall before line after fs' mtime',
         fs' !! getObservationsFilePath sessionId
           = Some (File (Text (join_lines (before ++ line :: after))) mtime') ->
         Forall (fun l => no_newline l = true) (before ++ line :: after) ->
         malformed line ->
         readObservations sessionId fs'
         = readObservations sessionId
             (<[getObservationsFilePath sessionId :=
                  File (Text (join_lines (before ++ after))) mtime']> fs')).
Proof.
  intros Hf Hnl Hblank Hv1 Hbad Hv2. split.
  - rewrite (readObservations_join_lines _ _ _ _ Hf Hnl).
    cbn [flat_map]. rewrite (parse_line_valid _ _ Hv1), (parse_line_valid _ _ Hv2).
    rewrite (parse_line_malformed bad) by (by left).
    assert (flat_map parse_line rest = []) as ->; [|done].
    clear -Hblank. induction Hblank as [|l rest Hl _ IH]; [done|].
    cbn [flat_map]. by rewrite (parse_line_blank _ Hl), IH.
  - intros before line after fs' mtime' Hf' Hl Hm.
    rewrite (readObservations_join_lines _ _ _ _ Hf' Hl).
    rewrite (readObservations_join_lines sessionId _ mtime' (before ++ after)).
    + rewrite !flat_map_app. cbn [flat_map]. by rewrite (parse_line_malformed _ Hm).
    + by rewrite lookup_insert_eq.
    + apply Forall_app in Hl as [Hl1 Hl2]. apply Forall_app. split; [done|].
      by inversion Hl2.
Qed.

End ObservationLog.

(** ** Numbers as text *)

Section NumberText.

Lemma string_of_uint_digits d :
  Forall (fun a => is_digit a = true) (list_ascii_of_string (NilEmpty.string_of_uint d)).
Proof. induction d; simpl; constructor; auto. Qed.

Lemma digits_prefix_string_of_uint d :
  Text.digits_prefix (NilEmpty.string_of_uint d) = d.
Proof. induction d; simpl; congruence. Qed.

Lemma digit_not_whitespace a : is_digit a = true -> Text.is_whitespace a = false.
Proof.
  unfold is_digit, Text.is_whitespace. intros H.
  apply andb_true_iff in H as [H1 H2].
  apply N.leb_le in H1, H2.
  destruct (N_of_ascii a) as [|p]; [lia|].
  do 8 (destruct p as [p|p|]; try reflexivity; try lia).
Qed.

Lemma trimEnd_digits s :
  Forall (fun a => is_digit a = true) (list_ascii_of_string s) -> Text.trimEnd s = s.
Proof.
  induction s as [|a s IH]; simpl; [done|].
  intros H. inversion H as [|? ? Ha Hs]; subst.
  rewrite (IH Hs). destruct s; [|done].
  by rewrite digit_not_whitespace.
Qed.

Lemma digits_value_pos p :
  Text.digits_value (NilEmpty.string_of_uint (Pos.to_uint p)) = Some (Z.pos p).
Proof.
  unfold Text.digits_value. rewrite digits_prefix_string_of_uint.
  pose proof (Unsigned.to_uint_nonnil p) as Hnn.
  destruct (Pos.to_uint p) eqn:E; try done;
    rewrite <- E; unfold Z.of_uint; by rewrite Unsigned.of_to.
Qed.

Lemma string_of_uint_pos p :
  NilZero.string_of_uint (Pos.to_uint p) = NilEmpty.string_of_uint (Pos.to_uint p).
Proof.
  pose proof (Unsigned.to_uint_nonnil p). by destruct (Pos.to_uint p).
Qed.

Lemma string_of_uint_head p :
  exists a r, NilEmpty.string_of_uint (Pos.to_uint p) = String a r /\ is_digit a = true.
Proof.
  pose proof (Unsigned.to_uint_nonnil p) as Hnn.
  destruct (Pos.to_uint p); try done; simpl; eauto.
Qed.

(** Reading back a number that was written. *)
Lemma parseInt_number_to_string n :
  Text.parseInt (Text.trim (Text.number_to_string n)) = Some n.
Proof.
  unfold Text.number_to_string, Text.trim.
  destruct n as [|p|p]; [reflexivity| |]; simpl Z.to_int; unfold NilZero.string_of_int.
  - rewrite string_of_uint_pos.
    destruct (string_of_uint_head p) as (a & r & E & Ha).
    pose proof (string_of_uint_digits (Pos.to_uint p)) as Hd.
    pose proof (digits_value_pos p) as Hv.
    rewrite E in *. simpl Text.trimStart. rewrite (digit_not_whitespace a Ha).
    rewrite (trimEnd_digits _ Hd).
    unfold Text.parseInt. simpl Text.trimStart. rewrite (digit_not_whitespace a Ha).
    destruct a as [[] [] [] [] [] [] [] []]; try discriminate Ha; exact Hv.
  - rewrite string_of_uint_pos.
    pose proof (string_of_uint_digits (Pos.to_uint p)) as Hd.
    pose proof (digits_value_pos p) as Hv.
    destruct (string_of_uint_head p) as (a & r & E & Ha).
    simpl Text.trimStart.
    change (Text.trimEnd (String "-" ?s)) with
      (match Text.trimEnd s with
       | EmptyString => String "-" EmptyString
       | r' => String "-" r' end).
    rewrite (trimEnd_digits _ Hd). rewrite E.
    unfold Text.parseInt. simpl Text.trimStart.
    rewrite <- E, Hv. reflexivity.
Qed.

End NumberText.

(** ** The pending job counter *)

Section PendingCounter.

Context {rt : Runtime}.

Lemma pending_path_ne_lock sessionId :
  getPendingLockPath sessionId <> getPendingFilePath sessionId.
Proof. path_ne. Qed.

Lemma getPendingJobCount_agree pendingPath conservative fs fs' :
  fs' !! pendingPath = fs !! pendingPath ->
  getPendingJobCount pendingPath conservative fs'
  = getPendingJobCount pendingPath conservative fs.
Proof.
  intros E. unfold getPendingJobCount, existsSync, readFileSync. by rewrite E.
Qed.

Lemma getPendingJobCount_absent pendingPath conservative fs :
  fs !! pendingPath = None -> getPendingJobCount pendingPath conservative fs = 0.
Proof.
  intros E. unfold getPendingJobCount. apply existsSync_false in E. by rewrite E.
Qed.

Lemma getPendingJobCount_holds sessionId n conservative fs :
  counter_holds sessionId n fs ->
  getPendingJobCount (getPendingFilePath sessionId) conservative fs = n.
Proof.
  unfold counter_holds. destruct (decide (n = 0)) as [-> | Hn].
  - apply getPendingJobCount_absent.
  - intros [t E]. unfold getPendingJobCount, existsSync, readFileSync. rewrite E.
    rewrite bool_decide_eq_true_2 by eauto. simpl.
    by rewrite parseInt_number_to_string.
Qed.

(** What the two calls do to the directory, by the count they read. *)
Lemma markBackgroundJobStarted_eq sessionId now fs :
  markBackgroundJobStarted true sessionId now fs =
  delete (getPendingLockPath sessionId)
    (<[getPendingFilePath sessionId :=
         File (Text (Text.number_to_string
                 (getPendingJobCount (getPendingFilePath sessionId) false fs + 1))) now]> fs).
Proof.
  unfold markBackgroundJobStarted, releasePendingLock, unlinkSync, writeFileSync,
    acquirePendingLock. simpl.
  rewrite (getPendingJobCount_agree _ _ fs)
    by (apply lookup_insert_ne, pending_path_ne_lock).
  rewrite insert_insert_ne by (apply not_eq_sym, pending_path_ne_lock).
  by rewrite delete_insert_eq.
Qed.

Lemma markBackgroundJobCompleted_eq sessionId now fs :
  markBackgroundJobCompleted true sessionId now fs =
  delete (getPendingLockPath sessionId)
    (let count := getPendingJobCount (getPendingFilePath sessionId) false fs in
     if count <=? 1 then delete (getPendingFilePath sessionId) fs
     else <[getPendingFilePath sessionId :=
              File (Text (Text.number_to_string (count - 1))) now]> fs).
Proof.
  unfold markBackgroundJobCompleted, releasePendingLock, unlinkSync, writeFileSync,
    acquirePendingLock. simpl.
  rewrite (getPendingJobCount_agree _ _ fs)
    by (apply lookup_insert_ne, pending_path_ne_lock).
  destruct (_ <=? 1).
  - unfold existsSync. case_bool_decide as H.
    + rewrite delete_insert_ne by (apply not_eq_sym, pending_path_ne_lock).
      by rewrite delete_insert_eq.
    + rewrite delete_insert_eq. f_equal. symmetry. apply delete_id.
      rewrite lookup_insert_ne in H by apply pending_path_ne_lock.
      by apply eq_None_not_Some.
  - rewrite insert_insert_ne by (apply not_eq_sym, pending_path_ne_lock).
    by rewrite delete_insert_eq.
Qed.

Lemma markBackgroundJobStarted_counter sessionId now n fs :
  0 <= n -> counter_holds sessionId n fs ->
  counter_holds sessionId (n + 1) (markBackgroundJobStarted true sessionId now fs).
Proof.
  intros Hn Hc. rewrite markBackgroundJobStarted_eq.
  rewrite (getPendingJobCount_holds _ _ _ _ Hc).
  unfold counter_holds. rewrite decide_False by lia.
  exists now. rewrite lookup_delete_ne by apply pending_path_ne_lock.
  by rewrite lookup_insert_eq.
Qed.

Lemma markBackgroundJobCompleted_counter sessionId now n fs :
  0 <= n -> counter_holds sessionId n fs ->
  counter_holds sessionId (Z.max 0 (n - 1)) (markBackgroundJobCompleted true sessionId now fs).
Proof.
  intros Hn Hc. rewrite markBackgroundJobCompleted_eq.
  rewrite (getPendingJobCount_holds _ _ _ _ Hc). simpl.
  unfold counter_holds. destruct (n <=? 1) eqn:E.
  - rewrite decide_True by lia.
    rewrite lookup_delete_ne by apply pending_path_ne_lock.
    by rewrite lookup_delete_eq.
  - rewrite decide_False by lia. exists now.
    rewrite lookup_delete_ne by apply pending_path_ne_lock.
    rewrite lookup_insert_eq. do 4 f_equal. lia.
Qed.

Lemma started_all_counter sessionId times : forall n fs,
  0 <= n -> counter_holds sessionId n fs ->
  counter_holds sessionId (n + Z.of_nat (length times)) (started_all sessionId times fs).
Proof.
  induction times as [|t times IH]; intros n fs Hn Hc.
  - simpl. by rewrite Z.add_0_r.
  - change (started_all sessionId (t :: times) fs)
      with (started_all sessionId times (markBackgroundJobStarted true sessionId t fs)).
    replace (n + Z.of_nat (length (t :: times)))
      with ((n + 1) + Z.of_nat (length times)) by (simpl length; lia).
    apply IH; [lia|]. by apply markBackgroundJobStarted_counter.
Qed.

Lemma completed_all_counter sessionId times : forall n fs,
  0 <= n -> counter_holds sessionId n fs ->
  counter_holds sessionId (Z.max 0 (n - Z.of_nat (length times)))
    (completed_all sessionId times fs).
Proof.
  induction times as [|t times IH]; intros n fs Hn Hc.
  - replace (Z.max 0 (n - Z.of_nat (length (@nil Z)))) with n by (simpl length; lia).
    exact Hc.
  - change (completed_all sessionId (t :: times) fs)
      with (completed_all sessionId times (markBackgroundJobCompleted true sessionId t fs)).
    replace (Z.max 0 (n - Z.of_nat (length (t :: times))))
      with (Z.max 0 (Z.max 0 (n - 1) - Z.of_nat (length times))) by (simpl length; lia).
    apply IH; [lia|]. by apply markBackgroundJobCompleted_counter.
Qed.

(** Once a call has returned, its lock marker is gone. *)
Lemma markBackgroundJobStarted_unlocked sessionId now fs :
  markBackgroundJobStarted true sessionId now fs !! getPendingLockPath sessionId = None.
Proof. rewrite markBackgroundJobStarted_eq. apply lookup_delete_eq. Qed.

Lemma markBackgroundJobCompleted_unlocked sessionId now fs :
  markBackgroundJobCompleted true sessionId now fs !! getPendingLockPath sessionId = None.
Proof. rewrite markBackgroundJobCompleted_eq. apply lookup_delete_eq. Qed.

Lemma completed_all_unlocked sessionId times : forall fs,
  fs !! getPendingLockPath sessionId = None ->
  completed_all sessionId times fs !! getPendingLockPath sessionId = None.
Proof.
  induction times as [|t times IH]; intros fs H; simpl; [done|].
  apply IH, markBackgroundJobCompleted_unlocked.
Qed.

Lemma started_all_unlocked sessionId times fs :
  fs !! getPendingLockPath sessionId = None \/ times <> [] ->
  started_all sessionId times fs !! getPendingLockPath sessionId = None.
Proof.
  revert fs. induction times as [|t times IH]; intros fs H; simpl.
  - by destruct H.
  - apply IH. left. apply markBackgroundJobStarted_unlocked.
Qed.

(** C2. From an absent counter file, K calls of
    [markBackgroundJobStarted] followed by K calls of
    [markBackgroundJobCompleted], each getting the lock, leave no counter
    file. One more [markBackgroundJobCompleted] finds no counter file and
    creates none: it changes no file, except that the marker of the lock it
    took is gone, and changes nothing at all when no marker had been left
    behind. *)
Theorem pending_counter_balanced sessionId (K : nat) (starts completes : list Z) fs :
  fs !! getPendingFilePath sessionId = None ->
  length starts = K -> length completes = K ->
  let after := completed_all sessionId completes (started_all sessionId starts fs) in
  after !! getPendingFilePath sessionId = None
  /\ forall now,
      let extra := markBackgroundJobCompleted true sessionId now after in
      extra !! getPendingFilePath sessionId = None
      /\ extra = delete (getPendingLockPath sessionId) after
      /\ (fs !! getPendingLockPath sessionId = None \/ K <> 0%nat -> extra = after).
Proof.
  intros Habsent Hs Hc after.
  assert (Hafter : after !! getPendingFilePath sessionId = None).
  { assert (counter_holds sessionId 0 fs) as H0
      by (unfold counter_holds; by rewrite decide_True).
    apply (started_all_counter _ starts) in H0; [|lia].
    apply (completed_all_counter _ completes) in H0; [|lia].
    rewrite Hs, Hc in H0.
    replace (Z.max 0 (0 + Z.of_nat K - Z.of_nat K)) with 0 in H0 by lia.
    unfold counter_holds in H0. by rewrite decide_True in H0. }
  split; [done|]. intros now extra.
  assert (Hextra : extra = delete (getPendingLockPath sessionId) after).
  { unfold extra. rewrite markBackgroundJobCompleted_eq.
    rewrite getPendingJobCount_absent by done. simpl.
    f_equal. by apply delete_id. }
  split; [|split; [done|]].
  - rewrite Hextra, lookup_delete_ne by apply pending_path_ne_lock. done.
  - intros Hlock. rewrite Hextra. apply delete_id.
    apply completed_all_unlocked, started_all_unlocked.
    destruct Hlock as [H | H]; [by left | right].
    intros ->. by subst K.
Qed.

End PendingCounter.

Section WaitBarrier.

Context {rt : Runtime}.

(** In conservative mode a counter file that cannot be read, or that
    holds no number, counts as one pending job. *)
Lemma getPendingJobCount_conservative pendingPath fs :
  counter_unreadable pendingPath fs ->
  getPendingJobCount pendingPath true fs = 1.
Proof.
  intros [Hex Hread]. unfold getPendingJobCount.
  apply existsSync_true in Hex. rewrite Hex. simpl.
  destruct Hread as [-> | (content & -> & ->)]; reflexivity.
Qed.

(** A count of zero or less comes from an absent file or from a number
    that was read. *)
Lemma getPendingJobCount_nonpositive pendingPath fs :
  getPendingJobCount pendingPath true fs <= 0 -> counter_drained pendingPath fs.
Proof.
  unfold getPendingJobCount, counter_drained.
  destruct (existsSync pendingPath fs) eqn:Hex; simpl.
  - destruct (readFileSync pendingPath fs) as [content|]; [|lia].
    destruct (Text.parseInt (Text.trim content)) as [count|] eqn:Hp; [|lia].
    intros Hle. right. eauto.
  - intros _. left. by apply existsSync_false.
Qed.

Lemma waitForPendingJobs_drained pendingPath startTime maxWaitMs polls :
  waitForPendingJobs pendingPath startTime maxWaitMs polls = Drained ->
  exists before now fs after,
    polls = before ++ (now, fs) :: after
    /\ now - startTime < maxWaitMs
    /\ counter_drained pendingPath fs.
Proof.
  induction polls as [|[now fs] rest IH]; simpl; [discriminate|].
  destruct (now - startTime <? maxWaitMs) eqn:Et; [|discriminate].
  destruct (getPendingJobCount pendingPath true fs <=? 0) eqn:Ec.
  - intros _. exists [], now, fs, rest. repeat split; [lia|].
    apply getPendingJobCount_nonpositive. lia.
  - intros H. destruct (IH H) as (before & now' & fs' & after & -> & Hn & Hd).
    exists ((now, fs) :: before), now', fs', after. done.
Qed.

Lemma waitForPendingJobs_timed_out pendingPath startTime maxWaitMs polls :
  waitForPendingJobs pendingPath startTime maxWaitMs polls = TimedOut ->
  exists before now fs after,
    polls = before ++ (now, fs) :: after /\ maxWaitMs <= now - startTime.
Proof.
  induction polls as [|[now fs] rest IH]; simpl; [discriminate|].
  destruct (now - startTime <? maxWaitMs) eqn:Et.
  - destruct (getPendingJobCount pendingPath true fs <=? 0); [discriminate|].
    intros H. destruct (IH H) as (before & now' & fs' & after & -> & Hn).
    exists ((now, fs) :: before), now', fs', after. done.
  - intros _. exists [], now, fs, rest. split; [done | lia].
Qed.

Lemma waitForPendingJobs_keeps_waiting pendingPath startTime maxWaitMs polls :
  Forall (fun poll => poll.1 - startTime < maxWaitMs
                      /\ counter_unreadable pendingPath poll.2) polls ->
  waitForPendingJobs pendingPath startTime maxWaitMs polls = Waiting.
Proof.
  induction 1 as [|[now fs] rest [Ht Hu] _ IH]; simpl in *; [done|].
  rewrite (getPendingJobCount_conservative _ _ Hu).
  destruct (now - startTime <? maxWaitMs) eqn:Et; [|lia]. done.
Qed.

(** C3. The conservative wait of [getPreCompactKnowledge] and of
    [clearSessionFile] is never left because a read failed or gave no
    number. A counter file that exists but cannot be read, or whose text is
    no integer, reads as one pending job; while every poll within the wait
    meets such a file the loop goes on; the loop is left by its [break]
    only at a poll that found the counter absent or at most zero, and
    otherwise only when [maxWaitMs] has elapsed. *)
Theorem conservative_wait_never_undercounts sessionId startTime maxWaitMs polls :
  let pendingPath := getPendingFilePath sessionId in
  (forall gotLock now fs,
      (clearSessionFile gotLock sessionId maxWaitMs startTime polls now fs).1
      = waitForPendingJobs pendingPath startTime maxWaitMs polls)
  /\ (forall fs,
      (getPreCompactKnowledge sessionId maxWaitMs startTime polls fs).1
      = waitForPendingJobs pendingPath startTime maxWaitMs polls)
  /\ (forall fs, counter_unreadable pendingPath fs ->
                 getPendingJobCount pendingPath true fs = 1)
  /\ (Forall (fun poll => poll.1 - startTime < maxWaitMs
                          /\ counter_unreadable pendingPath poll.2) polls ->
      waitForPendingJobs pendingPath startTime maxWaitMs polls = Waiting)
  /\ (waitForPendingJobs pendingPath startTime maxWaitMs polls = Drained ->
      exists before now fs after,
        polls = before ++ (now, fs) :: after
        /\ now - startTime < maxWaitMs
        /\ counter_drained pendingPath fs)
  /\ (waitForPendingJobs pendingPath startTime maxWaitMs polls = TimedOut ->
      exists before now fs after,
        polls = before ++ (now, fs) :: after /\ maxWaitMs <= now - startTime).
Proof.
  intros pendingPath. repeat split.
  - apply getPendingJobCount_conservative.
  - apply waitForPendingJobs_keeps_waiting.
  - apply waitForPendingJobs_drained.
  - apply waitForPendingJobs_timed_out.
Qed.

End WaitBarrier.

(** ** The sweep of stale sessions *)

Section Sweep.

Context {rt : Runtime}.

Lemma unlink_if_exists_delete path fs : unlink_if_exists path fs = delete path fs.
Proof.
  unfold unlink_if_exists, unlinkSync, existsSync. case_bool_decide as H; [done|].
  symmetry. apply delete_id. by apply eq_None_not_Some.
Qed.

(** [clearSessionFile] removes the five files of the session and nothing
    else, whether it got the lock or not. *)
Lemma clearSessionFile_lookup gotLock sessionId maxWaitMs startTime polls now fs p :
  (clearSessionFile gotLock sessionId maxWaitMs startTime polls now fs).2 !! p =
  if decide (p ∈ session_files sessionId) then None else fs !! p.
Proof.
  unfold clearSessionFile, session_files, releaseLock, acquireLock, unlinkSync. simpl.
  rewrite !unlink_if_exists_delete.
  destruct (decide (p ∈ _)) as [Hin | Hout];
    destruct gotLock; rewrite !lookup_delete, ?lookup_insert;
    repeat case_decide; subst; try done; exfalso; set_solver.
Qed.

Lemma session_files_same_name a b p :
  p ∈ session_files a -> p ∈ session_files b ->
  safeSessionFilename a = safeSessionFilename b.
Proof.
  unfold session_files. to_derived. intros Ha Hb.
  repeat (apply elem_of_cons in Ha as [-> | Ha]);
    try (by apply elem_of_nil in Ha);
    repeat (apply elem_of_cons in Hb as [Hb | Hb]);
    try (by apply elem_of_nil in Hb);
    by apply derived_inj in Hb as [? ?].
Qed.

Lemma session_files_name_eq a b :
  safeSessionFilename a = safeSessionFilename b -> session_files a = session_files b.
Proof.
  intros E. unfold session_files, getSessionFilePath, getObservationsFilePath,
    getPendingFilePath, getPendingLockPath, getLockFilePath. by rewrite E.
Qed.

Lemma getSessionLastActivity_name_eq a b fs :
  safeSessionFilename a = safeSessionFilename b ->
  getSessionLastActivity a fs = getSessionLastActivity b fs.
Proof.
  intros E. unfold getSessionLastActivity, getSessionFilePath, getObservationsFilePath.
  by rewrite E.
Qed.

Lemma getSessionLastActivity_agree sessionId fs fs' :
  fs' !! getSessionFilePath sessionId = fs !! getSessionFilePath sessionId ->
  fs' !! getObservationsFilePath sessionId = fs !! getObservationsFilePath sessionId ->
  getSessionLastActivity sessionId fs' = getSessionLastActivity sessionId fs.
Proof. intros E1 E2. unfold getSessionLastActivity. by rewrite E1, E2. Qed.

(** The last activity is the later of the two modification times. *)
Lemma getSessionLastActivity_max sessionId fs meta log :
  fs !! getSessionFilePath sessionId = Some meta ->
  fs !! getObservationsFilePath sessionId = Some log ->
  getSessionLastActivity sessionId fs = Z.max 0 (Z.max (mtimeMs meta) (mtimeMs log)).
Proof. intros E1 E2. unfold getSessionLastActivity. rewrite E1, E2. lia. Qed.

Lemma getSessionLastActivity_log sessionId fs log :
  fs !! getObservationsFilePath sessionId = Some log ->
  mtimeMs log <= getSessionLastActivity sessionId fs.
Proof.
  intros E. unfold getSessionLastActivity. rewrite E.
  destruct (fs !! getSessionFilePath sessionId); lia.
Qed.

(** A session whose files were touched has lost them all and was stale. *)
Lemma sweep_invariant_session now maxAge fs acc sid :
  sweep_invariant now maxAge fs acc ->
  (acc.2 !! getSessionFilePath sid = fs !! getSessionFilePath sid
   /\ acc.2 !! getObservationsFilePath sid = fs !! getObservationsFilePath sid)
  \/ (stale now maxAge sid fs /\ forall q, q ∈ session_files sid -> acc.2 !! q = None).
Proof.
  intros [Hfiles _].
  assert (Hgone : forall p, p ∈ session_files sid ->
            acc.2 !! p = fs !! p
            \/ (stale now maxAge sid fs
                /\ forall q, q ∈ session_files sid -> acc.2 !! q = None)).
  { intros p Hp. destruct (Hfiles p) as [E | (sid' & Hp' & Hst & Hnone)]; [by left|].
    right. pose proof (session_files_same_name _ _ _ Hp' Hp) as En.
    unfold stale in *. rewrite <- (getSessionLastActivity_name_eq _ _ _ En).
    by rewrite <- (session_files_name_eq _ _ En). }
  destruct (Hgone (getSessionFilePath sid)) as [E1 | ?];
    [unfold session_files; set_solver | | by right].
  destruct (Hgone (getObservationsFilePath sid)) as [E2 | ?];
    [unfold session_files; set_solver | | by right].
  by left.
Qed.

Lemma sweep_file_invariant env now maxAge fs acc file :
  sweep_invariant now maxAge fs acc ->
  sweep_invariant now maxAge fs (sweep_file env now maxAge acc file).
Proof.
  intros Hinv. destruct acc as [reported cur]. unfold sweep_file.
  destruct (readMetadataFile file cur) as [metadata|]; [|done].
  set (sid := SessionMetadata.id metadata).
  destruct (now - getSessionLastActivity sid cur >? maxAge) eqn:Hold; [|done].
  destruct (readSession sid cur) as [session|] eqn:Hread; [|done].
  assert (Hstale : stale now maxAge sid fs).
  { destruct (sweep_invariant_session _ _ _ _ sid Hinv) as [[E1 E2] | [? _]]; [|done].
    unfold stale. cbn [fst snd] in E1, E2.
    rewrite <- (getSessionLastActivity_agree sid fs cur E1 E2). lia. }
  destruct Hinv as [Hfiles Hrep]. cbn [fst snd] in *. split; cbn [fst snd].
  - intros p. rewrite clearSessionFile_lookup.
    destruct (decide (p ∈ session_files sid)) as [Hin | Hout].
    + right. exists sid. repeat split; try done.
      intros q Hq. rewrite clearSessionFile_lookup. by rewrite decide_True.
    + destruct (Hfiles p) as [E | (sid' & Hp & Hst & Hnone)]; [by left|].
      right. exists sid'. repeat split; try done.
      intros q Hq. rewrite clearSessionFile_lookup. destruct (decide _); auto.
  - intros s Hs. destruct session as [session|]; [|by apply Hrep].
    apply elem_of_app in Hs as [Hs | Hs]; [by apply Hrep|].
    apply list_elem_of_singleton in Hs as ->.
    exists sid, session. repeat split; try done.
    destruct (sweep_invariant_session now maxAge fs (reported, cur) sid
                (conj Hfiles Hrep)) as [[E1 E2] | [_ Hnone]]; cbn [fst snd] in *.
    + by rewrite <- (readSession_agree sid fs cur E1 E2).
    + exfalso. unfold readSession in Hread.
      rewrite readSessionMetadata_lookup, Hnone in Hread; [discriminate|].
      unfold session_files. set_solver.
Qed.

Lemma sweep_invariant_fold env now maxAge fs files : forall acc,
  sweep_invariant now maxAge fs acc ->
  sweep_invariant now maxAge fs (fold_left (sweep_file env now maxAge) files acc).
Proof.
  induction files as [|file files IH]; intros acc Hinv; simpl; [done|].
  by apply IH, sweep_file_invariant.
Qed.

Lemma cleanupStaleSessions_invariant env maxAgeHours now fs :
  sweep_invariant now (maxAgeHours * 60 * 60 * 1000) fs
    (cleanupStaleSessions env maxAgeHours now fs).
Proof.
  unfold cleanupStaleSessions. apply sweep_invariant_fold.
  split; simpl; [by left|]. intros s Hs. by apply elem_of_nil in Hs.
Qed.

(** C5. The sweep keeps a session whose observation log was modified
    within the maximum age, however old its metadata file: all its files
    are after the sweep as they were before. The last activity that decides
    is the later of the two modification times; a file that the sweep
    removed belongs to a session whose last activity was older than the
    maximum age, and so does every session the sweep reports. *)
Theorem cleanupStaleSessions_keeps_recent_log env maxAgeHours now fs sessionId log :
  fs !! getObservationsFilePath sessionId = Some log ->
  now - mtimeMs log <= maxAgeHours * 60 * 60 * 1000 ->
  let maxAge := maxAgeHours * 60 * 60 * 1000 in
  let swept := cleanupStaleSessions env maxAgeHours now fs in
  (forall p, p ∈ session_files sessionId -> swept.2 !! p = fs !! p)
  /\ (forall meta, fs !! getSessionFilePath sessionId = Some meta ->
        getSessionLastActivity sessionId fs = Z.max 0 (Z.max (mtimeMs meta) (mtimeMs log)))
  /\ (forall p, swept.2 !! p <> fs !! p ->
        swept.2 !! p = None
        /\ exists sid, p ∈ session_files sid /\ stale now maxAge sid fs)
  /\ (forall s, s ∈ swept.1 ->
        exists sid s0, readSession sid fs = Ok (Some s0)
                       /\ s = finalized now s0 /\ stale now maxAge sid fs).
Proof.
  intros Hlog Hrecent maxAge swept.
  pose proof (cleanupStaleSessions_invariant env maxAgeHours now fs) as [Hfiles Hrep].
  fold maxAge swept in Hfiles, Hrep.
  repeat split.
  - intros p Hp. destruct (Hfiles p) as [E | (sid & Hp' & Hst & _)]; [done|].
    exfalso. pose proof (session_files_same_name _ _ _ Hp' Hp) as En.
    unfold stale in Hst. rewrite (getSessionLastActivity_name_eq _ _ fs En) in Hst.
    pose proof (getSessionLastActivity_log _ _ _ Hlog). lia.
  - intros meta Hmeta. by apply getSessionLastActivity_max.
  - destruct (Hfiles p) as [E | (sid & Hp & Hst & Hnone)]; [done|]. by apply Hnone.
  - destruct (Hfiles p) as [E | (sid & Hp & Hst & Hnone)]; [done|]. eauto.
  - exact Hrep.
Qed.

End Sweep.

(** ** Collisions and traversal *)

Section DerivedNames.

Lemma name_chars_no_separator s :
  Forall (fun a => is_name_char a = true) (list_ascii_of_string s) ->
  has_separator s = false /\ has_parent_segment s = false.
Proof.
  induction s as [|a s IH]; simpl; [done|].
  intros H. inversion H as [|? ? Ha Hs]; subst.
  destruct (IH Hs) as [-> ->].
  assert (is_separator a = false) as ->.
  { unfold is_name_char in Ha. unfold is_separator.
    destruct (N_of_ascii a) as [|p]; [done|].
    do 7 (try (destruct p as [p|p|]); try reflexivity); vm_compute in Ha; discriminate Ha. }
  assert (Ascii.eqb a "." = false) as ->; [|done].
  apply Ascii.eqb_neq. by apply name_char_not_dot.
Qed.

(** A derived name is made of [a-z0-9_] only: it holds no path separator
    and no parent-directory segment, whatever the identifier. *)
Lemma safeSessionFilename_traversal_safe sessionId :
  has_separator (safeSessionFilename sessionId) = false
  /\ has_parent_segment (safeSessionFilename sessionId) = false.
Proof. apply name_chars_no_separator, safeSessionFilename_chars. Qed.

Lemma has_parent_segment_derived sessionId ext :
  has_parent_segment (derived sessionId ext) = has_parent_segment (String dot ext).
Proof.
  unfold derived.
  pose proof (safeSessionFilename_chars sessionId) as H.
  induction (safeSessionFilename sessionId) as [|a s IH]; [done|].
  inversion H as [|? ? Ha Hs]; subst.
  change ((String a s) +:+ String dot ext) with (String a (s +:+ String dot ext)).
  cbn [has_parent_segment]. rewrite (IH Hs).
  assert (Ascii.eqb a "." = false) as ->; [|done].
  apply Ascii.eqb_neq. by apply name_char_not_dot.
Qed.

Lemma has_separator_app s t : has_separator (s +:+ t) = has_separator s || has_separator t.
Proof. induction s as [|a s IH]; simpl; [done|]. by rewrite IH, orb_assoc. Qed.

(** Nor do the names of the files of a session. *)
Lemma session_files_traversal_safe sessionId p :
  p ∈ session_files sessionId ->
  has_separator p = false /\ has_parent_segment p = false.
Proof.
  unfold session_files. to_derived. intros Hp.
  repeat (apply elem_of_cons in Hp as [-> | Hp]); try (by apply elem_of_nil in Hp);
    (split;
     [ unfold derived; rewrite has_separator_app;
       by rewrite (proj1 (safeSessionFilename_traversal_safe sessionId))
     | by rewrite has_parent_segment_derived ]).
Qed.

(** Identifiers with different digests get different names. *)
Lemma safeSessionFilename_distinct a b :
  hash16 a <> hash16 b -> safeSessionFilename a <> safeSessionFilename b.
Proof.
  intros Hne E. apply Hne. unfold safeSessionFilename in E.
  apply (f_equal list_ascii_of_string) in E.
  rewrite !list_ascii_of_string_of_list_ascii in E.
  apply app_inj_2 in E as [_ E].
  - exact (f_equal (@tail ascii) E).
  - cbn [length]. by rewrite !hash16_length.
Qed.

(** C6, at the input where the code departs from it. Two identifiers that
    differ only by an unpaired surrogate, a code unit no file name can hold,
    get the same derived name: the digest is taken over the UTF-8 encoding
    of the identifier, in which every unpaired surrogate is U+FFFD, and the
    readable prefix drops the code unit. *)
Theorem safeSessionFilename_surrogate_collision :
  let a := [97; 0xD800; 98] in
  let b := [97; 0xD801; 98] in
  differ_only_by_unsafe a b
  /\ utf8_encode a = utf8_encode b
  /\ safeSessionFilename a = "ab_05087813392efc16"%string
  /\ safeSessionFilename b = "ab_05087813392efc16"%string.
Proof. repeat split; try discriminate; vm_compute; reflexivity. Qed.

End DerivedNames.

(** ** The directories the store can be in *)

Section ReachableStores.

Context {rt : Runtime}.

(** Removing files, or changing files that are not metadata files, keeps
    the metadata files under their names. *)
Lemma store_consistent_shrink fs fs' :
  (forall sessionId,
      fs' !! getSessionFilePath sessionId = fs !! getSessionFilePath sessionId
      \/ fs' !! getSessionFilePath sessionId = None) ->
  store_consistent fs -> store_consistent fs'.
Proof.
  intros Hsub Hc sid m Hread. apply Hc.
  destruct (Hsub sid) as [E | E].
  - by rewrite <- (readSessionMetadata_agree sid fs fs' E).
  - rewrite readSessionMetadata_lookup, E in Hread. discriminate.
Qed.

Lemma addObservation_metadata gotLock sessionId observation now fs other :
  (addObservation gotLock sessionId observation now fs).2 !! getSessionFilePath other
  = fs !! getSessionFilePath other.
Proof.
  unfold addObservation.
  destruct (readSessionMetadata sessionId fs) as [m|]; [|done].
  case_bool_decide; [done|].
  unfold appendObservation. destruct gotLock; [|done]. cbn [negb snd].
  unfold releaseLock, unlinkSync, acquireLock, appendFileSync.
  rewrite lookup_delete_ne by path_ne.
  rewrite (lookup_insert_ne _ (getLockFilePath sessionId) (getObservationsFilePath sessionId))
    by path_ne.
  destruct (fs !! getObservationsFilePath sessionId) as [[[m'|t|] mt]|];
    cbn [data]; rewrite !lookup_insert_ne by path_ne; done.
Qed.

Lemma markBackgroundJobStarted_metadata gotLock sessionId now fs other :
  markBackgroundJobStarted gotLock sessionId now fs !! getSessionFilePath other
  = fs !! getSessionFilePath other.
Proof.
  destruct gotLock; [|done]. rewrite markBackgroundJobStarted_eq.
  rewrite lookup_delete_ne by path_ne. by rewrite lookup_insert_ne by path_ne.
Qed.

Lemma markBackgroundJobCompleted_metadata gotLock sessionId now fs other :
  markBackgroundJobCompleted gotLock sessionId now fs !! getSessionFilePath other
  = fs !! getSessionFilePath other.
Proof.
  destruct gotLock; [|done]. rewrite markBackgroundJobCompleted_eq.
  rewrite lookup_delete_ne by path_ne. cbn zeta.
  destruct (_ <=? 1).
  - by rewrite lookup_delete_ne by path_ne.
  - by rewrite lookup_insert_ne by path_ne.
Qed.

Lemma store_step_consistent fs fs' :
  store_step fs fs' -> store_consistent fs -> store_consistent fs'.
Proof.
  intros Hstep Hc. destruct Hstep.
  - by apply store_consistent_startSession.
  - eapply store_consistent_shrink; [|done]. intros sid. left.
    apply addObservation_metadata.
  - by apply store_consistent_perform.
  - eapply store_consistent_shrink; [|done]. intros sid. left.
    apply markBackgroundJobStarted_metadata.
  - eapply store_consistent_shrink; [|done]. intros sid. left.
    apply markBackgroundJobCompleted_metadata.
  - eapply store_consistent_shrink; [|done]. intros sid.
    rewrite clearSessionFile_lookup. destruct (decide _); auto.
  - eapply store_consistent_shrink; [|done]. intros sid.
    destruct (cleanupStaleSessions_invariant env maxAgeHours now fs) as [Hfiles _].
    destruct (Hfiles (getSessionFilePath sid)) as [E | (sid' & Hin & _ & Hnone)]; auto.
Qed.

(** Whatever the store did to an empty directory, every metadata file sits
    under the name derived from the [id] it holds. *)
Lemma reachable_consistent fs : reachable fs -> store_consistent fs.
Proof.
  unfold reachable. intros H.
  assert (forall a b, rtc store_step a b -> store_consistent a -> store_consistent b) as Hrtc.
  { induction 1 as [|a b c Hstep _ IH]; [done|].
    intros Ha. apply IH. by eapply store_step_consistent. }
  apply (Hrtc _ _ H), store_consistent_empty.
Qed.

(** Ending a session twice returns the same record twice, and the second
    call writes nothing. *)
Lemma endSession_twice sessionId kind1 kind2 now1 now2 fs :
  store_consistent fs ->
  is_Some (readSessionMetadata sessionId fs) ->
  endSession sessionId kind2 now2 (endSession sessionId kind1 now1 fs).2
  = endSession sessionId kind1 now1 fs.
Proof.
  intros Hc [m Hm]. unfold endSession at 2 3. rewrite Hm.
  case_bool_decide as Hs; cbn [snd].
  - unfold endSession. rewrite Hm. by rewrite bool_decide_eq_true_2.
  - set (m' := SessionMetadata.mk _ _ _ _ _ _ _ _ _ _).
    unfold endSession. rewrite readSessionMetadata_write.
    rewrite decide_True by (exact (Hc sessionId m Hm)).
    rewrite bool_decide_eq_true_2; [done|]. simpl. by destruct kind1.
Qed.

End ReachableStores.

(** * The theorems on the sample directory *)

Section Witnesses.

#[local] Existing Instance ReferenceRuntime.runtime.

Example sample_session_read : readSession sample_id sample_active = Ok (Some sample_session).
Proof. vm_compute. reflexivity. Qed.

Example sample_ended_read :
  readSessionMetadata sample_id sample_ended = Some sample_ended_metadata.
Proof. vm_compute. reflexivity. Qed.

Lemma addObservation_refuses_inactive_witness :
  (exists metadata, readSessionMetadata sample_id sample_ended = Some metadata
                    /\ SessionMetadata.status metadata <> active)
  /\ addObservation true sample_id sample_command 130000 sample_ended = (false, sample_ended).
Proof.
  assert (H : exists metadata, readSessionMetadata sample_id sample_ended = Some metadata
                               /\ SessionMetadata.status metadata <> active).
  { exists sample_ended_metadata. split; [vm_compute; reflexivity | discriminate]. }
  split; [exact H|].
  exact (proj1 (addObservation_refuses_inactive true sample_id sample_command 130000
                  sample_ended (or_intror (or_intror H)))).
Defined.

Lemma identity_fields_immutable_witness :
  readSessionMetadata sample_id sample_ended = Some sample_ended_metadata
  /\ exists after,
      readSessionMetadata sample_id
        (perform (UpdateSessionSummary "all done") sample_id 130000 sample_ended) = Some after
      /\ SessionMetadata.id after = sample_id
      /\ SessionMetadata.project after = "only-context"%string
      /\ SessionMetadata.projectPath after = "/work/only-context"%string.
Proof.
  assert (H : readSessionMetadata sample_id sample_ended = Some sample_ended_metadata)
    by (vm_compute; reflexivity).
  split; [exact H|].
  exact (identity_fields_immutable (UpdateSessionSummary "all done") sample_id 130000
           sample_ended sample_ended_metadata H).
Defined.

Lemma status_irreversible_witness :
  store_consistent sample_closed
  /\ stored_status sample_id sample_closed = Some completed
  /\ stored_status sample_id (perform_all sample_operations sample_closed) = Some completed.
Proof.
  assert (Hc : store_consistent sample_closed).
  { apply store_consistent_perform, store_consistent_startSession, store_consistent_empty. }
  assert (Hs : stored_status sample_id sample_closed = Some completed)
    by (vm_compute; reflexivity).
  split; [exact Hc | split; [exact Hs|]].
  exact (proj2 (proj2 (status_irreversible sample_closed Hc))
           sample_operations sample_id completed Hs (or_introl eq_refl)).
Defined.

Lemma readSession_counters_witness :
  readSession sample_id sample_active = Ok (Some sample_session)
  /\ Session.commandsRun sample_session =
     Z.of_nat (length (List.filter (observation_type_is "command")
                         (readObservations sample_id sample_active)))
  /\ Session.errorsEncountered sample_session =
     Z.of_nat (length (List.filter counts_as_error
                         (readObservations sample_id sample_active))).
Proof.
  assert (H : readSession sample_id sample_active = Ok (Some sample_session))
    by (vm_compute; reflexivity).
  split; [exact H|].
  pose proof (readSession_counters sample_id sample_active sample_session H) as T.
  exact (conj (proj1 (proj2 T)) (proj1 (proj2 (proj2 T)))).
Defined.

Lemma sample_command_valid : valid_record (JSON_stringify sample_command) sample_command.
Proof.
  split; [|split].
  - vm_compute. discriminate.
  - vm_compute. reflexivity.
  - eexists. split; [reflexivity|]. repeat split; try reflexivity. vm_compute. eauto.
Defined.

Lemma sample_edit_valid : valid_record (JSON_stringify sample_edit) sample_edit.
Proof.
  split; [|split].
  - vm_compute. discriminate.
  - vm_compute. reflexivity.
  - eexists. split; [reflexivity|]. repeat split; try reflexivity. vm_compute. eauto.
Defined.

Lemma readObservations_skips_malformed_witness :
  JSON_parse (Text.trim sample_bad_line) = None
  /\ readObservations sample_id sample_torn_log = [sample_command; sample_edit].
Proof.
  assert (Hbad : JSON_parse (Text.trim sample_bad_line) = None) by (vm_compute; reflexivity).
  split; [exact Hbad|].
  refine (proj1 (readObservations_skips_malformed sample_id sample_torn_log 5000
                   (JSON_stringify sample_command) sample_bad_line
                   (JSON_stringify sample_edit) sample_command sample_edit [EmptyString]
                   (lookup_insert_eq _ _ _) _ _ sample_command_valid Hbad sample_edit_valid)).
  - repeat constructor.
  - repeat constructor.
Defined.

Lemma pending_counter_balanced_witness :
  sample_started !! getPendingFilePath sample_id = None
  /\ completed_all sample_id [40; 50; 60] (started_all sample_id [10; 20; 30] sample_started)
       !! getPendingFilePath sample_id = None.
Proof.
  assert (H : sample_started !! getPendingFilePath sample_id = None)
    by (vm_compute; reflexivity).
  split; [exact H|].
  exact (proj1 (pending_counter_balanced sample_id 3 [10; 20; 30] [40; 50; 60]
                  sample_started H eq_refl eq_refl)).
Defined.

Lemma cleanupStaleSessions_keeps_recent_log_witness :
  sample_recent_log !! getObservationsFilePath sample_id
    = Some (File (Text (JSON_stringify sample_command +:+ String Text.newline EmptyString))
              10000000)
  /\ (mtimeMs <$> sample_recent_log !! getSessionFilePath sample_id) = Some 1000
  /\ forall p, p ∈ session_files sample_id ->
       (cleanupStaleSessions quiet_env 24 90000000 sample_recent_log).2 !! p
       = sample_recent_log !! p.
Proof.
  assert (H : sample_recent_log !! getObservationsFilePath sample_id
              = Some (File (Text (JSON_stringify sample_command
                                    +:+ String Text.newline EmptyString)) 10000000))
    by (vm_compute; reflexivity).
  split; [exact H | split; [vm_compute; reflexivity|]].
  refine (proj1 (cleanupStaleSessions_keeps_recent_log quiet_env 24 90000000
                   sample_recent_log sample_id _ H _)).
  vm_compute. discriminate.
Defined.

(** Without a recent log the same sweep removes the session. *)
Example sweep_removes_stale :
  (cleanupStaleSessions quiet_env 24 90000000 sample_started).2 = ∅
  /\ Session.status <$> (cleanupStaleSessions quiet_env 24 90000000 sample_started).1
     = [stopped].
Proof. split; vm_compute; reflexivity. Qed.

(** The counter file while jobs run. *)
Example pending_counter_running :
  data <$> (started_all sample_id [10; 20; 30] sample_started !! getPendingFilePath sample_id)
  = Some (Text "3").
Proof. vm_compute. reflexivity. Qed.

(** Text with a leading number reads as that number, text with none as no
    number: only the latter makes the conservative read report a pending job. *)
Example conservative_reads :
  getPendingJobCount "c.pending" true
    (<["c.pending"%string := File (Text "") 1]> ∅) = 1
  /\ getPendingJobCount "c.pending" true
       (<["c.pending"%string := File Unreadable 1]> ∅) = 1
  /\ getPendingJobCount "c.pending" false
       (<["c.pending"%string := File Unreadable 1]> ∅) = 0
  /\ getPendingJobCount "c.pending" true
       (<["c.pending"%string := File (Text "2 ") 1]> ∅) = 2
  /\ getPendingJobCount "c.pending" true ∅ = 0.
Proof. repeat split; vm_compute; reflexivity. Qed.

(** The wait loop on what it observes: an unreadable counter, a counter
    that holds no number and a counter of one job keep it waiting; it is left
    when the counter is gone, or when the time is up. *)
Example wait_loop_runs :
  let pending := getPendingFilePath sample_id in
  let unreadable : store := <[pending := File Unreadable 1]> ∅ in
  let torn : store := <[pending := File (Text "") 2]> ∅ in
  let one : store := <[pending := File (Text "1") 3]> ∅ in
  waitForPendingJobs pending 0 3000 [(0, unreadable); (100, torn); (200, one); (300, ∅)]
  = Drained
  /\ waitForPendingJobs pending 0 3000 [(0, unreadable); (100, torn); (200, one)] = Waiting
  /\ waitForPendingJobs pending 0 3000 [(0, unreadable); (2900, torn); (3000, ∅)] = TimedOut.
Proof. repeat split; vm_compute; reflexivity. Qed.

End Witnesses.

(** * Further properties of the store *)

(** ** Starting a session and appending to its log *)

Section StartAndAppend.

Context {rt : Runtime}.

Lemma readObservations_name_eq a b fs :
  safeSessionFilename a = safeSessionFilename b ->
  readObservations a fs = readObservations b fs.
Proof.
  intros E. unfold readObservations, getObservationsFilePath. by rewrite E.
Qed.

Lemma readSession_name_eq a b fs :
  safeSessionFilename a = safeSessionFilename b ->
  readSession a fs = readSession b fs.
Proof.
  intros E. unfold readSession.
  rewrite (readSessionMetadata_agree_path a b) by (unfold getSessionFilePath; by rewrite E).
  by rewrite (readObservations_name_eq a b).
Qed.

(** X1. [startSession] writes the metadata file of the session and no other
    file: the record stored is active, with the given project and path and
    without end time, duration or summary. A log already there under the
    identifier is kept, so the observations of the session are the ones it
    holds; without such a log the session reads as the one the call
    returned. *)
Theorem startSession_writes_active_record sessionId project projectPath now fs :
  let started := startSession sessionId project projectPath now fs in
  readSessionMetadata sessionId started.2
    = Some (SessionMetadata.mk sessionId project projectPath now None None active
              None now None)
  /\ (forall p, p <> getSessionFilePath sessionId -> started.2 !! p = fs !! p)
  /\ readObservations sessionId started.2 = readObservations sessionId fs
  /\ (fs !! getObservationsFilePath sessionId = None ->
      readSession sessionId started.2 = Ok (Some started.1)).
Proof.
  intros started.
  assert (Hframe : forall p, p <> getSessionFilePath sessionId -> started.2 !! p = fs !! p).
  { intros p Hp. unfold started, startSession, writeSessionMetadata. cbn [snd SessionMetadata.id].
    by rewrite lookup_insert_ne. }
  assert (Hmeta : readSessionMetadata sessionId started.2
                  = Some (SessionMetadata.mk sessionId project projectPath now None None
                            active None now None)).
  { unfold started, startSession. cbn [snd]. rewrite readSessionMetadata_write.
    by rewrite decide_True. }
  assert (Hobs : readObservations sessionId started.2 = readObservations sessionId fs).
  { apply readObservations_agree, Hframe. path_ne. }
  repeat split; try done.
  intros Hnone. unfold readSession. rewrite Hmeta, Hobs.
  unfold readObservations. apply existsSync_false in Hnone. rewrite Hnone. reflexivity.
Qed.

(** What a call that appends does to the directory. *)
Lemma addObservation_active sessionId observation now fs :
  is_active sessionId fs ->
  addObservation true sessionId observation now fs
  = (true,
     delete (getLockFilePath sessionId)
       (appendFileSync (getObservationsFilePath sessionId)
          (JSON_stringify observation +:+ String Text.newline EmptyString) now
          (<[getLockFilePath sessionId := lock_marker now]> fs))).
Proof.
  unfold is_active, stored_status, addObservation. intros H.
  destruct (readSessionMetadata sessionId fs) as [m|]; [|discriminate].
  injection H as H. rewrite bool_decide_eq_false_2 by (rewrite H; auto).
  reflexivity.
Qed.

Lemma appendFileSync_insert path text now fs :
  appendFileSync path text now fs = <[path := File (appended (fs !! path) text) now]> fs.
Proof.
  unfold appendFileSync, appended. destruct (fs !! path) as [[[m|s|] t]|]; reflexivity.
Qed.

Lemma addObservation_active_lookup sessionId observation now fs p :
  is_active sessionId fs ->
  (addObservation true sessionId observation now fs).2 !! p =
  if decide (p = getLockFilePath sessionId) then None
  else if decide (p = getObservationsFilePath sessionId) then
    Some (File (appended (fs !! getObservationsFilePath sessionId)
                  (JSON_stringify observation +:+ String Text.newline EmptyString)) now)
  else fs !! p.
Proof.
  intros H. rewrite (addObservation_active _ _ _ _ H). cbn [snd].
  rewrite appendFileSync_insert.
  rewrite (lookup_insert_ne _ (getLockFilePath sessionId) (getObservationsFilePath sessionId))
    by path_ne.
  rewrite lookup_delete. destruct (decide (getLockFilePath sessionId = p)) as [<- | Hl].
  - by rewrite decide_True.
  - rewrite decide_False by auto. rewrite lookup_insert.
    destruct (decide (getObservationsFilePath sessionId = p)) as [<- | Ho].
    + by rewrite decide_True.
    + rewrite decide_False by auto. by rewrite lookup_insert_ne.
Qed.

Lemma addObservation_keeps_active gotLock sessionId observation now fs other :
  is_active other fs ->
  is_active other (addObservation gotLock sessionId observation now fs).2.
Proof.
  unfold is_active, stored_status. intros H.
  by rewrite (readSessionMetadata_agree other fs _ (addObservation_metadata _ _ _ _ _ _)).
Qed.

Lemma string_app_assoc (s t u : string) : s +:+ (t +:+ u) = (s +:+ t) +:+ u.
Proof.
  induction s as [|a s IH]; [reflexivity|].
  change (String a (s +:+ (t +:+ u)) = String a ((s +:+ t) +:+ u)). by f_equal.
Qed.

(** A line appended to a log goes after its last line feed: it completes
    the last line, torn or empty. *)
Lemma join_lines_append lines torn line :
  join_lines (lines ++ [torn]) +:+ (line +:+ String Text.newline EmptyString)
  = join_lines (lines ++ [torn +:+ line; EmptyString]).
Proof.
  induction lines as [|l rest IH].
  - simpl. by rewrite string_app_assoc.
  - change ((l :: rest) ++ [torn]) with (l :: (rest ++ [torn])).
    change ((l :: rest) ++ [torn +:+ line; EmptyString])
      with (l :: (rest ++ [torn +:+ line; EmptyString])).
    cbn [join_lines].
    destruct (rest ++ [torn]) as [|x xs] eqn:E1; [by destruct rest|].
    destruct (rest ++ [torn +:+ line; EmptyString]) as [|y ys] eqn:E2; [by destruct rest|].
    rewrite <- IH. by rewrite <- string_app_assoc.
Qed.

Lemma no_newline_app s t :
  no_newline (s +:+ t) = no_newline s && no_newline t.
Proof. induction s as [|a s IH]; simpl; [done|]. by rewrite IH, andb_assoc. Qed.

(** The log after an append, when it was text of these lines and this
    unfinished last line. *)
Lemma addObservation_log sessionId observation now fs lines torn mtime :
  is_active sessionId fs ->
  fs !! getObservationsFilePath sessionId
    = Some (File (Text (join_lines (lines ++ [torn]))) mtime) ->
  (addObservation true sessionId observation now fs).2 !! getObservationsFilePath sessionId
  = Some (File (Text (join_lines (lines ++ [torn +:+ JSON_stringify observation;
                                           EmptyString]))) now).
Proof.
  intros Ha Hlog. rewrite (addObservation_active_lookup _ _ _ _ _ Ha).
  rewrite decide_False by path_ne. rewrite decide_True by done.
  rewrite Hlog. unfold appended. cbn [data]. by rewrite join_lines_append.
Qed.

Lemma addObservation_new_log sessionId observation now fs :
  is_active sessionId fs ->
  fs !! getObservationsFilePath sessionId = None ->
  (addObservation true sessionId observation now fs).2 !! getObservationsFilePath sessionId
  = Some (File (Text (join_lines ([] ++ [JSON_stringify observation; EmptyString]))) now).
Proof.
  intros Ha Hlog. rewrite (addObservation_active_lookup _ _ _ _ _ Ha).
  rewrite decide_False by path_ne. rewrite decide_True by done.
  rewrite Hlog. reflexivity.
Qed.

Lemma parse_line_empty : parse_line EmptyString = [].
Proof. apply parse_line_blank. reflexivity. Qed.

Lemma readObservations_absent sessionId fs :
  fs !! getObservationsFilePath sessionId = None -> readObservations sessionId fs = [].
Proof.
  intros H. unfold readObservations. apply existsSync_false in H. by rewrite H.
Qed.

(** One append to an intact log: the call returns [true], the log is
    intact again and reads as before with the observation at its end. *)
Lemma addObservation_intact sessionId observation now fs :
  is_active sessionId fs -> log_intact sessionId fs -> printable observation ->
  (addObservation true sessionId observation now fs).1 = true
  /\ log_intact sessionId (addObservation true sessionId observation now fs).2
  /\ readObservations sessionId (addObservation true sessionId observation now fs).2
     = readObservations sessionId fs ++ [observation].
Proof.
  intros Ha Hlog [Hnl Hvalid].
  split; [by rewrite (addObservation_active _ _ _ _ Ha)|].
  destruct Hlog as [Hnone | (lines & mtime & Hfile & Hlines)].
  - pose proof (addObservation_new_log _ observation now _ Ha Hnone) as Hnew.
    split.
    + right. exists [JSON_stringify observation], now. split; [exact Hnew|].
      by repeat constructor.
    + rewrite (readObservations_join_lines _ _ _ _ Hnew) by (by repeat constructor).
      rewrite (readObservations_absent _ _ Hnone). cbn [flat_map app].
      rewrite (parse_line_valid _ _ Hvalid). reflexivity.
  - pose proof (addObservation_log _ observation now _ _ _ _ Ha Hfile) as Hnew.
    change (EmptyString +:+ JSON_stringify observation)
      with (JSON_stringify observation) in Hnew.
    assert (Hall : Forall (fun l => no_newline l = true)
                     (lines ++ [JSON_stringify observation; EmptyString])).
    { apply Forall_app. split; [done|]. by repeat constructor. }
    split.
    + right. exists (lines ++ [JSON_stringify observation]), now.
      rewrite <- app_assoc. split; [exact Hnew|].
      apply Forall_app. split; [done|]. by repeat constructor.
    + rewrite (readObservations_join_lines _ _ _ _ Hnew Hall).
      rewrite (readObservations_join_lines _ _ _ _ Hfile)
        by (apply Forall_app; split; [done | by repeat constructor]).
      rewrite !flat_map_app. cbn [flat_map].
      rewrite (parse_line_valid _ _ Hvalid).
      rewrite parse_line_empty. by rewrite !app_nil_r.
Qed.

(** X2. Appends that follow one another are all read back, in their order:
    on an active session with an intact log, every call of [addObservation]
    that gets the lock returns [true], and afterwards [readObservations]
    gives what it gave before followed by the observations appended. *)
Theorem addObservations_read_back sessionId items fs :
  is_active sessionId fs ->
  log_intact sessionId fs ->
  Forall (fun item => printable item.1) items ->
  (addObservations sessionId items fs).1 = true
  /\ readObservations sessionId (addObservations sessionId items fs).2
     = readObservations sessionId fs ++ items.*1
  /\ log_intact sessionId (addObservations sessionId items fs).2.
Proof.
  unfold addObservations. intros Ha Hlog Hitems.
  assert (Hgen : forall acc : bool * store,
             acc.1 = true -> is_active sessionId acc.2 -> log_intact sessionId acc.2 ->
             let r := fold_left (fun acc '(observation, now) =>
                          let r := addObservation true sessionId observation now acc.2 in
                          (acc.1 && r.1, r.2)) items acc in
             r.1 = true
             /\ readObservations sessionId r.2 = readObservations sessionId acc.2 ++ items.*1
             /\ log_intact sessionId r.2).
  { induction Hitems as [|[obs now] rest Hp _ IH]; intros acc Hok Hact Hint.
    - cbn. by rewrite app_nil_r.
    - cbn [fold_left fmap list_fmap fst].
      destruct (addObservation_intact sessionId obs now acc.2 Hact Hint Hp)
        as (Htrue & Hint' & Hread).
      edestruct (IH (acc.1 && (addObservation true sessionId obs now acc.2).1,
                     (addObservation true sessionId obs now acc.2).2))
        as (H1 & H2 & H3); cbn [fst snd].
      + by rewrite Hok, Htrue.
      + by apply addObservation_keeps_active.
      + exact Hint'.
      + cbn [fst snd] in *. split; [exact H1 | split; [|exact H3]].
        rewrite H2, Hread. by rewrite <- app_assoc. }
  exact (Hgen (true, fs) eq_refl Ha Hlog).
Qed.

(** X3. An append after a torn last line completes that line. When the log
    ends in an unfinished line (a writer was killed), the text of the next
    observation is joined to it: the log reads as its earlier lines followed
    by what the joined line parses to, the observation itself is read back
    only if the joined line is a record, and the log is intact afterwards. *)
Theorem addObservation_after_torn_line sessionId observation now fs lines torn mtime :
  is_active sessionId fs ->
  fs !! getObservationsFilePath sessionId
    = Some (File (Text (join_lines (lines ++ [torn]))) mtime) ->
  Forall (fun l => no_newline l = true) (lines ++ [torn]) ->
  no_newline (JSON_stringify observation) = true ->
  readObservations sessionId (addObservation true sessionId observation now fs).2
  = flat_map parse_line lines ++ parse_line (torn +:+ JSON_stringify observation)
  /\ log_intact sessionId (addObservation true sessionId observation now fs).2
  /\ (malformed (torn +:+ JSON_stringify observation) ->
      readObservations sessionId (addObservation true sessionId observation now fs).2
      = flat_map parse_line lines).
Proof.
  intros Ha Hfile Hlines Hnl.
  pose proof (addObservation_log _ observation now _ _ _ _ Ha Hfile) as Hnew.
  apply Forall_app in Hlines as [Hl Ht]. inversion Ht as [|? ? Htorn _]; subst.
  assert (Hjoined : no_newline (torn +:+ JSON_stringify observation) = true)
    by (by rewrite no_newline_app, Htorn, Hnl).
  assert (Hall : Forall (fun l => no_newline l = true)
                   (lines ++ [torn +:+ JSON_stringify observation; EmptyString])).
  { apply Forall_app. split; [done|]. by repeat constructor. }
  assert (Hread : readObservations sessionId
                    (addObservation true sessionId observation now fs).2
                  = flat_map parse_line lines
                    ++ parse_line (torn +:+ JSON_stringify observation)).
  { rewrite (readObservations_join_lines _ _ _ _ Hnew Hall).
    rewrite flat_map_app. cbn [flat_map].
    rewrite parse_line_empty. by rewrite !app_nil_r. }
  split; [exact Hread | split].
  - right. exists (lines ++ [torn +:+ JSON_stringify observation]), now.
    rewrite <- app_assoc. split; [exact Hnew|].
    apply Forall_app. split; [done|]. by repeat constructor.
  - intros Hm. rewrite Hread, (parse_line_malformed _ Hm). by rewrite app_nil_r.
Qed.

End StartAndAppend.

(** ** Ending and updating a session *)

Section EndAndUpdate.

Context {rt : Runtime}.

Lemma readSessionMetadata_name_eq a b fs :
  safeSessionFilename a = safeSessionFilename b ->
  readSessionMetadata a fs = readSessionMetadata b fs.
Proof.
  intros E. apply readSessionMetadata_agree_path. unfold getSessionFilePath. by rewrite E.
Qed.

Lemma session_path_name_eq a b :
  getSessionFilePath a = getSessionFilePath b <-> safeSessionFilename a = safeSessionFilename b.
Proof.
  split.
  - rewrite !getSessionFilePath_derived. intros E. by apply derived_inj in E as [E _].
  - intros E. unfold getSessionFilePath. by rewrite E.
Qed.

Lemma round_minutes_bound ms :
  60000 * round_minutes ms - 30000 <= ms < 60000 * round_minutes ms + 30000.
Proof.
  unfold round_minutes.
  pose proof (Z.div_mod (ms + 30000) 60000 ltac:(lia)) as Hd.
  pose proof (Z.mod_pos_bound (ms + 30000) 60000 ltac:(lia)) as Hm. lia.
Qed.

(** X4. [endSession] on an active session closes it: the record stored
    afterwards has the status of the kind of end ([stopped] for a stop,
    [completed] otherwise), the end time of the call and the duration in
    minutes rounded to the nearest (within half a minute of the time
    elapsed); the other fields and the log are as they were, and the
    session returned is the one read back. *)
Theorem endSession_closes_active sessionId endType now fs metadata :
  store_consistent fs ->
  readSessionMetadata sessionId fs = Some metadata ->
  SessionMetadata.status metadata = active ->
  let ended := endSession sessionId endType now fs in
  let minutes := round_minutes (now - SessionMetadata.startTime metadata) in
  readSessionMetadata sessionId ended.2
    = Some (SessionMetadata.mk (SessionMetadata.id metadata)
              (SessionMetadata.project metadata) (SessionMetadata.projectPath metadata)
              (SessionMetadata.startTime metadata) (Some now) (Some minutes)
              (match endType with stop => stopped | end_ => completed end)
              (SessionMetadata.summary metadata) now
              (SessionMetadata.preCompactKnowledge metadata))
  /\ ended.1 = readSession sessionId ended.2
  /\ readObservations sessionId ended.2 = readObservations sessionId fs
  /\ 60000 * minutes - 30000 <= now - SessionMetadata.startTime metadata
       < 60000 * minutes + 30000.
Proof.
  intros Hc Hm Hs ended minutes.
  pose proof (Hc _ _ Hm) as Hpath.
  unfold ended, endSession. rewrite Hm.
  rewrite bool_decide_eq_false_2 by (rewrite Hs; auto). cbn [fst snd].
  repeat split.
  - rewrite readSessionMetadata_write. by rewrite decide_True.
  - apply readObservations_agree. unfold writeSessionMetadata. cbn [SessionMetadata.id].
    rewrite lookup_insert_ne; [done|]. path_ne.
  - apply round_minutes_bound.
  - apply round_minutes_bound.
Qed.

Lemma perform_lookup op s now fs p :
  store_consistent fs ->
  p <> getSessionFilePath s -> perform op s now fs !! p = fs !! p.
Proof.
  intros Hc Hp. destruct (perform_cases op s now fs) as [-> | (m & m' & Hm & -> & Hid & _)];
    [done|].
  unfold writeSessionMetadata. rewrite lookup_insert_ne; [done|].
  rewrite Hid, (Hc _ _ Hm). auto.
Qed.

(** X5. The knowledge recorded for a session only grows, and only by
    [updatePreCompactKnowledge] on that session: after any operation,
    [getPreCompactKnowledge] gives what it gave before, followed by the
    paths of the operation when it was an update of the knowledge of this
    session and the session has readable metadata. Nothing is removed or
    reordered, and a path recorded twice is kept twice. *)
Theorem perform_accumulates_knowledge op target sessionId now fs
    maxWaitMs startTime polls maxWaitMs' startTime' polls' :
  store_consistent fs ->
  (getPreCompactKnowledge sessionId maxWaitMs' startTime' polls'
     (perform op target now fs)).2
  = (getPreCompactKnowledge sessionId maxWaitMs startTime polls fs).2
    ++ match readSessionMetadata sessionId fs with
       | Some _ => knowledge_added op target (safeSessionFilename sessionId)
       | None => []
       end.
Proof.
  intros Hc. unfold getPreCompactKnowledge. cbn [snd].
  destruct (decide (safeSessionFilename target = safeSessionFilename sessionId)) as [E | Hne].
  - rewrite <- (readSessionMetadata_name_eq target sessionId) by done.
    rewrite <- (readSessionMetadata_name_eq target sessionId fs) by done.
    destruct (readSessionMetadata target fs) as [m|] eqn:Hm.
    + pose proof (Hc _ _ Hm) as Hpath.
      destruct op as [endType | summary | paths]; unfold perform, knowledge_added.
      * unfold endSession. rewrite Hm.
        destruct (bool_decide (SessionMetadata.status m <> active)); cbn [snd].
        -- rewrite Hm. by rewrite app_nil_r.
        -- rewrite readSessionMetadata_write, decide_True by done.
           cbn. by rewrite app_nil_r.
      * unfold updateSessionSummary. rewrite Hm. cbn [snd].
        rewrite readSessionMetadata_write, decide_True by done.
        cbn. by rewrite app_nil_r.
      * unfold updatePreCompactKnowledge. rewrite Hm. cbn [snd].
        rewrite readSessionMetadata_write, !decide_True by done.
        reflexivity.
    + assert (perform op target now fs = fs) as ->.
      { destruct op; unfold perform, endSession, updateSessionSummary,
          updatePreCompactKnowledge; by rewrite Hm. }
      rewrite Hm. reflexivity.
  - rewrite (readSessionMetadata_agree sessionId fs (perform op target now fs)).
    + assert (knowledge_added op target (safeSessionFilename sessionId) = []) as ->.
      { unfold knowledge_added. destruct op; try done. by rewrite decide_False. }
      destruct (readSessionMetadata sessionId fs); by rewrite app_nil_r.
    + apply perform_lookup; [done|]. intros E. apply Hne. symmetry.
      by apply session_path_name_eq.
Qed.

(** X6. [updateSessionSummary] sets the summary and nothing else that
    [readSession] shows: the session reads as before with the new summary,
    whatever its status (an ended session takes a summary too), so the last
    summary written is the one read; only the metadata file is written. *)
Theorem updateSessionSummary_sets_summary_only sessionId summary now fs session :
  store_consistent fs ->
  readSession sessionId fs = Ok (Some session) ->
  let updated := updateSessionSummary sessionId summary now fs in
  updated.1 = true
  /\ readSession sessionId updated.2 = Ok (Some (with_summary session summary))
  /\ (forall p, p <> getSessionFilePath sessionId -> updated.2 !! p = fs !! p).
Proof.
  intros Hc Hread updated.
  unfold readSession in Hread.
  destruct (readSessionMetadata sessionId fs) as [m|] eqn:Hm; [|discriminate].
  pose proof (Hc _ _ Hm) as Hpath.
  assert (Hframe : forall p, p <> getSessionFilePath sessionId -> updated.2 !! p = fs !! p).
  { intros p Hp. unfold updated, updateSessionSummary. rewrite Hm. cbn [snd].
    unfold writeSessionMetadata. cbn [SessionMetadata.id].
    rewrite lookup_insert_ne; [done|]. rewrite Hpath. auto. }
  repeat split; [by unfold updated, updateSessionSummary; rewrite Hm | | exact Hframe].
  unfold readSession.
  rewrite (readObservations_agree sessionId fs updated.2) by (apply Hframe; path_ne).
  unfold updated, updateSessionSummary. rewrite Hm. cbn [snd].
  rewrite readSessionMetadata_write, decide_True by done.
  destruct (count_observations (Counters [] 0 0) (readObservations sessionId fs)) as [c|];
    [|discriminate].
  cbn in Hread. injection Hread as <-. reflexivity.
Qed.

End EndAndUpdate.

(** ** Clearing a session, and sessions side by side *)

Section ClearAndFrame.

Context {rt : Runtime}.

Lemma readSessionMetadata_absent sessionId fs :
  fs !! getSessionFilePath sessionId = None -> readSessionMetadata sessionId fs = None.
Proof. intros H. by rewrite readSessionMetadata_lookup, H. Qed.

Lemma session_files_meta sessionId : getSessionFilePath sessionId ∈ session_files sessionId.
Proof. unfold session_files. set_solver. Qed.

Lemma session_files_log sessionId :
  getObservationsFilePath sessionId ∈ session_files sessionId.
Proof. unfold session_files. set_solver. Qed.

Lemma session_files_pending sessionId :
  getPendingFilePath sessionId ∈ session_files sessionId.
Proof. unfold session_files. set_solver. Qed.

Lemma session_files_pending_lock sessionId :
  getPendingLockPath sessionId ∈ session_files sessionId.
Proof. unfold session_files. set_solver. Qed.

Lemma session_files_lock sessionId : getLockFilePath sessionId ∈ session_files sessionId.
Proof. unfold session_files. set_solver. Qed.

(** X7. [clearSessionFile] removes the session whether or not it got the
    lock and however its wait for the background jobs ended: afterwards
    none of the five files of the session is there, so the session reads as
    [null], its pending counter reads zero in both modes and an observation
    for it is refused; every other file of the directory is as it was. *)
Theorem clearSessionFile_removes_session gotLock sessionId maxWaitMs startTime polls now fs :
  let cleared := (clearSessionFile gotLock sessionId maxWaitMs startTime polls now fs).2 in
  (forall p, p ∈ session_files sessionId -> cleared !! p = None)
  /\ (forall p, p ∉ session_files sessionId -> cleared !! p = fs !! p)
  /\ readSession sessionId cleared = Ok None
  /\ (forall conservative,
        getPendingJobCount (getPendingFilePath sessionId) conservative cleared = 0)
  /\ (forall gotLock' observation now',
        addObservation gotLock' sessionId observation now' cleared = (false, cleared))
  /\ (forall gotLock' maxWaitMs' startTime' polls' now',
        (clearSessionFile gotLock' sessionId maxWaitMs' startTime' polls' now' fs).2
        = cleared).
Proof.
  intros cleared.
  assert (Hin : forall p, p ∈ session_files sessionId -> cleared !! p = None).
  { intros p Hp. unfold cleared. rewrite clearSessionFile_lookup. by rewrite decide_True. }
  assert (Hmeta : readSessionMetadata sessionId cleared = None)
    by (apply readSessionMetadata_absent, Hin, session_files_meta).
  repeat split.
  - exact Hin.
  - intros p Hp. unfold cleared. rewrite clearSessionFile_lookup. by rewrite decide_False.
  - unfold readSession. by rewrite Hmeta.
  - intros c. apply getPendingJobCount_absent, Hin, session_files_pending.
  - intros g obs t. unfold addObservation. by rewrite Hmeta.
  - intros g w s ps t. apply map_eq. intros p. unfold cleared.
    by rewrite !clearSessionFile_lookup.
Qed.

(** A call on a session writes and removes only files of that session. *)
Lemma session_step_frame sessionId fs fs' p :
  store_consistent fs -> session_step sessionId fs fs' ->
  p ∉ session_files sessionId -> fs' !! p = fs !! p.
Proof.
  intros Hc Hstep Hp.
  assert (Hm : p <> getSessionFilePath sessionId)
    by (intros ->; apply Hp, session_files_meta).
  assert (Ho : p <> getObservationsFilePath sessionId)
    by (intros ->; apply Hp, session_files_log).
  assert (Hn : p <> getPendingFilePath sessionId)
    by (intros ->; apply Hp, session_files_pending).
  assert (Hnl : p <> getPendingLockPath sessionId)
    by (intros ->; apply Hp, session_files_pending_lock).
  assert (Hl : p <> getLockFilePath sessionId)
    by (intros ->; apply Hp, session_files_lock).
  destruct Hstep as [project projectPath now fs | gotLock obs now fs | op now fs
                    | gotLock now fs | gotLock now fs | gotLock w s polls now fs].
  - unfold startSession, writeSessionMetadata. cbn [snd SessionMetadata.id].
    by rewrite lookup_insert_ne.
  - unfold addObservation.
    destruct (readSessionMetadata sessionId fs) as [m|]; [|done].
    destruct (bool_decide (SessionMetadata.status m <> active)); [done|].
    destruct gotLock; [|done].
    unfold appendObservation, acquireLock, releaseLock, unlinkSync. cbn [negb snd].
    rewrite appendFileSync_insert.
    rewrite lookup_delete_ne by auto. rewrite lookup_insert_ne by auto.
    by rewrite lookup_insert_ne by auto.
  - by apply perform_lookup.
  - destruct gotLock; [|done]. rewrite markBackgroundJobStarted_eq.
    rewrite lookup_delete_ne by auto. by rewrite lookup_insert_ne by auto.
  - destruct gotLock; [|done]. rewrite markBackgroundJobCompleted_eq.
    rewrite lookup_delete_ne by auto. cbn zeta.
    destruct (_ <=? 1).
    + by rewrite lookup_delete_ne by auto.
    + by rewrite lookup_insert_ne by auto.
  - rewrite clearSessionFile_lookup. by rewrite decide_False.
Qed.

(** X8. Sessions do not disturb one another. A call of the store on one
    session (start, append, end, update, counter, clear) changes no file of
    a session whose derived name differs: that session reads as before, and
    its pending counter and its last activity are as before. *)
Theorem session_step_leaves_other_sessions sessionId other fs fs' :
  store_consistent fs ->
  session_step sessionId fs fs' ->
  safeSessionFilename sessionId <> safeSessionFilename other ->
  (forall p, p ∈ session_files other -> fs' !! p = fs !! p)
  /\ readSession other fs' = readSession other fs
  /\ (forall conservative,
        getPendingJobCount (getPendingFilePath other) conservative fs'
        = getPendingJobCount (getPendingFilePath other) conservative fs)
  /\ getSessionLastActivity other fs' = getSessionLastActivity other fs.
Proof.
  intros Hc Hstep Hne.
  assert (Hfiles : forall p, p ∈ session_files other -> fs' !! p = fs !! p).
  { intros p Hp. apply (session_step_frame sessionId); [done | done |].
    intros Hp'. apply Hne. exact (session_files_same_name _ _ _ Hp' Hp). }
  repeat split.
  - exact Hfiles.
  - apply readSession_agree; apply Hfiles; [apply session_files_meta | apply session_files_log].
  - intros c. apply getPendingJobCount_agree, Hfiles, session_files_pending.
  - apply getSessionLastActivity_agree; apply Hfiles;
      [apply session_files_meta | apply session_files_log].
Qed.

End ClearAndFrame.

(** ** The pending counter, whatever its file holds *)

Section CounterExact.

Context {rt : Runtime}.

Lemma getPendingJobCount_text pendingPath conservative fs n mtime :
  fs !! pendingPath = Some (File (Text (Text.number_to_string n)) mtime) ->
  getPendingJobCount pendingPath conservative fs = n.
Proof.
  intros E. unfold getPendingJobCount, existsSync, readFileSync. rewrite E.
  rewrite bool_decide_eq_true_2 by eauto. cbn.
  by rewrite parseInt_number_to_string.
Qed.


End CounterExact.

(** ** When reading a session fails *)

Section ReadFailure.

Context {rt : Runtime}.

Lemma has_required_fields_object obs :
  has_required_fields obs = Ok true -> exists fields, obs = JObj fields.
Proof.
  unfold has_required_fields. destruct obs; cbn; try discriminate. eauto.
Qed.

Lemma parse_line_accepted line obs :
  obs ∈ parse_line line -> has_required_fields obs = Ok true.
Proof.
  unfold parse_line. destruct (String.eqb _ _); [by intros ?%elem_of_nil|].
  destruct (JSON_parse _) as [o|]; [|by intros ?%elem_of_nil].
  destruct (has_required_fields o) as [[|]|] eqn:E; try by intros ?%elem_of_nil.
  intros ->%list_elem_of_singleton. exact E.
Qed.

Lemma readObservations_accepted sessionId fs obs :
  obs ∈ readObservations sessionId fs -> has_required_fields obs = Ok true.
Proof.
  unfold readObservations. destruct (negb _); [by intros ?%elem_of_nil|].
  destruct (readFileSync _ _) as [content|]; [|by intros ?%elem_of_nil].
  intros (line & _ & Hobs)%list_elem_of_In%in_flat_map.
  apply list_elem_of_In in Hobs. by eapply parse_line_accepted.
Qed.

(** The turn of the loop of [readSession] on an object throws exactly on a
    [file_edit] whose [data] is missing or [null]. *)
Lemma count_observation_throws c fields :
  count_observation c (JObj fields) = Throw <-> breaks_readSession (JObj fields) = true.
Proof.
  unfold count_observation, breaks_readSession, observation_type_is. cbn [Js.get].
  cbn [mbind result_bind].
  destruct (Js.is_string (Js.lookup_field "type" fields) "file_edit") eqn:Et;
    cbn [andb mbind result_bind].
  - destruct (Js.lookup_field "data" fields) as [d|]; cbn [Js.get_opt]; [|done].
    destruct d as [| | | | |dfields]; cbn [Js.get mbind result_bind mret result_ret];
      try done;
      try (destruct (_ || _); done).
    destruct (Js.lookup_field "path" dfields) as [v|];
      repeat (match goal with
              | |- context [if ?b then _ else _] => destruct b
              end; cbn [mbind result_bind mret result_ret]);
      done.
  - repeat (match goal with
            | |- context [if ?b then _ else _] => destruct b
            end; cbn [mbind result_bind mret result_ret]);
      done.
Qed.

Lemma count_observations_throws observations : forall c,
  Forall (fun obs => has_required_fields obs = Ok true) observations ->
  count_observations c observations = Throw
  <-> exists obs, obs ∈ observations /\ breaks_readSession obs = true.
Proof.
  induction observations as [|obs rest IH]; intros c Hall.
  - split; [discriminate | by intros (o & ?%elem_of_nil & _)].
  - inversion Hall as [|? ? Hobs Hrest]; subst.
    destruct (has_required_fields_object _ Hobs) as [fields ->].
    cbn [count_observations].
    destruct (count_observation c (JObj fields)) as [c'|] eqn:E; cbn [mbind result_bind].
    + rewrite (IH c' Hrest). split.
      * intros (o & Ho & Hb). exists o. split; [by right | done].
      * intros (o & Ho & Hb). apply elem_of_cons in Ho as [-> | Ho]; [|eauto].
        apply (count_observation_throws c) in Hb. congruence.
    + split; [|done]. intros _. exists (JObj fields). split; [by left|].
      by apply (count_observation_throws c).
Qed.

(** X10. [readSession] throws exactly when the session has readable
    metadata and its log holds an accepted record of type [file_edit] whose
    [data] is missing or [null]: one such record makes the whole session
    unreadable, and in every other case a result is returned. *)
Theorem readSession_throws_iff sessionId fs :
  readSession sessionId fs = Throw
  <-> is_Some (readSessionMetadata sessionId fs)
      /\ exists obs, obs ∈ readObservations sessionId fs /\ breaks_readSession obs = true.
Proof.
  unfold readSession.
  destruct (readSessionMetadata sessionId fs) as [m|].
  - pose proof (count_observations_throws (readObservations sessionId fs) (Counters [] 0 0))
      as Hthrows.
    rewrite <- Hthrows.
    + destruct (count_observations _ _); cbn [mbind result_bind mret result_ret].
      * split; [discriminate | by intros [_ ?]].
      * split; [by eauto | done].
    + apply Forall_forall. intros obs. apply readObservations_accepted.
  - split; [discriminate | by intros [[? [=]] _]].
Qed.

End ReadFailure.

(** ** Ending a session that has ended *)

Section TerminalEnd.

Context {rt : Runtime}.

(** What [readSession] returns when no record of the log makes it throw. *)
Lemma readSession_record sessionId fs metadata :
  readSessionMetadata sessionId fs = Some metadata ->
  (forall obs, obs ∈ readObservations sessionId fs -> breaks_readSession obs = false) ->
  exists c,
    readSession sessionId fs
    = Ok (Some (Session.mk (SessionMetadata.id metadata) (SessionMetadata.project metadata)
                  (SessionMetadata.projectPath metadata)
                  (SessionMetadata.startTime metadata) (SessionMetadata.endTime metadata)
                  (SessionMetadata.durationMinutes metadata)
                  (SessionMetadata.status metadata) (readObservations sessionId fs)
                  (SessionMetadata.summary metadata)
                  (c_filesModified c) (c_commandsRun c) (c_errorsEncountered c))).
Proof.
  intros Hm Hsound. unfold readSession. rewrite Hm.
  destruct (count_observations (Counters [] 0 0) (readObservations sessionId fs))
    as [c|] eqn:E; [by exists c|].
  exfalso. apply count_observations_throws in E as (obs & Hin & Hb).
  - by rewrite (Hsound obs Hin) in Hb.
  - apply Forall_forall. intros obs. apply readObservations_accepted.
Qed.

(** C1. [endSession] on a session whose stored status is already
    [completed] or [stopped] leaves every file of the directory as it was,
    so neither the end time nor the duration is written again, and it
    answers as [readSession] does on the session as stored. When no
    accepted record of the log is a [file_edit] without [data], that answer
    is the current record of the session: the stored identity, times,
    status and summary, and the observations of the log. *)
Theorem endSession_terminal_unchanged sessionId endType now fs metadata :
  readSessionMetadata sessionId fs = Some metadata ->
  SessionMetadata.status metadata = completed \/ SessionMetadata.status metadata = stopped ->
  (endSession sessionId endType now fs).2 = fs
  /\ readSessionMetadata sessionId (endSession sessionId endType now fs).2 = Some metadata
  /\ (endSession sessionId endType now fs).1 = readSession sessionId fs
  /\ ((forall obs, obs ∈ readObservations sessionId fs -> breaks_readSession obs = false) ->
      exists session,
        endSession sessionId endType now fs = (Ok (Some session), fs)
        /\ Session.id session = SessionMetadata.id metadata
        /\ Session.project session = SessionMetadata.project metadata
        /\ Session.projectPath session = SessionMetadata.projectPath metadata
        /\ Session.startTime session = SessionMetadata.startTime metadata
        /\ Session.endTime session = SessionMetadata.endTime metadata
        /\ Session.durationMinutes session = SessionMetadata.durationMinutes metadata
        /\ Session.status session = SessionMetadata.status metadata
        /\ Session.summary session = SessionMetadata.summary metadata
        /\ Session.observations session = readObservations sessionId fs).
Proof.
  intros Hread Hstatus.
  assert (E : endSession sessionId endType now fs = (readSession sessionId fs, fs)).
  { unfold endSession. rewrite Hread.
    by rewrite bool_decide_eq_true_2 by (destruct Hstatus as [-> | ->]; discriminate). }
  rewrite E. cbn [fst snd].
  split; [done | split; [done | split; [done|]]].
  intros Hsound. destruct (readSession_record _ _ _ Hread Hsound) as [c ->].
  eexists. split; [reflexivity|]. repeat split.
Qed.

End TerminalEnd.

(** ** The names of the metadata files *)

Section MetadataNames.

Context {rt : Runtime}.

Lemma string_length_app (a b : string) :
  String.length (a +:+ b) = (String.length a + String.length b)%nat.
Proof.
  induction a as [|c a IH]; [reflexivity|].
  change (String c a +:+ b) with (String c (a +:+ b)). cbn [String.length Nat.add].
  by rewrite IH.
Qed.

Lemma endsWith_app (a b suffix : string) :
  (String.length suffix <= String.length b)%nat ->
  Text.endsWith (a +:+ b) suffix = Text.endsWith b suffix.
Proof.
  intros Hlen. induction a as [|c a IH]; [reflexivity|].
  change (String c a +:+ b) with (String c (a +:+ b)). cbn [Text.endsWith].
  rewrite IH.
  assert (String.eqb (String c (a +:+ b)) suffix = false) as ->; [|done].
  apply String.eqb_neq. intros E. apply (f_equal String.length) in E.
  cbn [String.length] in E. rewrite string_length_app in E. lia.
Qed.

Lemma is_metadata_file_name_derived sessionId ext :
  (4 <= String.length ext)%nat ->
  is_metadata_file_name (derived sessionId ext) = is_metadata_file_name (String dot ext).
Proof.
  intros Hlen. unfold is_metadata_file_name, derived.
  rewrite !endsWith_app by (cbn [String.length]; lia). reflexivity.
Qed.

Lemma is_metadata_file_name_session sessionId :
  is_metadata_file_name (getSessionFilePath sessionId) = true.
Proof.
  rewrite getSessionFilePath_derived, is_metadata_file_name_derived by (cbn; lia).
  reflexivity.
Qed.

Lemma not_metadata_log sessionId :
  is_metadata_file_name (getObservationsFilePath sessionId) = false.
Proof.
  rewrite getObservationsFilePath_derived, is_metadata_file_name_derived by (cbn; lia).
  reflexivity.
Qed.

Lemma not_metadata_lock sessionId :
  is_metadata_file_name (getLockFilePath sessionId) = false.
Proof.
  rewrite getLockFilePath_derived, is_metadata_file_name_derived by (cbn; lia).
  reflexivity.
Qed.

Lemma not_metadata_pending sessionId :
  is_metadata_file_name (getPendingFilePath sessionId) = false.
Proof.
  rewrite getPendingFilePath_derived, is_metadata_file_name_derived by (cbn; lia).
  reflexivity.
Qed.

Lemma not_metadata_pending_lock sessionId :
  is_metadata_file_name (getPendingLockPath sessionId) = false.
Proof.
  rewrite getPendingLockPath_derived, is_metadata_file_name_derived by (cbn; lia).
  reflexivity.
Qed.

Lemma metadata_name_in_session_files f sessionId :
  is_metadata_file_name f = true -> f ∈ session_files sessionId ->
  f = getSessionFilePath sessionId.
Proof.
  intros Hf Hin. unfold session_files in Hin.
  repeat (apply elem_of_cons in Hin as [-> | Hin]); try done.
  - by rewrite not_metadata_log in Hf.
  - by rewrite not_metadata_pending in Hf.
  - by rewrite not_metadata_pending_lock in Hf.
  - by rewrite not_metadata_lock in Hf.
  - by apply elem_of_nil in Hin.
Qed.

Lemma elem_of_readdirSync f fs : f ∈ readdirSync fs <-> is_Some (fs !! f).
Proof.
  unfold readdirSync. rewrite list_elem_of_fmap. split.
  - intros ([k v] & -> & H%elem_of_map_to_list). eauto.
  - intros [v Hv]. exists (f, v). split; [done|]. by apply elem_of_map_to_list.
Qed.

Lemma readMetadataFile_agree f fs fs' :
  fs' !! f = fs !! f -> readMetadataFile f fs' = readMetadataFile f fs.
Proof. intros E. unfold readMetadataFile. by rewrite E. Qed.

Lemma readMetadataFile_session sessionId fs m :
  readSessionMetadata sessionId fs = Some m
  <-> readMetadataFile (getSessionFilePath sessionId) fs = Ok m.
Proof.
  rewrite readSessionMetadata_lookup. unfold readMetadataFile.
  destruct (fs !! getSessionFilePath sessionId) as [[[m'|s|] t]|]; cbn [data];
    try (split; discriminate).
  - split; congruence.
  - destruct (JSON_parse_metadata s); split; congruence.
Qed.

Lemma readMetadataFile_readable f fs m :
  readMetadataFile f fs = Ok m -> is_Some (fs !! f).
Proof. unfold readMetadataFile. destruct (fs !! f); [eauto | discriminate]. Qed.

Lemma store_named_consistent fs : store_named fs -> store_consistent fs.
Proof.
  intros Hn sid m Hm. apply readMetadataFile_session in Hm.
  symmetry. apply (Hn _ _ (is_metadata_file_name_session sid) Hm).
Qed.

Lemma store_named_empty : store_named ∅.
Proof. intros f m _. unfold readMetadataFile. by rewrite lookup_empty. Qed.

Lemma store_named_shrink fs fs' :
  store_named fs ->
  (forall f, is_metadata_file_name f = true -> fs' !! f = fs !! f \/ fs' !! f = None) ->
  store_named fs'.
Proof.
  intros Hn Hsub f m Hf Hm. destruct (Hsub f Hf) as [E | E].
  - apply (Hn f m Hf). by rewrite <- (readMetadataFile_agree f fs fs' E).
  - unfold readMetadataFile in Hm. by rewrite E in Hm.
Qed.

Lemma store_named_write metadata now fs :
  store_named fs -> store_named (writeSessionMetadata metadata now fs).
Proof.
  intros Hn f m Hf Hm. unfold writeSessionMetadata, readMetadataFile in Hm.
  destruct (decide (getSessionFilePath (SessionMetadata.id metadata) = f)) as [<- | Hne].
  - rewrite lookup_insert_eq in Hm. cbn in Hm. by injection Hm as <-.
  - rewrite lookup_insert_ne in Hm by done. by apply (Hn f m Hf).
Qed.

Lemma store_named_startSession sessionId project projectPath now fs :
  store_named fs -> store_named (startSession sessionId project projectPath now fs).2.
Proof. apply store_named_write. Qed.

Lemma store_step_named fs fs' : store_step fs fs' -> store_named fs -> store_named fs'.
Proof.
  intros Hstep Hn.
  destruct Hstep as [sid project projectPath now fs | gotLock sid obs now fs | op sid now fs
                    | gotLock sid now fs | gotLock sid now fs
                    | gotLock sid w s polls now fs | env hours now fs].
  - by apply store_named_write.
  - apply (store_named_shrink fs); [done|]. intros f Hf. left.
    assert (f <> getObservationsFilePath sid)
      by (intros ->; by rewrite not_metadata_log in Hf).
    assert (f <> getLockFilePath sid) by (intros ->; by rewrite not_metadata_lock in Hf).
    unfold addObservation.
    destruct (readSessionMetadata sid fs) as [m|]; [|done].
    destruct (bool_decide (SessionMetadata.status m <> active)); [done|].
    destruct gotLock; [|done].
    unfold appendObservation, acquireLock, releaseLock, unlinkSync. cbn [negb snd].
    rewrite appendFileSync_insert.
    rewrite lookup_delete_ne by auto. rewrite lookup_insert_ne by auto.
    by rewrite lookup_insert_ne by auto.
  - destruct (perform_cases op sid now fs) as [-> | (m & m' & _ & -> & _)]; [done|].
    by apply store_named_write.
  - apply (store_named_shrink fs); [done|]. intros f Hf. left.
    assert (f <> getPendingFilePath sid)
      by (intros ->; by rewrite not_metadata_pending in Hf).
    assert (f <> getPendingLockPath sid)
      by (intros ->; by rewrite not_metadata_pending_lock in Hf).
    destruct gotLock; [|done]. rewrite markBackgroundJobStarted_eq.
    rewrite lookup_delete_ne by auto. by rewrite lookup_insert_ne by auto.
  - apply (store_named_shrink fs); [done|]. intros f Hf. left.
    assert (f <> getPendingFilePath sid)
      by (intros ->; by rewrite not_metadata_pending in Hf).
    assert (f <> getPendingLockPath sid)
      by (intros ->; by rewrite not_metadata_pending_lock in Hf).
    destruct gotLock; [|done]. rewrite markBackgroundJobCompleted_eq.
    rewrite lookup_delete_ne by auto. cbn zeta.
    destruct (_ <=? 1).
    + by rewrite lookup_delete_ne by auto.
    + by rewrite lookup_insert_ne by auto.
  - apply (store_named_shrink fs); [done|]. intros f _.
    rewrite clearSessionFile_lookup. destruct (decide _); auto.
  - apply (store_named_shrink fs); [done|]. intros f _.
    destruct (cleanupStaleSessions_invariant env hours now fs) as [Hfiles _].
    destruct (Hfiles f) as [E | (sid & Hin & _ & Hnone)]; [by left|].
    right. by apply Hnone.
Qed.

Lemma rtc_store_named fs fs' : rtc store_step fs fs' -> store_named fs -> store_named fs'.
Proof. induction 1 as [|? ? ? Hstep _ IH]; [done|]. intros Hn. by apply IH, (store_step_named x). Qed.

(** X11. The metadata files keep their names: in every directory that the
    operations of the store build from the empty one, a file whose name
    ends in [.json] (and not in [.tmp]) and whose content reads as metadata
    sits under the name derived from the [id] it holds. The log, the lock
    and the counter of a session never carry such a name. *)
Theorem reachable_store_named fs :
  reachable fs ->
  store_named fs
  /\ forall sessionId f,
       f ∈ session_files sessionId -> is_metadata_file_name f = true ->
       f = getSessionFilePath sessionId.
Proof.
  intros Hr. split.
  - exact (rtc_store_named _ _ Hr store_named_empty).
  - intros sid f Hin Hf. by apply metadata_name_in_session_files.
Qed.

End MetadataNames.

(** ** The list of active sessions *)

Section ActiveList.

Context {rt : Runtime}.

Lemma elem_of_List_filter {A} (f : A -> bool) (l : list A) (x : A) :
  x ∈ List.filter f l <-> x ∈ l /\ f x = true.
Proof. rewrite !list_elem_of_In. apply filter_In. Qed.

Lemma elem_of_list_file fs sessions file s :
  s ∈ list_file fs sessions file
  <-> s ∈ sessions
      \/ exists m, readMetadataFile file fs = Ok m
                   /\ SessionMetadata.status m = active
                   /\ readSession (SessionMetadata.id m) fs = Ok (Some s).
Proof.
  unfold list_file.
  destruct (readMetadataFile file fs) as [m|]; [|split; [auto | by intros [? | (? & [=] & _)]]].
  case_bool_decide as Hact.
  - destruct (readSession (SessionMetadata.id m) fs) as [[session|]|] eqn:Hread.
    + rewrite elem_of_app, list_elem_of_singleton. split.
      * intros [? | ->]; [by left | right; eauto].
      * intros [? | (m' & [= <-] & _ & H)]; [auto|].
        rewrite Hread in H. injection H as <-. auto.
    + split; [auto | intros [? | (m' & [= <-] & _ & H)]; [done | congruence]].
    + split; [auto | intros [? | (m' & [= <-] & _ & H)]; [done | congruence]].
  - split; [auto | intros [? | (m' & [= <-] & ? & _)]; done].
Qed.

Lemma elem_of_list_files fs files : forall sessions s,
  s ∈ fold_left (list_file fs) files sessions
  <-> s ∈ sessions
      \/ exists file m, file ∈ files
                        /\ readMetadataFile file fs = Ok m
                        /\ SessionMetadata.status m = active
                        /\ readSession (SessionMetadata.id m) fs = Ok (Some s).
Proof.
  induction files as [|file files IH]; intros sessions s; cbn [fold_left].
  - split; [auto | by intros [? | (? & ? & ?%elem_of_nil & _)]].
  - rewrite IH, elem_of_list_file. split.
    + intros [[? | (m & ? & ? & ?)] | (f & m & ? & ?)]; [by left | right | right].
      * exists file, m. split; [by left | done].
      * exists f, m. split; [by right | done].
    + intros [? | (f & m & [-> | Hin]%elem_of_cons & ?)]; [by left; left | |].
      * left. right. by exists m.
      * right. by exists f, m.
Qed.

(** X12. [listActiveSessions] lists the active sessions, all of them and
    no other: in a directory whose metadata files sit under their derived
    names, a session is in the list exactly when it is what [readSession]
    gives for some identifier and its status is [active]. A session whose
    reading throws is left out, and [readCurrentSession] gives a session of
    this list, or [null] when the list is empty. *)
Theorem listActiveSessions_lists_active fs session :
  store_named fs ->
  (session ∈ listActiveSessions fs
   <-> Session.status session = active
       /\ exists sessionId, readSession sessionId fs = Ok (Some session))
  /\ (forall current, readCurrentSession fs = Some current ->
        current ∈ listActiveSessions fs)
  /\ (readCurrentSession fs = None <-> listActiveSessions fs = []).
Proof.
  intros Hn. split; [|split].
  - unfold listActiveSessions. rewrite elem_of_list_files. split.
    + intros [?%elem_of_nil | (file & m & Hin & Hm & Hact & Hread)]; [done|].
      apply elem_of_List_filter in Hin as [_ Hname].
      pose proof (Hn _ _ Hname Hm) as ->.
      apply readMetadataFile_session in Hm.
      split; [|eauto].
      unfold readSession in Hread. rewrite Hm in Hread.
      destruct (count_observations _ _); [|discriminate].
      cbn in Hread. by injection Hread as <-.
    + intros [Hact (sid & Hread)]. right.
      assert (exists m, readSessionMetadata sid fs = Some m) as [m Hm].
      { unfold readSession in Hread.
        destruct (readSessionMetadata sid fs); [eauto | discriminate]. }
      assert (SessionMetadata.status m = active) as Hstatus.
      { unfold readSession in Hread. rewrite Hm in Hread.
        destruct (count_observations _ _); [|discriminate].
        cbn in Hread. injection Hread as <-. exact Hact. }
      pose proof (proj1 (readMetadataFile_session _ _ _) Hm) as Hfile.
      exists (getSessionFilePath sid), m. repeat split; try done.
      * apply elem_of_List_filter. split; [|apply is_metadata_file_name_session].
        apply elem_of_readdirSync. by eapply readMetadataFile_readable.
      * rewrite <- Hread. apply readSession_name_eq.
        pose proof (Hn _ _ (is_metadata_file_name_session sid) Hfile) as E.
        symmetry. by apply session_path_name_eq.
  - intros current. unfold readCurrentSession.
    destruct (listActiveSessions fs) as [|s rest]; [discriminate|].
    intros [= <-]. by left.
  - unfold readCurrentSession. destruct (listActiveSessions fs); split; congruence.
Qed.

End ActiveList.

(** ** What the sweep removes and what it leaves *)

Section SweepExact.

Context {rt : Runtime}.

Lemma swept_by_name_eq now maxAge fs processed a b :
  safeSessionFilename a = safeSessionFilename b ->
  swept_by now maxAge fs processed a -> swept_by now maxAge fs processed b.
Proof.
  intros E (Hst & [s Hs] & file & m & Hin & Hm & En). repeat split.
  - unfold stale in *. by rewrite <- (getSessionLastActivity_name_eq a b fs E).
  - exists s. by rewrite <- (readSession_name_eq a b fs E).
  - exists file, m. repeat split; try done. congruence.
Qed.

Lemma swept_by_mono now maxAge fs processed processed' sid :
  (forall f, f ∈ processed -> f ∈ processed') ->
  swept_by now maxAge fs processed sid -> swept_by now maxAge fs processed' sid.
Proof.
  intros Hsub (Hst & Hs & file & m & Hin & Hm & En). repeat split; try done.
  exists file, m. auto.
Qed.

Lemma sweep_removals_mono now maxAge fs processed processed' cur :
  (forall f, f ∈ processed -> f ∈ processed') ->
  sweep_removals now maxAge fs processed cur -> sweep_removals now maxAge fs processed' cur.
Proof.
  intros Hsub Hinv p. destruct (Hinv p) as [E | (sid & Hp & Hs & Hnone)]; [by left|].
  right. exists sid. split; [done | split; [by eapply swept_by_mono | done]].
Qed.

Lemma sweep_removals_session now maxAge fs processed cur sid :
  sweep_removals now maxAge fs processed cur ->
  (cur !! getSessionFilePath sid = fs !! getSessionFilePath sid
   /\ cur !! getObservationsFilePath sid = fs !! getObservationsFilePath sid)
  \/ (swept_by now maxAge fs processed sid
      /\ forall q, q ∈ session_files sid -> cur !! q = None).
Proof.
  intros Hinv.
  assert (Hgone : forall p, p ∈ session_files sid ->
            cur !! p = fs !! p
            \/ (swept_by now maxAge fs processed sid
                /\ forall q, q ∈ session_files sid -> cur !! q = None)).
  { intros p Hp. destruct (Hinv p) as [E | (sid' & Hp' & Hs & Hnone)]; [by left|].
    right. pose proof (session_files_same_name _ _ _ Hp' Hp) as En.
    split; [by apply (swept_by_name_eq _ _ _ _ sid')|].
    by rewrite <- (session_files_name_eq _ _ En). }
  destruct (Hgone _ (session_files_meta sid)) as [E1 | ?]; [|by right].
  destruct (Hgone _ (session_files_log sid)) as [E2 | ?]; [|by right].
  by left.
Qed.

Lemma sweep_file_removals env now maxAge fs processed acc file :
  sweep_removals now maxAge fs processed acc.2 ->
  sweep_removals now maxAge fs (processed ++ [file]) (sweep_file env now maxAge acc file).2.
Proof.
  intros Hinv. destruct acc as [reported cur]. cbn [snd] in Hinv.
  assert (Hsame : sweep_removals now maxAge fs (processed ++ [file]) cur).
  { apply (sweep_removals_mono _ _ _ processed); [|done].
    intros f Hf. apply elem_of_app. by left. }
  unfold sweep_file.
  destruct (readMetadataFile file cur) as [metadata|] eqn:Hm; [|done].
  set (sid := SessionMetadata.id metadata).
  destruct (now - getSessionLastActivity sid cur >? maxAge) eqn:Hold; [|done].
  destruct (readSession sid cur) as [session|] eqn:Hread; [|done].
  cbn [snd].
  assert (Hfile : readMetadataFile file fs = Ok metadata).
  { destruct (Hinv file) as [E | (sid' & Hp & _ & Hnone)].
    - by rewrite <- (readMetadataFile_agree file fs cur E).
    - unfold readMetadataFile in Hm. rewrite (Hnone _ Hp) in Hm. discriminate. }
  assert (Hswept : swept_by now maxAge fs (processed ++ [file]) sid).
  { destruct (sweep_removals_session _ _ _ _ _ sid Hinv) as [[E1 E2] | [Hs _]].
    - repeat split.
      + unfold stale. rewrite <- (getSessionLastActivity_agree sid fs cur E1 E2). lia.
      + exists session. by rewrite <- (readSession_agree sid fs cur E1 E2).
      + exists file, metadata. repeat split; try done. apply elem_of_app. right. by left.
    - apply (swept_by_mono _ _ _ processed); [|done].
      intros f Hf. apply elem_of_app. by left. }
  intros p. rewrite clearSessionFile_lookup.
  destruct (decide (p ∈ session_files sid)) as [Hin | Hout].
  - right. exists sid. split; [done | split; [done|]].
    intros q Hq. rewrite clearSessionFile_lookup. by rewrite decide_True.
  - destruct (Hsame p) as [E | (sid' & Hp & Hs & Hnone)]; [by left|].
    right. exists sid'. split; [done | split; [done|]].
    intros q Hq. rewrite clearSessionFile_lookup. destruct (decide _); auto.
Qed.

Lemma sweep_removals_fold env now maxAge fs files : forall processed acc,
  sweep_removals now maxAge fs processed acc.2 ->
  sweep_removals now maxAge fs (processed ++ files)
    (fold_left (sweep_file env now maxAge) files acc).2.
Proof.
  induction files as [|file files IH]; intros processed acc Hinv; cbn [fold_left].
  - by rewrite app_nil_r.
  - rewrite (cons_middle file processed files), app_assoc.
    by apply IH, sweep_file_removals.
Qed.

Lemma cleanupStaleSessions_removals env maxAgeHours now fs :
  sweep_removals now (maxAgeHours * 60 * 60 * 1000) fs
    (List.filter is_metadata_file_name (readdirSync fs))
    (cleanupStaleSessions env maxAgeHours now fs).2.
Proof.
  unfold cleanupStaleSessions.
  apply (sweep_removals_fold env now _ fs _ [] ([], fs)). intros p. by left.
Qed.

(** X13. The sweep leaves alone every session it cannot read. When
    [readSession] throws for a session, the sweep changes none of its files,
    however old they are; and in a directory whose metadata files sit under
    their derived names the same holds of a session whose metadata file is
    missing or does not parse: its log and its counter stay for good. *)
Theorem cleanupStaleSessions_spares_unreadable env maxAgeHours now fs sessionId :
  let swept := cleanupStaleSessions env maxAgeHours now fs in
  (readSession sessionId fs = Throw ->
   forall p, p ∈ session_files sessionId -> swept.2 !! p = fs !! p)
  /\ (store_named fs -> readSessionMetadata sessionId fs = None ->
      forall p, p ∈ session_files sessionId -> swept.2 !! p = fs !! p).
Proof.
  intros swept.
  pose proof (cleanupStaleSessions_removals env maxAgeHours now fs) as Hinv.
  fold swept in Hinv. split.
  - intros Hthrow p Hp.
    destruct (Hinv p) as [E | (sid & Hp' & (_ & [s Hs] & _) & _)]; [done|].
    pose proof (session_files_same_name _ _ _ Hp' Hp) as En.
    rewrite (readSession_name_eq _ _ fs En) in Hs. congruence.
  - intros Hn Hnone p Hp.
    destruct (Hinv p) as [E | (sid & Hp' & (_ & _ & file & m & Hin & Hm & En) & _)];
      [done|].
    pose proof (session_files_same_name _ _ _ Hp' Hp) as En'.
    apply elem_of_List_filter in Hin as [_ Hname].
    pose proof (Hn _ _ Hname Hm) as ->.
    apply readMetadataFile_session in Hm.
    rewrite (readSessionMetadata_name_eq _ sessionId) in Hm by congruence.
    congruence.
Qed.

Lemma sweep_file_reported env now maxAge acc file s :
  s ∈ acc.1 -> s ∈ (sweep_file env now maxAge acc file).1.
Proof.
  destruct acc as [reported cur]. unfold sweep_file. cbn [fst]. intros Hs.
  destruct (readMetadataFile file cur); [|done].
  destruct (_ >? _); [|done].
  destruct (readSession _ cur) as [[session|]|]; cbn [fst]; try done.
  apply elem_of_app. by left.
Qed.

Lemma sweep_file_gone env now maxAge acc file q :
  acc.2 !! q = None -> (sweep_file env now maxAge acc file).2 !! q = None.
Proof.
  destruct acc as [reported cur]. unfold sweep_file. cbn [snd]. intros Hq.
  destruct (readMetadataFile file cur); [|done].
  destruct (_ >? _); [|done].
  destruct (readSession _ cur); cbn [snd]; [|done].
  rewrite clearSessionFile_lookup. by destruct (decide _).
Qed.

Lemma sweep_fold_reported env now maxAge files s : forall acc,
  s ∈ acc.1 -> s ∈ (fold_left (sweep_file env now maxAge) files acc).1.
Proof.
  induction files as [|file files IH]; intros acc Hs; cbn [fold_left]; [done|].
  by apply IH, sweep_file_reported.
Qed.

Lemma sweep_fold_gone env now maxAge files q : forall acc,
  acc.2 !! q = None -> (fold_left (sweep_file env now maxAge) files acc).2 !! q = None.
Proof.
  induction files as [|file files IH]; intros acc Hq; cbn [fold_left]; [done|].
  by apply IH, sweep_file_gone.
Qed.

(** X14. The sweep misses no stale session that it can read. In a
    directory whose metadata files sit under their derived names, a session
    that [readSession] returns and whose last activity is older than the
    maximum age is reported (stopped at the time of the sweep if it was
    still active) and all its files are gone afterwards, whether or not the
    lock was got. *)
Theorem cleanupStaleSessions_removes_stale env maxAgeHours now fs sessionId session :
  store_named fs ->
  readSession sessionId fs = Ok (Some session) ->
  stale now (maxAgeHours * 60 * 60 * 1000) sessionId fs ->
  let swept := cleanupStaleSessions env maxAgeHours now fs in
  finalized now session ∈ swept.1
  /\ forall p, p ∈ session_files sessionId -> swept.2 !! p = None.
Proof.
  intros Hn Hread Hstale swept.
  set (maxAge := maxAgeHours * 60 * 60 * 1000) in *.
  set (files := List.filter is_metadata_file_name (readdirSync fs)).
  assert (exists m, readSessionMetadata sessionId fs = Some m) as [m Hm].
  { unfold readSession in Hread.
    destruct (readSessionMetadata sessionId fs); [eauto | discriminate]. }
  pose proof (proj1 (readMetadataFile_session _ _ _) Hm) as Hfile.
  assert (Hname : safeSessionFilename (SessionMetadata.id m) = safeSessionFilename sessionId).
  { symmetry. apply session_path_name_eq.
    exact (Hn _ _ (is_metadata_file_name_session sessionId) Hfile). }
  assert (Hin : getSessionFilePath sessionId ∈ files).
  { apply elem_of_List_filter. split; [|apply is_metadata_file_name_session].
    apply elem_of_readdirSync. by eapply readMetadataFile_readable. }
  destruct (list_elem_of_split_l files _ Hin) as (pre & post & Hfiles & Hnotin).
  assert (Hturn : let acc := sweep_file env now maxAge
                               (fold_left (sweep_file env now maxAge) pre ([], fs))
                               (getSessionFilePath sessionId) in
                  finalized now session ∈ acc.1
                  /\ forall p, p ∈ session_files sessionId -> acc.2 !! p = None).
  { pose proof (sweep_removals_fold env now maxAge fs pre [] ([], fs)
                  (fun p => or_introl eq_refl)) as Hrem.
    cbn [app] in Hrem.
    destruct (fold_left (sweep_file env now maxAge) pre ([], fs)) as [reported cur].
    cbn [snd] in Hrem.
    destruct (sweep_removals_session _ _ _ _ _ sessionId Hrem)
      as [[E1 E2] | [(_ & _ & file & m' & Hpre & Hm' & En) _]].
    - cbn zeta. unfold sweep_file.
      rewrite (readMetadataFile_agree _ fs cur E1), Hfile.
      rewrite (getSessionLastActivity_name_eq _ sessionId cur Hname).
      rewrite (getSessionLastActivity_agree sessionId fs cur E1 E2).
      assert ((now - getSessionLastActivity sessionId fs >? maxAge) = true) as ->
        by (unfold stale in Hstale; apply Z.gtb_lt; lia).
      rewrite (readSession_name_eq _ sessionId cur Hname).
      rewrite (readSession_agree sessionId fs cur E1 E2), Hread.
      cbn [fst snd]. split.
      + apply elem_of_app. right. by left.
      + intros p Hp. rewrite clearSessionFile_lookup.
        rewrite (session_files_name_eq _ _ Hname). by rewrite decide_True.
    - exfalso. apply Hnotin.
      assert (file ∈ files) as Hf by (rewrite Hfiles; apply elem_of_app; by left).
      apply elem_of_List_filter in Hf as [_ Hf].
      pose proof (Hn _ _ Hf Hm') as Efile.
      assert (file = getSessionFilePath sessionId) as <-; [|done].
      rewrite Efile. by apply session_path_name_eq. }
  unfold swept, cleanupStaleSessions. fold maxAge files.
  rewrite Hfiles, fold_left_app. cbn [fold_left].
  destruct Hturn as [Hrep Hgone]. split.
  - by apply sweep_fold_reported.
  - intros p Hp. by apply sweep_fold_gone, Hgone.
Qed.

End SweepExact.

(** ** The lock loop *)

Section LockLoopProperties.

(** X15. How the loop of [acquireLock] and [acquirePendingLock] ends. It
    returns [true] only in a turn that begins less than [LOCK_TIMEOUT_MS]
    after the start and finds no marker; it returns [false] only in a turn
    that begins [LOCK_TIMEOUT_MS] or more after the start; in both cases
    every earlier turn began within the time and found a marker. The loop
    calls [unlinkSync] only after a [statSync] that showed a marker older
    than [LOCK_TIMEOUT_MS] by the clock of the check. What it removes is
    the marker at the path by then: it is older than [LOCK_TIMEOUT_MS]
    when no process replaced the marker between the two calls, and can be
    a fresh lock of another process otherwise. *)
Theorem lock_loop_exits startTime attempts :
  let result := lock_loop startTime attempts in
  let waited := Forall (fun b => marker b <> Free
                                 /\ clock_at_condition b - startTime < LOCK_TIMEOUT_MS) in
  (result.1 = Acquired ->
   exists earlier a later,
     attempts = earlier ++ a :: later /\ waited earlier
     /\ marker a = Free /\ clock_at_condition a - startTime < LOCK_TIMEOUT_MS)
  /\ (result.1 = GaveUp ->
      exists earlier a later,
        attempts = earlier ++ a :: later /\ waited earlier
        /\ LOCK_TIMEOUT_MS <= clock_at_condition a - startTime)
  /\ (result.1 = Retrying -> waited attempts)
  /\ (forall found, found ∈ result.2 ->
        exists a mtime, a ∈ attempts /\ marker a = Held mtime
                        /\ clock_at_check a - mtime > LOCK_TIMEOUT_MS
                        /\ at_unlink a = Some found)
  /\ (Forall (fun a => forall mtime found,
                 marker a = Held mtime -> at_unlink a = Some found -> found = mtime)
             attempts ->
      forall found, found ∈ result.2 ->
        exists a, a ∈ attempts /\ clock_at_check a - found > LOCK_TIMEOUT_MS).
Proof.
  assert (Hmain :
    let result := lock_loop startTime attempts in
    let waited := Forall (fun b => marker b <> Free
                                   /\ clock_at_condition b - startTime < LOCK_TIMEOUT_MS) in
    (result.1 = Acquired ->
     exists earlier a later,
       attempts = earlier ++ a :: later /\ waited earlier
       /\ marker a = Free /\ clock_at_condition a - startTime < LOCK_TIMEOUT_MS)
    /\ (result.1 = GaveUp ->
        exists earlier a later,
          attempts = earlier ++ a :: later /\ waited earlier
          /\ LOCK_TIMEOUT_MS <= clock_at_condition a - startTime)
    /\ (result.1 = Retrying -> waited attempts)
    /\ (forall found, found ∈ result.2 ->
          exists a mtime, a ∈ attempts /\ marker a = Held mtime
                          /\ clock_at_check a - mtime > LOCK_TIMEOUT_MS
                          /\ at_unlink a = Some found)).
  { induction attempts as [|a rest IH]; cbn zeta.
    - cbn. split; [discriminate | split; [discriminate | split; [by constructor|]]].
      by intros ? ?%elem_of_nil.
    - cbn zeta in IH. destruct IH as (IHa & IHg & IHr & IHm).
      cbn [lock_loop].
      destruct (clock_at_condition a - startTime <? LOCK_TIMEOUT_MS) eqn:Htime.
      + apply Z.ltb_lt in Htime.
        assert (Hstep : forall exit removed,
                  lock_loop startTime rest = (exit, removed) ->
                  marker a <> Free ->
                  (exit = Acquired ->
                   exists earlier a0 later,
                     a :: rest = earlier ++ a0 :: later
                     /\ Forall (fun b => marker b <> Free
                                         /\ clock_at_condition b - startTime
                                            < LOCK_TIMEOUT_MS) earlier
                     /\ marker a0 = Free
                     /\ clock_at_condition a0 - startTime < LOCK_TIMEOUT_MS)
                  /\ (exit = GaveUp ->
                      exists earlier a0 later,
                        a :: rest = earlier ++ a0 :: later
                        /\ Forall (fun b => marker b <> Free
                                            /\ clock_at_condition b - startTime
                                               < LOCK_TIMEOUT_MS) earlier
                        /\ LOCK_TIMEOUT_MS <= clock_at_condition a0 - startTime)
                  /\ (exit = Retrying ->
                      Forall (fun b => marker b <> Free
                                       /\ clock_at_condition b - startTime
                                          < LOCK_TIMEOUT_MS) (a :: rest))).
        { intros exit removed E Hfree. rewrite E in IHa, IHg, IHr. cbn [fst] in *.
          split; [|split].
          - intros He. destruct (IHa He) as (earlier & a0 & later & -> & Hw & Hf & Ht).
            exists (a :: earlier), a0, later.
            split; [done | split; [by constructor | done]].
          - intros He. destruct (IHg He) as (earlier & a0 & later & -> & Hw & Ht).
            exists (a :: earlier), a0, later.
            split; [done | split; [by constructor | done]].
          - intros He. constructor; [done | by apply IHr]. }
        assert (Hlater : forall found, found ∈ (lock_loop startTime rest).2 ->
                  exists a0 mtime, a0 ∈ a :: rest /\ marker a0 = Held mtime
                                   /\ clock_at_check a0 - mtime > LOCK_TIMEOUT_MS
                                   /\ at_unlink a0 = Some found).
        { intros found Hf. destruct (IHm found Hf) as (b & mtime & Hb & ?).
          exists b, mtime. split; [by right | done]. }
        destruct (marker a) as [|mtime|] eqn:Hmarker.
        * cbn [fst snd].
          split; [|split; [discriminate | split; [discriminate|]]];
            [|by intros ? ?%elem_of_nil].
          intros _. exists [], a, rest.
          split; [done | split; [by constructor | done]].
        * destruct (clock_at_check a - mtime >? LOCK_TIMEOUT_MS) eqn:Hold.
          -- destruct (lock_loop startTime rest) as [exit removed] eqn:E.
             cbn [fst snd] in *.
             destruct (Hstep exit removed eq_refl) as (Ha & Hg & Hr); [done|].
             split; [done | split; [done | split; [done|]]].
             intros found Hfound.
             destruct (at_unlink a) as [atpath|] eqn:Hat; [|by apply Hlater].
             apply elem_of_cons in Hfound as [-> | Hfound]; [|by apply Hlater].
             exists a, mtime.
             split; [by left | split; [done | split; [|done]]].
             apply Z.gtb_lt in Hold. lia.
          -- destruct (lock_loop startTime rest) as [exit removed] eqn:E.
             cbn [fst snd] in *.
             destruct (Hstep exit removed eq_refl) as (Ha & Hg & Hr); [done|].
             split; [done | split; [done | split; [done|]]]. exact Hlater.
        * destruct (lock_loop startTime rest) as [exit removed] eqn:E.
          cbn [fst snd] in *.
          destruct (Hstep exit removed eq_refl) as (Ha & Hg & Hr); [done|].
          split; [done | split; [done | split; [done|]]]. exact Hlater.
      + apply Z.ltb_ge in Htime. cbn [fst snd].
        split; [discriminate | split; [|split; [discriminate|]]];
          [|by intros ? ?%elem_of_nil].
        intros _. exists [], a, rest.
        split; [done | split; [by constructor | done]]. }
  cbn zeta in *. destruct Hmain as (Ha & Hg & Hr & Hm).
  split; [done | split; [done | split; [done | split; [done|]]]].
  intros Hsame found Hfound.
  destruct (Hm found Hfound) as (a & mtime & Hin & Hmarker & Hold & Hat).
  exists a. split; [done|].
  rewrite Forall_forall in Hsame.
  by rewrite (Hsame a Hin mtime found Hmarker Hat).
Qed.

End LockLoopProperties.

(** ** The shape of a derived name *)

Section NameShape.

Lemma string_of_list_ascii_length l :
  String.length (string_of_list_ascii l) = length l.
Proof. induction l as [|a l IH]; cbn; [done | by rewrite IH]. Qed.

Lemma readable_prefix_length sessionId : (length (readable_prefix sessionId) <= 8)%nat.
Proof.
  unfold readable_prefix. rewrite length_map.
  etransitivity; [apply length_filter|]. rewrite length_take. lia.
Qed.

(** X16. The name derived from a session identifier is made of lower-case
    letters, digits and the underscore only, and is 18 to 25 characters
    long, whatever the identifier holds: so neither it nor the name of any
    file of the session has a path separator or a parent segment, and the
    files stay in the sessions directory. *)
Theorem safeSessionFilename_shape sessionId :
  let name := safeSessionFilename sessionId in
  Forall (fun a => is_name_char a = true) (list_ascii_of_string name)
  /\ (18 <= String.length name <= 25)%nat
  /\ has_separator name = false /\ has_parent_segment name = false
  /\ forall p, p ∈ session_files sessionId ->
       has_separator p = false /\ has_parent_segment p = false.
Proof.
  intros name. split; [apply safeSessionFilename_chars|]. split.
  - unfold name, safeSessionFilename. rewrite string_of_list_ascii_length, length_app.
    cbn [length]. rewrite hash16_length.
    pose proof (readable_prefix_length sessionId) as Hle.
    destruct (readable_prefix sessionId) as [|a l]; cbn [length list_ascii_of_string] in *; lia.
  - split; [apply safeSessionFilename_traversal_safe|].
    split; [apply safeSessionFilename_traversal_safe|].
    apply session_files_traversal_safe.
Qed.

End NameShape.


(** ** Lock markers *)

Section Markers.

Context {rt : Runtime}.

Lemma store_step_marker fs fs' p :
  store_step fs fs' ->
  (exists sessionId, p = getLockFilePath sessionId \/ p = getPendingLockPath sessionId) ->
  fs' !! p = fs !! p \/ fs' !! p = None.
Proof.
  intros Hstep (sid' & Hp).
  assert (Hmeta : forall s, p <> getSessionFilePath s) by (destruct Hp as [-> | ->]; intros s; path_ne).
  assert (Hlog : forall s, p <> getObservationsFilePath s)
    by (destruct Hp as [-> | ->]; intros s; path_ne).
  assert (Hpending : forall s, p <> getPendingFilePath s)
    by (destruct Hp as [-> | ->]; intros s; path_ne).
  destruct Hstep as [sid project projectPath now fs | gotLock sid obs now fs | op sid now fs
                    | gotLock sid now fs | gotLock sid now fs
                    | gotLock sid w s polls now fs | env hours now fs].
  - left. unfold startSession, writeSessionMetadata. cbn [snd SessionMetadata.id].
    by rewrite lookup_insert_ne.
  - unfold addObservation.
    destruct (readSessionMetadata sid fs) as [m|]; [|by left].
    destruct (bool_decide (SessionMetadata.status m <> active)); [by left|].
    destruct gotLock; [|by left].
    unfold appendObservation, acquireLock, releaseLock, unlinkSync. cbn [negb snd].
    destruct (decide (p = getLockFilePath sid)) as [-> | Hne].
    + right. apply lookup_delete_eq.
    + left. rewrite lookup_delete_ne by auto. rewrite appendFileSync_insert.
      rewrite lookup_insert_ne by auto. by rewrite lookup_insert_ne by auto.
  - left. destruct (perform_cases op sid now fs) as [-> | (m & m' & _ & -> & _)]; [done|].
    unfold writeSessionMetadata. by rewrite lookup_insert_ne.
  - destruct gotLock; [|by left]. rewrite markBackgroundJobStarted_eq.
    destruct (decide (p = getPendingLockPath sid)) as [-> | Hne].
    + right. apply lookup_delete_eq.
    + left. rewrite lookup_delete_ne by auto. by rewrite lookup_insert_ne by auto.
  - destruct gotLock; [|by left]. rewrite markBackgroundJobCompleted_eq.
    destruct (decide (p = getPendingLockPath sid)) as [-> | Hne].
    + right. apply lookup_delete_eq.
    + left. rewrite lookup_delete_ne by auto. cbn zeta. destruct (_ <=? 1).
      * by rewrite lookup_delete_ne by auto.
      * by rewrite lookup_insert_ne by auto.
  - rewrite clearSessionFile_lookup. destruct (decide _); auto.
  - destruct (cleanupStaleSessions_invariant env hours now fs) as [Hfiles _].
    destruct (Hfiles p) as [E | (sid & Hin & _ & Hnone)]; [by left|].
    right. by apply Hnone.
Qed.

Lemma store_step_no_marker fs fs' :
  store_step fs fs' -> no_marker_left fs -> no_marker_left fs'.
Proof.
  intros Hstep Hno sid. destruct (Hno sid) as [Hl Hp]. split.
  - destruct (store_step_marker fs fs' (getLockFilePath sid) Hstep) as [E | E];
      [eauto | by rewrite E | done].
  - destruct (store_step_marker fs fs' (getPendingLockPath sid) Hstep) as [E | E];
      [eauto | by rewrite E | done].
Qed.

Lemma rtc_no_marker fs fs' :
  rtc store_step fs fs' -> no_marker_left fs -> no_marker_left fs'.
Proof.
  induction 1 as [|? ? ? Hstep _ IH]; [done|]. intros Hno.
  by apply IH, (store_step_no_marker x).
Qed.

(** X17. The operations leave no lock marker behind. In every directory
    that the operations of the store build from the empty one, whatever the
    outcome of each attempt to lock, no session has a lock marker and no
    counter has one: a marker that a call created is removed before the
    call returns. *)
Theorem reachable_no_marker_left fs sessionId :
  reachable fs ->
  fs !! getLockFilePath sessionId = None /\ fs !! getPendingLockPath sessionId = None.
Proof.
  intros Hr. apply (rtc_no_marker ∅ fs Hr). intros sid. by rewrite !lookup_empty.
Qed.

End Markers.

(** ** The hook for a submitted prompt *)

Section PromptHook.

Context {rt : Runtime}.

Lemma count_observations_app l l' : forall c,
  count_observations c (l ++ l') = count_observations c l ≫= fun c' => count_observations c' l'.
Proof.
  induction l as [|obs l IH]; intros c; cbn [app count_observations]; [done|].
  destruct (count_observation c obs) as [c1|]; cbn [mbind result_bind]; [apply IH | done].
Qed.

(** The observation of a prompt moves no counter. *)
Lemma count_prompt_observation c id timestamp prompt :
  count_observation c (prompt_observation id timestamp prompt)
  = Ok (Counters (c_filesModified c) (c_commandsRun c) (c_errorsEncountered c)).
Proof. destruct c. reflexivity. Qed.

(** X18. What the hook for a submitted prompt does to the store. It
    changes nothing when it is disabled, when the session is not active or
    cannot be read, and when the prompt has fewer than 20 characters
    between its leading and trailing white space. Otherwise, on an intact
    log and with the lock, it appends one record, and the session reads
    afterwards as before with that record at the end of its observations:
    a prompt counts neither as a command nor as an error, and adds no file
    to the files modified. *)
Theorem userPromptSubmit_records_prompt disabled sessionId prompt gotLock id timestamp
    now fs :
  let input := {| ups_session_id := Some sessionId; ups_prompt := Some prompt |} in
  let after := userPromptSubmit disabled input gotLock id timestamp now fs in
  let observation := prompt_observation id timestamp prompt in
  (disabled = true -> after = fs)
  /\ (stored_status sessionId fs <> Some active -> after = fs)
  /\ (readSession sessionId fs = Throw -> after = fs)
  /\ (Z.of_nat (String.length (Text.trim prompt)) < 20 -> after = fs)
  /\ (forall session,
        disabled = false -> gotLock = true -> sessionId <> [] ->
        20 <= Z.of_nat (String.length (Text.trim prompt)) ->
        readSession sessionId fs = Ok (Some session) ->
        Session.status session = active ->
        log_intact sessionId fs -> printable observation ->
        readSession sessionId after = Ok (Some (with_observation session observation))).
Proof.
  intros input after observation.
  assert (Hstatus : forall session, readSession sessionId fs = Ok (Some session) ->
            stored_status sessionId fs = Some (Session.status session)).
  { intros session Hread. unfold readSession, stored_status in *.
    destruct (readSessionMetadata sessionId fs) as [m|]; [|discriminate].
    destruct (count_observations _ _); [|discriminate].
    cbn in Hread. injection Hread as <-. reflexivity. }
  unfold after, userPromptSubmit. cbn [ups_session_id ups_prompt input].
  repeat split.
  - by intros ->.
  - intros Hs. destruct disabled; [done|]. destruct (_ || _); [done|].
    destruct (readSession sessionId fs) as [[session|]|] eqn:Hread; try done.
    case_bool_decide as Hact; [done|]. exfalso. apply Hs.
    rewrite (Hstatus _ eq_refl). f_equal. by destruct (Session.status session); try done;
      exfalso; apply Hact.
  - intros ->. destruct disabled; [done|]. by destruct (_ || _).
  - intros Hshort. destruct disabled; [done|]. destruct (_ || _); [done|].
    destruct (readSession sessionId fs) as [[session|]|]; try done.
    destruct (bool_decide _); [done|].
    by rewrite (proj2 (Z.ltb_lt _ _) Hshort).
  - intros session -> -> Hsid Hlong Hread Hact Hlog Hprintable.
    assert (prompt <> EmptyString) as Hprompt.
    { intros ->. cbn in Hlong. lia. }
    rewrite bool_decide_eq_false_2 by done.
    rewrite (proj2 (String.eqb_neq _ _) Hprompt). cbn [orb].
    rewrite Hread. rewrite bool_decide_eq_false_2 by (rewrite Hact; auto).
    rewrite (proj2 (Z.ltb_ge _ _) Hlong).
    assert (Ha : is_active sessionId fs) by (unfold is_active; by rewrite (Hstatus _ Hread), Hact).
    destruct (addObservation_intact sessionId observation now fs Ha Hlog Hprintable)
      as (_ & _ & Hobs).
    fold observation.
    unfold readSession in *.
    rewrite (readSessionMetadata_agree sessionId fs _ (addObservation_metadata _ _ _ _ _ _)).
    destruct (readSessionMetadata sessionId fs) as [m|]; [|discriminate].
    rewrite Hobs, count_observations_app.
    destruct (count_observations (Counters [] 0 0) (readObservations sessionId fs)) as [c|];
      [|discriminate].
    cbn [mbind result_bind] in *. cbn [count_observations].
    rewrite (count_prompt_observation c id timestamp prompt
             : count_observation c observation = _).
    cbn [mbind result_bind mret result_ret] in *.
    injection Hread as <-. reflexivity.
Qed.

End PromptHook.

(** ** The bytes of a well-formed identifier *)

Section Utf8.

Lemma lor_small (base bound x : Z) :
  forallb (fun y => Z.lor base y =? base + y) (seqZ 0 bound) = true ->
  0 <= x < bound -> Z.lor base x = base + x.
Proof.
  intros Hall Hx. rewrite forallb_forall in Hall.
  apply Z.eqb_eq, Hall, list_elem_of_In, elem_of_seqZ. lia.
Qed.

Lemma lor_continuation x : 0 <= x < 64 -> Z.lor 0x80 x = 0x80 + x.
Proof. apply lor_small. vm_compute. reflexivity. Qed.

Lemma lor_lead2 x : 0 <= x < 32 -> Z.lor 0xC0 x = 0xC0 + x.
Proof. apply lor_small. vm_compute. reflexivity. Qed.

Lemma lor_lead3 x : 0 <= x < 16 -> Z.lor 0xE0 x = 0xE0 + x.
Proof. apply lor_small. vm_compute. reflexivity. Qed.

Lemma lor_lead4 x : 0 <= x < 8 -> Z.lor 0xF0 x = 0xF0 + x.
Proof. apply lor_small. vm_compute. reflexivity. Qed.

Lemma land_63 x : Z.land x 0x3F = x mod 64.
Proof. exact (Z.land_ones x 6 ltac:(lia)). Qed.

(** The bytes of a code point, by arithmetic. *)
Lemma utf8_of_code_point_bytes cp :
  0 <= cp < 0x110000 ->
  utf8_of_code_point cp =
  if cp <? 0x80 then [cp]
  else if cp <? 0x800 then [0xC0 + cp / 64; 0x80 + cp mod 64]
  else if cp <? 0x10000 then [0xE0 + cp / 4096; 0x80 + (cp / 64) mod 64; 0x80 + cp mod 64]
  else [0xF0 + cp / 262144; 0x80 + (cp / 4096) mod 64; 0x80 + (cp / 64) mod 64;
        0x80 + cp mod 64].
Proof.
  intros Hcp. unfold utf8_of_code_point.
  rewrite !land_63, !Z.shiftr_div_pow2 by lia.
  change (2 ^ 6) with 64. change (2 ^ 12) with 4096. change (2 ^ 18) with 262144.
  pose proof (Z.mod_pos_bound cp 64 ltac:(lia)).
  pose proof (Z.mod_pos_bound (cp / 64) 64 ltac:(lia)).
  pose proof (Z.mod_pos_bound (cp / 4096) 64 ltac:(lia)).
  rewrite !lor_continuation by lia.
  destruct (cp <? 0x80) eqn:E1; [done|]. apply Z.ltb_ge in E1.
  destruct (cp <? 0x800) eqn:E2.
  { apply Z.ltb_lt in E2. rewrite lor_lead2; [done|].
    split; [apply Z.div_pos; lia | apply Z.div_lt_upper_bound; lia]. }
  apply Z.ltb_ge in E2.
  destruct (cp <? 0x10000) eqn:E3.
  { apply Z.ltb_lt in E3. rewrite lor_lead3; [done|].
    split; [apply Z.div_pos; lia | apply Z.div_lt_upper_bound; lia]. }
  rewrite lor_lead4; [done|].
  split; [apply Z.div_pos; lia | apply Z.div_lt_upper_bound; lia].
Qed.

(** The encoding of a code point is read back from the front of a byte
    string: no encoding is the beginning of another. *)
Lemma utf8_of_code_point_inj x y r1 r2 :
  0 <= x < 0x110000 -> 0 <= y < 0x110000 ->
  utf8_of_code_point x ++ r1 = utf8_of_code_point y ++ r2 ->
  x = y /\ r1 = r2.
Proof.
  intros Hx Hy. rewrite !utf8_of_code_point_bytes by done.
  destruct (x <? 0x80) eqn:X1, (x <? 0x800) eqn:X2, (x <? 0x10000) eqn:X3,
    (y <? 0x80) eqn:Y1, (y <? 0x800) eqn:Y2, (y <? 0x10000) eqn:Y3;
    cbn [app]; intros E;
    repeat match goal with
           | H : (_ <? _) = true |- _ => apply Z.ltb_lt in H
           | H : (_ <? _) = false |- _ => apply Z.ltb_ge in H
           end;
    try lia;
    repeat match goal with
           | H : _ :: _ = _ :: _ |- _ =>
               let H1 := fresh "Hb" in injection H as H1 H
           end;
    try (exfalso; Z.div_mod_to_equations; lia);
    (split; [Z.div_mod_to_equations; lia | assumption]).
Qed.

Lemma utf8_of_code_point_nonempty cp : utf8_of_code_point cp <> [].
Proof.
  unfold utf8_of_code_point.
  destruct (cp <? 0x80); [done|]. destruct (cp <? 0x800); [done|].
  by destruct (cp <? 0x10000).
Qed.

(** The first code point of a well-formed string: a code unit that is no
    surrogate, or a surrogate pair. *)
Lemma well_formed_cons c r :
  well_formed (c :: r) = true ->
  (0 <= c < 0x10000 /\ ~ (0xD800 <= c <= 0xDFFF) /\ well_formed r = true
   /\ utf8_encode (c :: r) = utf8_of_code_point c ++ utf8_encode r)
  \/ (exists d r',
        r = d :: r' /\ 0xD800 <= c <= 0xDBFF /\ 0xDC00 <= d <= 0xDFFF
        /\ well_formed r' = true
        /\ utf8_encode (c :: r)
           = utf8_of_code_point (0x10000 + (c - 0xD800) * 0x400 + (d - 0xDC00))
             ++ utf8_encode r').
Proof.
  cbn [well_formed utf8_encode]. intros Hwf.
  apply andb_prop in Hwf as [Hrange Hwf]. apply andb_prop in Hrange as [H0 Hmax].
  apply Z.leb_le in H0, Hmax.
  destruct (is_high_surrogate c) eqn:Hhigh.
  - right. destruct r as [|d r']; [discriminate|].
    apply andb_prop in Hwf as [Hlow Hwf]. rewrite Hlow.
    unfold is_high_surrogate, is_low_surrogate in *.
    apply andb_prop in Hhigh as [?%Z.leb_le ?%Z.leb_le].
    apply andb_prop in Hlow as [?%Z.leb_le ?%Z.leb_le].
    exists d, r'. repeat split; try done; lia.
  - left. apply andb_prop in Hwf as [Hlow Hwf]. apply negb_true_iff in Hlow. rewrite Hlow.
    unfold is_high_surrogate, is_low_surrogate in *.
    apply andb_false_iff in Hhigh, Hlow.
    repeat split; try done; try lia;
      try (intros [? ?]; destruct Hhigh as [?%Z.leb_gt | ?%Z.leb_gt];
           destruct Hlow as [?%Z.leb_gt | ?%Z.leb_gt]; lia).
Qed.

Lemma utf8_encode_inj_bounded (n : nat) : forall a b,
  (length a <= n)%nat ->
  well_formed a = true -> well_formed b = true ->
  utf8_encode a = utf8_encode b -> a = b.
Proof.
  induction n as [|n IH]; intros a b Hlen Ha Hb E.
  - destruct a; [|cbn in Hlen; lia].
    destruct b as [|c' rb]; [done|]. exfalso.
    destruct (well_formed_cons _ _ Hb) as [(_ & _ & _ & Eb) | (d & r' & _ & _ & _ & _ & Eb)];
      rewrite Eb in E; cbn [utf8_encode] in E; symmetry in E;
      apply app_eq_nil in E as [E _]; by apply utf8_of_code_point_nonempty in E.
  - destruct a as [|c ra].
    { destruct b as [|c' rb]; [done|]. exfalso.
      destruct (well_formed_cons _ _ Hb)
        as [(_ & _ & _ & Eb) | (d & r' & _ & _ & _ & _ & Eb)];
        rewrite Eb in E; cbn [utf8_encode] in E; symmetry in E;
        apply app_eq_nil in E as [E _]; by apply utf8_of_code_point_nonempty in E. }
    destruct b as [|c' rb].
    { exfalso.
      destruct (well_formed_cons _ _ Ha)
        as [(_ & _ & _ & Ea) | (d & r' & _ & _ & _ & _ & Ea)];
        rewrite Ea in E; cbn [utf8_encode] in E;
        apply app_eq_nil in E as [E _]; by apply utf8_of_code_point_nonempty in E. }
    cbn [length] in Hlen.
    destruct (well_formed_cons _ _ Ha)
      as [(Hc & Hns & Hra & Ea) | (d & ra' & -> & Hc & Hd & Hra & Ea)];
      destruct (well_formed_cons _ _ Hb)
        as [(Hc' & Hns' & Hrb & Eb) | (d' & rb' & -> & Hc' & Hd' & Hrb & Eb)];
      rewrite Ea, Eb in E;
      apply utf8_of_code_point_inj in E as [Ecp Erest]; try lia.
    + subst c'. f_equal. apply IH; try done. lia.
    + assert (c = c' /\ d = d') as [-> ->] by lia.
      do 2 f_equal. apply IH; try done. cbn [length] in Hlen. lia.
Qed.

(** X19. The bytes that enter the digest tell two well-formed identifiers
    apart: when neither string has an unpaired surrogate, equal UTF-8
    encodings come from equal strings. The derived names of two different
    well-formed identifiers can then agree only when the digests of two
    different byte strings agree in their first 16 digits. *)
Theorem utf8_encode_injective a b :
  well_formed a = true -> well_formed b = true ->
  utf8_encode a = utf8_encode b -> a = b.
Proof. intros Ha Hb. by apply (utf8_encode_inj_bounded (length a)). Qed.

End Utf8.

(** ** What holds of every directory the store builds *)

Section ReachableRecords.

Context {rt : Runtime}.

Lemma records_closed_write metadata now fs :
  record_closed metadata -> records_closed fs ->
  records_closed (writeSessionMetadata metadata now fs).
Proof.
  intros Hm Hfs sid m. rewrite readSessionMetadata_write.
  destruct (decide _); [|apply Hfs].
  intros [= <-]. exact Hm.
Qed.

Lemma records_closed_shrink fs fs' :
  records_closed fs ->
  (forall sid, fs' !! getSessionFilePath sid = fs !! getSessionFilePath sid
               \/ fs' !! getSessionFilePath sid = None) ->
  records_closed fs'.
Proof.
  intros Hfs Hsub sid m Hm. destruct (Hsub sid) as [E | E].
  - apply (Hfs sid). by rewrite <- (readSessionMetadata_agree sid fs fs' E).
  - by rewrite readSessionMetadata_lookup, E in Hm.
Qed.

Lemma store_step_records_closed fs fs' :
  store_step fs fs' -> records_closed fs -> records_closed fs'.
Proof.
  intros Hstep Hfs.
  destruct Hstep as [sid project projectPath now fs | gotLock sid obs now fs | op sid now fs
                    | gotLock sid now fs | gotLock sid now fs
                    | gotLock sid w s polls now fs | env hours now fs].
  - apply records_closed_write; [|done]. by split.
  - apply (records_closed_shrink fs); [done|]. intros other. left.
    apply addObservation_metadata.
  - destruct op as [endType | summary | paths]; unfold perform.
    + unfold endSession. destruct (readSessionMetadata sid fs) as [m|] eqn:Hm; [|done].
      destruct (bool_decide (SessionMetadata.status m <> active)); [done|]. cbn [snd].
      apply records_closed_write; [|done].
      split; cbn; split; try discriminate. by destruct endType.
    + unfold updateSessionSummary.
      destruct (readSessionMetadata sid fs) as [m|] eqn:Hm; [|done]. cbn [snd].
      apply records_closed_write; [|done]. exact (Hfs _ _ Hm).
    + unfold updatePreCompactKnowledge.
      destruct (readSessionMetadata sid fs) as [m|] eqn:Hm; [|done]. cbn [snd].
      apply records_closed_write; [|done]. exact (Hfs _ _ Hm).
  - apply (records_closed_shrink fs); [done|]. intros other. left.
    apply markBackgroundJobStarted_metadata.
  - apply (records_closed_shrink fs); [done|]. intros other. left.
    apply markBackgroundJobCompleted_metadata.
  - apply (records_closed_shrink fs); [done|]. intros other.
    rewrite clearSessionFile_lookup. destruct (decide _); auto.
  - apply (records_closed_shrink fs); [done|]. intros other.
    destruct (cleanupStaleSessions_invariant env hours now fs) as [Hfiles _].
    destruct (Hfiles (getSessionFilePath other)) as [E | (sid & Hin & _ & Hnone)];
      [by left|]. right. by apply Hnone.
Qed.

Lemma rtc_records_closed fs fs' :
  rtc store_step fs fs' -> records_closed fs -> records_closed fs'.
Proof.
  induction 1 as [|? ? ? Hstep _ IH]; [done|]. intros Hfs.
  by apply IH, (store_step_records_closed x).
Qed.

(** X20. A stored session has an end exactly when it is not active. In
    every directory that the operations of the store build from the empty
    one, the metadata of a session has an end time if and only if its
    status is [completed] or [stopped], and it has a duration if and only
    if it has an end time: no update and no restart leaves a half-closed
    record. *)
Theorem reachable_records_closed fs sessionId metadata :
  reachable fs ->
  readSessionMetadata sessionId fs = Some metadata ->
  (SessionMetadata.status metadata = active <-> SessionMetadata.endTime metadata = None)
  /\ (SessionMetadata.endTime metadata = None
      <-> SessionMetadata.durationMinutes metadata = None).
Proof.
  intros Hr Hm. refine (rtc_records_closed ∅ fs Hr _ sessionId metadata Hm).
  intros sid m. rewrite readSessionMetadata_lookup, lookup_empty. discriminate.
Qed.

Lemma counter_holds_agree a b n fs fs' :
  fs' !! getPendingFilePath b = fs !! getPendingFilePath a ->
  counter_holds a n fs -> counter_holds b n fs'.
Proof.
  intros E. unfold counter_holds. by destruct (decide (n = 0)); rewrite E.
Qed.

Lemma pending_path_name_eq a b :
  getPendingFilePath a = getPendingFilePath b
  <-> safeSessionFilename a = safeSessionFilename b.
Proof.
  split.
  - rewrite !getPendingFilePath_derived. intros E. by apply derived_inj in E as [E _].
  - intros E. unfold getPendingFilePath. by rewrite E.
Qed.

Lemma counters_sound_shrink fs fs' :
  counters_sound fs ->
  (forall sid, fs' !! getPendingFilePath sid = fs !! getPendingFilePath sid
               \/ fs' !! getPendingFilePath sid = None) ->
  counters_sound fs'.
Proof.
  intros Hfs Hsub sid. destruct (Hsub sid) as [E | E].
  - destruct (Hfs sid) as (n & Hn & Hc). exists n. split; [done|].
    by apply (counter_holds_agree sid sid n fs).
  - exists 0. split; [lia|]. unfold counter_holds. by rewrite decide_True.
Qed.

Lemma store_step_counters_sound fs fs' :
  store_step fs fs' -> counters_sound fs -> counters_sound fs'.
Proof.
  intros Hstep Hfs.
  destruct Hstep as [sid project projectPath now fs | gotLock sid obs now fs | op sid now fs
                    | gotLock sid now fs | gotLock sid now fs
                    | gotLock sid w s polls now fs | env hours now fs].
  - apply (counters_sound_shrink fs); [done|]. intros other. left.
    unfold startSession, writeSessionMetadata. cbn [snd SessionMetadata.id].
    rewrite lookup_insert_ne; [done|]. path_ne.
  - apply (counters_sound_shrink fs); [done|]. intros other. left.
    unfold addObservation.
    destruct (readSessionMetadata sid fs) as [m|]; [|done].
    destruct (bool_decide (SessionMetadata.status m <> active)); [done|].
    destruct gotLock; [|done].
    unfold appendObservation, acquireLock, releaseLock, unlinkSync. cbn [negb snd].
    rewrite appendFileSync_insert.
    rewrite lookup_delete_ne by path_ne. rewrite lookup_insert_ne by path_ne.
    by rewrite lookup_insert_ne by path_ne.
  - apply (counters_sound_shrink fs); [done|]. intros other. left.
    destruct (perform_cases op sid now fs) as [-> | (m & m' & _ & -> & _)]; [done|].
    unfold writeSessionMetadata. rewrite lookup_insert_ne; [done|]. path_ne.
  - destruct gotLock; [|done]. intros other.
    destruct (decide (safeSessionFilename sid = safeSessionFilename other)) as [E | Hne].
    + destruct (Hfs sid) as (n & Hn & Hc). exists (n + 1). split; [lia|].
      apply (counter_holds_agree sid other _ (markBackgroundJobStarted true sid now fs));
        [by rewrite (proj2 (pending_path_name_eq sid other) E)|].
      by apply markBackgroundJobStarted_counter.
    + destruct (Hfs other) as (n & Hn & Hc). exists n. split; [done|].
      apply (counter_holds_agree other other n fs); [|done].
      rewrite markBackgroundJobStarted_eq.
      rewrite lookup_delete_ne by path_ne. rewrite lookup_insert_ne; [done|].
      intros E. by apply Hne, pending_path_name_eq.
  - destruct gotLock; [|done]. intros other.
    destruct (decide (safeSessionFilename sid = safeSessionFilename other)) as [E | Hne].
    + destruct (Hfs sid) as (n & Hn & Hc). exists (Z.max 0 (n - 1)). split; [lia|].
      apply (counter_holds_agree sid other _ (markBackgroundJobCompleted true sid now fs));
        [by rewrite (proj2 (pending_path_name_eq sid other) E)|].
      by apply markBackgroundJobCompleted_counter.
    + destruct (Hfs other) as (n & Hn & Hc). exists n. split; [done|].
      apply (counter_holds_agree other other n fs); [|done].
      assert (getPendingFilePath sid <> getPendingFilePath other)
        by (intros E; by apply Hne, pending_path_name_eq).
      rewrite markBackgroundJobCompleted_eq.
      rewrite lookup_delete_ne by path_ne. cbn zeta. destruct (_ <=? 1).
      * by rewrite lookup_delete_ne.
      * by rewrite lookup_insert_ne.
  - apply (counters_sound_shrink fs); [done|]. intros other.
    rewrite clearSessionFile_lookup. destruct (decide _); auto.
  - apply (counters_sound_shrink fs); [done|]. intros other.
    destruct (cleanupStaleSessions_invariant env hours now fs) as [Hfiles _].
    destruct (Hfiles (getPendingFilePath other)) as [E | (sid & Hin & _ & Hnone)];
      [by left|]. right. by apply Hnone.
Qed.

Lemma rtc_counters_sound fs fs' :
  rtc store_step fs fs' -> counters_sound fs -> counters_sound fs'.
Proof.
  induction 1 as [|? ? ? Hstep _ IH]; [done|]. intros Hfs.
  by apply IH, (store_step_counters_sound x).
Qed.

(** X21. The pending counter of a directory that the operations of the
    store built from the empty one is sound: its file is absent or holds
    the decimal text of a number that is at least one. So the count is
    never negative, both modes of [getPendingJobCount] read the same
    number, and the count is zero exactly when the file is absent. *)
Theorem reachable_counter_sound fs sessionId :
  reachable fs ->
  exists n,
    0 <= n
    /\ counter_holds sessionId n fs
    /\ (forall conservative,
          getPendingJobCount (getPendingFilePath sessionId) conservative fs = n)
    /\ (n = 0 <-> fs !! getPendingFilePath sessionId = None).
Proof.
  intros Hr.
  assert (Hsound : counters_sound fs).
  { apply (rtc_counters_sound ∅ fs Hr). intros sid. exists 0. split; [lia|].
    unfold counter_holds. by rewrite decide_True, lookup_empty. }
  destruct (Hsound sessionId) as (n & Hn & Hc). exists n.
  repeat split; try done.
  - intros c. by apply getPendingJobCount_holds.
  - intros ->. unfold counter_holds in Hc. by rewrite decide_True in Hc.
  - intros Hnone. unfold counter_holds in Hc.
    destruct (decide (n = 0)); [done|]. destruct Hc as [t Hc]. congruence.
Qed.

End ReachableRecords.

(** ** The hook before a compaction *)

Section CompactHook.

Context {rt : Runtime}.

(** X22. The hook before a compaction counts the job it spawns only when
    it gets the counter's lock. When it spawns no job it changes nothing.
    When it spawns one with the lock, the count, a safe integer, is one
    higher afterwards. When it spawns one without the lock, the directory
    is unchanged: the job is not counted, and its completion then takes one
    of the jobs that were counted off the counter (a counter that held [n],
    from one up to [MAX_SAFE_INTEGER], holds [n - 1], the file gone at
    zero), so that the wait for pending jobs can end while such a job still
    runs. *)
Theorem preCompact_counts_spawned_job disabled summarization sessionId transcript_path
    gotLock now fs :
  let input := {| pc_session_id := Some sessionId;
                  pc_transcript_path := Some transcript_path |} in
  let after := preCompact disabled summarization input gotLock now fs in
  let pendingPath := getPendingFilePath sessionId in
  (after.1 = false -> after.2 = fs)
  /\ (after.1 = true ->
      is_Some (readSessionMetadata sessionId fs) /\ summarization = true /\ disabled = false)
  /\ (after.1 = true -> gotLock = true ->
      is_safe_integer (getPendingJobCount pendingPath false fs) ->
      forall conservative,
        getPendingJobCount pendingPath conservative after.2
        = getPendingJobCount pendingPath false fs + 1)
  /\ (after.1 = true -> gotLock = false ->
      after.2 = fs
      /\ forall n later,
           1 <= n <= MAX_SAFE_INTEGER -> counter_holds sessionId n fs ->
           counter_holds sessionId (n - 1)
             (markBackgroundJobCompleted true sessionId later after.2)).
Proof.
  intros input after pendingPath.
  assert (Hcases : after = (false, fs)
                   \/ (after = (true, markBackgroundJobStarted gotLock sessionId now fs)
                       /\ is_Some (readSessionMetadata sessionId fs)
                       /\ summarization = true /\ disabled = false)).
  { unfold after, preCompact. cbn [pc_session_id pc_transcript_path input].
    destruct disabled; [by left|]. destruct summarization; [|by left]. cbn [negb].
    destruct (bool_decide (sessionId = [])); [by left|].
    destruct (readSession sessionId fs) as [[session|]|] eqn:Hread; try by left.
    destruct (String.eqb transcript_path ""); [by left|]. right.
    repeat split; try done.
    unfold readSession in Hread.
    destruct (readSessionMetadata sessionId fs); [eauto | discriminate]. }
  destruct Hcases as [-> | (-> & Hm & Hs & Hd)]; cbn [fst snd].
  - split; [done | split; [discriminate | split; discriminate]].
  - split; [discriminate | split; [done | split]].
    + intros _ -> _ c.
      rewrite markBackgroundJobStarted_eq.
      apply (getPendingJobCount_text _ _ _ _ now).
      rewrite lookup_delete_ne by apply pending_path_ne_lock.
      apply lookup_insert_eq.
    + intros _ ->. split; [done|].
      intros n later Hn Hc. cbn [markBackgroundJobStarted negb].
      replace (n - 1) with (Z.max 0 (n - 1)) by lia.
      apply markBackgroundJobCompleted_counter; [lia | done].
Qed.

End CompactHook.

(** ** The further properties on the sample *)

Section UseWitnesses.

#[local] Existing Instance ReferenceRuntime.runtime.

Lemma sample_started_reachable : reachable sample_started.
Proof. apply rtc_once. apply step_startSession. Qed.

Lemma sample_active_reachable : reachable sample_active.
Proof.
  unfold sample_active.
  eapply rtc_r; [|apply step_addObservation].
  eapply rtc_r; [|apply step_addObservation].
  eapply rtc_r; [|apply step_addObservation].
  apply sample_started_reachable.
Qed.

Lemma sample_two_reachable : reachable sample_two.
Proof. eapply rtc_r; [apply sample_active_reachable | apply step_startSession]. Qed.

Lemma sample_edit_printable : printable sample_edit.
Proof. split; [vm_compute; reflexivity | apply sample_edit_valid]. Qed.

Lemma sample_error_printable : printable sample_error.
Proof.
  split; [vm_compute; reflexivity|]. split; [|split].
  - vm_compute. discriminate.
  - vm_compute. reflexivity.
  - eexists. split; [reflexivity|]. repeat split; try reflexivity. vm_compute. eauto.
Qed.

Lemma addObservations_read_back_witness :
  is_active sample_id sample_started
  /\ (addObservations sample_id [(sample_edit, 3000); (sample_error, 4000)] sample_started).1
     = true
  /\ readObservations sample_id
       (addObservations sample_id [(sample_edit, 3000); (sample_error, 4000)]
          sample_started).2
     = readObservations sample_id sample_started ++ [sample_edit; sample_error].
Proof.
  assert (Ha : is_active sample_id sample_started) by (vm_compute; reflexivity).
  assert (Hl : log_intact sample_id sample_started) by (left; vm_compute; reflexivity).
  assert (Hp : Forall (fun item : json * Z => printable item.1)
                 [(sample_edit, 3000); (sample_error, 4000)]).
  { constructor; [apply sample_edit_printable|].
    constructor; [apply sample_error_printable | constructor]. }
  split; [exact Ha|].
  pose proof (addObservations_read_back sample_id
                [(sample_edit, 3000); (sample_error, 4000)] sample_started Ha Hl Hp) as T.
  exact (conj (proj1 T) (proj1 (proj2 T))).
Defined.

Lemma addObservation_after_torn_line_witness :
  is_active sample_id sample_cut_log
  /\ readObservations sample_id sample_cut_log = [sample_command]
  /\ readObservations sample_id (addObservation true sample_id sample_edit 6000 sample_cut_log).2
     = [sample_command].
Proof.
  assert (Ha : is_active sample_id sample_cut_log) by (vm_compute; reflexivity).
  split; [exact Ha|]. split; [vm_compute; reflexivity|].
  refine (proj2 (proj2 (addObservation_after_torn_line sample_id sample_edit 6000
                          sample_cut_log [JSON_stringify sample_command] sample_fragment
                          5000 Ha (lookup_insert_eq _ _ _) _ _)) _).
  - repeat constructor.
  - vm_compute. reflexivity.
  - left. vm_compute. reflexivity.
Defined.

Lemma endSession_closes_active_witness :
  readSessionMetadata sample_id sample_active = Some sample_active_metadata
  /\ readSessionMetadata sample_id (endSession sample_id stop 125000 sample_active).2
     = Some (SessionMetadata.mk sample_id "only-context" "/work/only-context" 1000
               (Some 125000) (Some 2) stopped None 125000 None)
  /\ readObservations sample_id (endSession sample_id stop 125000 sample_active).2
     = readObservations sample_id sample_active.
Proof.
  assert (Hm : readSessionMetadata sample_id sample_active = Some sample_active_metadata)
    by (vm_compute; reflexivity).
  split; [exact Hm|].
  pose proof (endSession_closes_active sample_id stop 125000 sample_active
                sample_active_metadata
                (reachable_consistent _ sample_active_reachable) Hm eq_refl) as T.
  exact (conj (proj1 T) (proj1 (proj2 (proj2 T)))).
Defined.

Lemma perform_accumulates_knowledge_witness :
  (getPreCompactKnowledge sample_id 0 0 []
     (perform (UpdatePreCompactKnowledge ["knowledge/b.md"%string]) sample_id 7000
        (perform (UpdatePreCompactKnowledge ["knowledge/a.md"%string]) sample_id 6000
           sample_active))).2
  = (getPreCompactKnowledge sample_id 0 0 []
       (perform (UpdatePreCompactKnowledge ["knowledge/a.md"%string]) sample_id 6000
          sample_active)).2
    ++ ["knowledge/b.md"%string].
Proof.
  exact (perform_accumulates_knowledge (UpdatePreCompactKnowledge ["knowledge/b.md"%string])
           sample_id sample_id 7000
           (perform (UpdatePreCompactKnowledge ["knowledge/a.md"%string]) sample_id 6000
              sample_active)
           0 0 [] 0 0 []
           (store_consistent_perform _ _ _ _
              (reachable_consistent _ sample_active_reachable))).
Defined.

Lemma updateSessionSummary_sets_summary_only_witness :
  readSession sample_id sample_active = Ok (Some sample_session)
  /\ readSession sample_id (updateSessionSummary sample_id "all done" 6000 sample_active).2
     = Ok (Some (with_summary sample_session "all done")).
Proof.
  assert (Hr : readSession sample_id sample_active = Ok (Some sample_session))
    by (vm_compute; reflexivity).
  split; [exact Hr|].
  exact (proj1 (proj2 (updateSessionSummary_sets_summary_only sample_id "all done" 6000
                         sample_active sample_session
                         (reachable_consistent _ sample_active_reachable) Hr))).
Defined.

Lemma session_step_leaves_other_sessions_witness :
  safeSessionFilename sample_other_id <> safeSessionFilename sample_id
  /\ readSession sample_id
       (clearSessionFile true sample_other_id 5000 8000 [] 8000 sample_two).2
     = readSession sample_id sample_two.
Proof.
  assert (Hne : safeSessionFilename sample_other_id <> safeSessionFilename sample_id)
    by (vm_compute; discriminate).
  split; [exact Hne|].
  exact (proj1 (proj2 (session_step_leaves_other_sessions sample_other_id sample_id
                         sample_two _
                         (reachable_consistent _ sample_two_reachable)
                         (on_clearSessionFile sample_other_id true 5000 8000 [] 8000
                            sample_two)
                         Hne))).
Defined.

Lemma reachable_store_named_witness : store_named sample_two.
Proof. exact (proj1 (reachable_store_named sample_two sample_two_reachable)). Defined.

Lemma listActiveSessions_lists_active_witness :
  readSession sample_id sample_two = Ok (Some sample_session)
  /\ sample_session ∈ listActiveSessions sample_two.
Proof.
  assert (Hr : readSession sample_id sample_two = Ok (Some sample_session))
    by (vm_compute; reflexivity).
  split; [exact Hr|].
  apply (proj1 (listActiveSessions_lists_active sample_two sample_session
                  (rtc_store_named _ _ sample_two_reachable store_named_empty))).
  split; [reflexivity | by exists sample_id].
Defined.

Lemma cleanupStaleSessions_removes_stale_witness :
  readSession sample_id sample_two = Ok (Some sample_session)
  /\ stale 100000000 (24 * 60 * 60 * 1000) sample_id sample_two
  /\ finalized 100000000 sample_session
       ∈ (cleanupStaleSessions quiet_env 24 100000000 sample_two).1
  /\ (cleanupStaleSessions quiet_env 24 100000000 sample_two).2
       !! getObservationsFilePath sample_id = None.
Proof.
  assert (Hr : readSession sample_id sample_two = Ok (Some sample_session))
    by (vm_compute; reflexivity).
  assert (Hs : stale 100000000 (24 * 60 * 60 * 1000) sample_id sample_two)
    by (vm_compute; reflexivity).
  split; [exact Hr|]. split; [exact Hs|].
  pose proof (cleanupStaleSessions_removes_stale quiet_env 24 100000000 sample_two sample_id
                sample_session
                (rtc_store_named _ _ sample_two_reachable store_named_empty) Hr Hs) as T.
  split; [exact (proj1 T)|].
  apply (proj2 T). apply session_files_log.
Defined.

Lemma reachable_no_marker_left_witness :
  sample_two !! getLockFilePath sample_id = None
  /\ sample_two !! getPendingLockPath sample_id = None.
Proof. exact (reachable_no_marker_left sample_two sample_id sample_two_reachable). Defined.

Lemma sample_active_intact : log_intact sample_id sample_active.
Proof.
  right. exists [JSON_stringify sample_command; JSON_stringify sample_edit;
                 JSON_stringify sample_error], 4000.
  split; [vm_compute; reflexivity | repeat constructor].
Qed.

Lemma sample_prompt_printable :
  printable (prompt_observation "obs-5" "2026-01-01T00:00:05.000Z" sample_prompt).
Proof.
  split; [vm_compute; reflexivity|]. split; [|split].
  - vm_compute. discriminate.
  - vm_compute. reflexivity.
  - eexists. split; [reflexivity|]. repeat split; try reflexivity. vm_compute. eauto.
Qed.

Lemma userPromptSubmit_records_prompt_witness :
  readSession sample_id sample_active = Ok (Some sample_session)
  /\ readSession sample_id
       (userPromptSubmit false sample_prompt_input true "obs-5" "2026-01-01T00:00:05.000Z"
          5000 sample_active)
     = Ok (Some (with_observation sample_session
                   (prompt_observation "obs-5" "2026-01-01T00:00:05.000Z" sample_prompt))).
Proof.
  assert (Hr : readSession sample_id sample_active = Ok (Some sample_session))
    by (vm_compute; reflexivity).
  split; [exact Hr|].
  refine (proj2 (proj2 (proj2 (proj2
            (userPromptSubmit_records_prompt false sample_id sample_prompt true "obs-5"
               "2026-01-01T00:00:05.000Z" 5000 sample_active))))
            sample_session eq_refl eq_refl _ _ Hr eq_refl sample_active_intact
            sample_prompt_printable).
  - discriminate.
  - vm_compute. discriminate.
Defined.

Lemma utf8_encode_injective_witness :
  well_formed [0x61; 0xD83D; 0xDE00; 0xE9] = true
  /\ utf8_encode [0x61; 0xD83D; 0xDE00; 0xE9] = [0x61; 0xF0; 0x9F; 0x98; 0x80; 0xC3; 0xA9]
  /\ [0x61; 0xD83D; 0xDE00; 0xE9] = [0x61; 0xD83D; 0xDE00; 0xE9].
Proof.
  split; [reflexivity|]. split; [reflexivity|].
  exact (utf8_encode_injective [0x61; 0xD83D; 0xDE00; 0xE9] [0x61; 0xD83D; 0xDE00; 0xE9]
           eq_refl eq_refl eq_refl).
Defined.

Lemma sample_closed_reachable : reachable sample_closed.
Proof.
  unfold sample_closed. eapply rtc_r; [apply sample_started_reachable | apply step_perform].
Qed.

Lemma reachable_records_closed_witness :
  readSessionMetadata sample_id sample_closed = Some sample_ended_metadata
  /\ (SessionMetadata.status sample_ended_metadata = active
      <-> SessionMetadata.endTime sample_ended_metadata = None).
Proof.
  assert (Hm : readSessionMetadata sample_id sample_closed = Some sample_ended_metadata)
    by (vm_compute; reflexivity).
  split; [exact Hm|].
  exact (proj1 (reachable_records_closed sample_closed sample_id sample_ended_metadata
                  sample_closed_reachable Hm)).
Defined.

Lemma sample_counting_reachable :
  reachable (started_all sample_id [10; 20] sample_started).
Proof.
  unfold started_all. cbn [fold_left].
  eapply rtc_r; [|apply step_markBackgroundJobStarted].
  eapply rtc_r; [|apply step_markBackgroundJobStarted].
  apply sample_started_reachable.
Qed.

Lemma reachable_counter_sound_witness :
  exists n,
    0 <= n
    /\ counter_holds sample_id n (started_all sample_id [10; 20] sample_started)
    /\ (forall conservative,
          getPendingJobCount (getPendingFilePath sample_id) conservative
            (started_all sample_id [10; 20] sample_started) = n)
    /\ (n = 0 <-> started_all sample_id [10; 20] sample_started
                    !! getPendingFilePath sample_id = None).
Proof.
  exact (reachable_counter_sound (started_all sample_id [10; 20] sample_started) sample_id
           sample_counting_reachable).
Defined.

Lemma readSession_throws_iff_witness : readSession sample_id sample_broken = Throw.
Proof.
  apply (proj2 (readSession_throws_iff sample_id sample_broken)). split.
  - exists (SessionMetadata.mk sample_id "only-context" "/work/only-context" 1000
              None None active None 1000 None).
    vm_compute. reflexivity.
  - exists sample_broken_edit. split; [|reflexivity].
    assert (readObservations sample_id sample_broken = [sample_broken_edit]) as ->
      by (vm_compute; reflexivity).
    by left.
Defined.

Lemma cleanupStaleSessions_spares_unreadable_witness :
  stale 100000000 (24 * 60 * 60 * 1000) sample_id sample_broken
  /\ (cleanupStaleSessions quiet_env 24 100000000 sample_broken).2
       !! getSessionFilePath sample_id
     = sample_broken !! getSessionFilePath sample_id.
Proof.
  split; [vm_compute; reflexivity|].
  apply (proj1 (cleanupStaleSessions_spares_unreadable quiet_env 24 100000000 sample_broken
                  sample_id)).
  - vm_compute. reflexivity.
  - apply session_files_meta.
Defined.

Example lock_loop_breaks_stale_marker :
  lock_loop 0 sample_attempts = (Acquired, [-6000]).
Proof. reflexivity. Qed.

Example lock_loop_breaks_replaced_marker :
  lock_loop 0 sample_race = (Acquired, [5]).
Proof. reflexivity. Qed.

Lemma preCompact_counts_spawned_job_witness :
  (preCompact false true sample_compact_input false 30
     (started_all sample_id [10] sample_started)).1 = true
  /\ counter_holds sample_id 1 (started_all sample_id [10] sample_started)
  /\ counter_holds sample_id 0
       (markBackgroundJobCompleted true sample_id 40
          (preCompact false true sample_compact_input false 30
             (started_all sample_id [10] sample_started)).2).
Proof.
  assert (Hs : (preCompact false true sample_compact_input false 30
                  (started_all sample_id [10] sample_started)).1 = true)
    by (vm_compute; reflexivity).
  assert (Hc : counter_holds sample_id 1 (started_all sample_id [10] sample_started)).
  { exists 10. vm_compute. reflexivity. }
  split; [exact Hs|]. split; [exact Hc|].
  exact (proj2 (proj2 (proj2 (proj2
           (preCompact_counts_spawned_job false true sample_id "/tmp/transcript.jsonl"
              false 30 (started_all sample_id [10] sample_started)))) Hs eq_refl)
           1 40 ltac:(unfold MAX_SAFE_INTEGER; lia) Hc).
Defined.

Lemma endSession_terminal_unchanged_witness :
  readSessionMetadata sample_id sample_ended = Some sample_ended_metadata
  /\ SessionMetadata.status sample_ended_metadata = completed
  /\ exists session,
       endSession sample_id stop 999000 sample_ended = (Ok (Some session), sample_ended)
       /\ Session.status session = completed
       /\ Session.endTime session = Some 125000
       /\ Session.durationMinutes session = Some 2
       /\ Session.observations session = [sample_command; sample_edit; sample_error].
Proof.
  assert (H : readSessionMetadata sample_id sample_ended = Some sample_ended_metadata)
    by (vm_compute; reflexivity).
  assert (Hobs : readObservations sample_id sample_ended
                 = [sample_command; sample_edit; sample_error])
    by (vm_compute; reflexivity).
  assert (Hsound : forall obs, obs ∈ readObservations sample_id sample_ended ->
                     breaks_readSession obs = false).
  { rewrite Hobs. intros obs Hin. apply list_elem_of_In in Hin.
    destruct Hin as [<- | [<- | [<- | []]]]; vm_compute; reflexivity. }
  split; [exact H | split; [reflexivity|]].
  destruct (proj2 (proj2 (proj2
              (endSession_terminal_unchanged sample_id stop 999000 sample_ended
                 sample_ended_metadata H (or_introl eq_refl)))) Hsound)
    as (session & He & _ & _ & _ & _ & Hend & Hdur & Hst & _ & Ho).
  exists session. rewrite Hst, Hend, Hdur, Ho, Hobs.
  split; [exact He | repeat split].
Defined.

(** The session ended with a [file_edit] record without [data] in its log:
    its status is [completed], and [endSession] throws instead of returning
    the record. *)
Lemma endSession_terminal_throws :
  stored_status sample_id sample_broken_ended = Some completed
  /\ endSession sample_id stop 999000 sample_broken_ended = (Throw, sample_broken_ended)
  /\ ~ (exists session,
          (endSession sample_id stop 999000 sample_broken_ended).1 = Ok (Some session)).
Proof.
  assert (E : endSession sample_id stop 999000 sample_broken_ended
              = (Throw, sample_broken_ended)) by (vm_compute; reflexivity).
  split; [vm_compute; reflexivity | split; [exact E|]].
  intros (session & H). rewrite E in H. discriminate.
Qed.


End UseWitnesses.
